(** * The backtesting classes of [backtest.py]

    The development embeds the accounting core of [backtest.py]:
    the ledger kept in the attributes of [BacktestBase], the order
    methods [place_buy_order], [place_sell_order] and [close_out], the
    long-short helpers [go_long] and [go_short], the six strategy loops
    of [BacktestLongOnly] and [BacktestLongShort], and the script that
    runs three of them on one object.

    Conventions of the embedding.
    - Amounts of cash, prices, returns, costs and thresholds are IEEE 754
      binary64 numbers, the [float]s of Python and numpy: they are the
      primitive floats of Rocq, with their operations, which round to
      nearest as the hardware does.  Every expression of the code is
      evaluated in the order in which the code writes it.  [int(x)] is
      truncation toward zero of the exact value of the double [x]; it
      raises [OverflowError] for an infinity and [ValueError] for NaN.
      An [int] that is multiplied by a double is first rounded to a
      double, which raises [OverflowError] when the [int] is beyond the
      range of doubles.
    - Python [int]s ([units], [position], [trades]) are [Z].  Bar indices
      and window lengths are [nat]: the development is about calls with
      windows that are non-negative integers.
    - The frame built by [get_data] has the two columns [price] and
      [return]; it is the list [data].  The indicator columns that the
      strategies store into the frame live in the finite map [cols].
    - [Series.rolling(w).mean()] is code of pandas, not of the program.
      The engine is verified against every implementation of it that
      has the three properties of the class [Rolling] below; one such
      implementation serves to run the examples.
    - A method is a computation in a state/exception/writer monad: it
      reads and updates the object, may raise a Python exception (the
      object keeps the updates made so far), and records every fill it
      applies.  The record of fills is the information narrated by the
      [print] calls under [verbose]; printing itself is not modelled.

    The file has three parts: the model, the vocabulary in which the
    properties are stated, and the properties with their proofs.  The
    properties of the specification ([spec.md]) are numbered C1 to
    C10; further properties of the code carry a number that starts
    with X. *)

From Stdlib Require Import ZArith QArith Qround Qpower Lia Lqa Floats.
From stdpp Require Import gmap strings list sorting.

(** ** Arithmetic of doubles *)

(** [float(n)]: the double nearest to the integer [n], ties to even.
    Python converts an [int] in this way when it multiplies it with a
    double, and raises [OverflowError] for the ints that round to an
    infinity: those from [2^1024 - 2^970] on, and their opposites. *)
Definition float_of_int (n : Z) : float :=
  SF2Prim (binary_normalize prec emax n 0 false).

Definition double_range : Z := 2 ^ 1024 - 2 ^ 970.

Definition in_double_range (n : Z) : bool := (Z.abs n <? double_range)%Z.

(** The exact value of a finite double. *)
Definition float_value (x : float) : option Q :=
  match Prim2SF x with
  | S754_zero _ => Some 0%Q
  | S754_finite s m e => Some (inject_Z (cond_Zopp s (Zpos m)) * 2 ^ e)%Q
  | S754_infinity _ | S754_nan => None
  end.

(** Truncation toward zero. *)
Definition Qtrunc (x : Q) : Z := Z.quot (Qnum x) (Zpos (Qden x)).

(** The Python exceptions the engine can raise. *)
Inductive Exn :=
| IndexError | KeyError | TypeError
| OverflowError | ValueError | UnboundLocalError.

(** [int(x)] for a double [x]. *)
Definition int_of_float (x : float) : Exn + Z :=
  match Prim2SF x with
  | S754_nan => inl ValueError
  | S754_infinity _ => inl OverflowError
  | S754_zero _ => inr 0%Z
  | S754_finite s m e =>
      inr (Qtrunc (inject_Z (cond_Zopp s (Zpos m)) * 2 ^ e)%Q)
  end.

(** [x > y] and [x >= y]. *)
Definition gtb (x y : float) : bool := (y <? x)%float.
Definition geb (x y : float) : bool := (y <=? x)%float.

(** The double nearest to 0.01, the proportional costs of the script. *)
Definition one_percent : float := 0x1.47ae147ae147bp-7%float.

(** ** Rolling means *)

(** What the engine needs of [series.rolling(w).mean()]: one cell per
    row; NaN wherever the window is empty or not yet full (pandas takes
    [min_periods] to be the window); and, where the [w] values of a full
    window are one and the same number, that number. *)
Class Rolling := {
  rolling_mean : nat → list float → list float;
  rolling_mean_length w xs : length (rolling_mean w xs) = length xs;
  rolling_mean_warm_up w xs i v :
    ¬ (1 ≤ w ≤ S i) → rolling_mean w xs !! i = Some v → is_nan v = true;
  rolling_mean_level w xs i c :
    1 ≤ w ≤ S i → i < length xs →
    (∀ j, S i - w ≤ j ≤ i → xs !! j = Some c) →
    rolling_mean w xs !! i = Some c
}.

(** The mean of the window that ends at index [i], summed from its
    first value to its last; a window of equal values has that value. *)
Definition same_value (x y : float) : bool :=
  (x =? y)%float || (is_nan x && is_nan y).

Definition window_mean (w : nat) (xs : list float) (i : nat) : float :=
  if (1 <=? w) && (w <=? S i) then
    let values := take w (drop (S i - w) xs) in
    match last values with
    | Some c =>
        if forallb (λ x, same_value x c) values then c
        else (foldl PrimFloat.add 0%float values
              / float_of_int (Z.of_nat w))%float
    | None => nan
    end
  else nan.

Definition window_means (w : nat) (xs : list float) : list float :=
  window_mean w xs <$> seq 0 (length xs).

(** ** Data model *)

(** One row of [self.data]. *)
Record Bar := mkBar { price : float; return_ : float }.

(** The attributes of a [BacktestBase] object that the engine uses. *)
Record Backtest := mkBacktest {
  initial_amount : float;
  amount : float;
  ftc : float;
  ptc : float;
  units : Z;
  position : Z;
  trades : Z;
  data : list Bar;
  cols : gmap string (list float)
}.

(** [BacktestBase.__init__] followed by [get_data] returning [rows]. *)
Definition init (amount0 ftc0 ptc0 : float) (rows : list Bar) : Backtest :=
  {| initial_amount := amount0; amount := amount0; ftc := ftc0; ptc := ptc0;
     units := 0; position := 0; trades := 0; data := rows; cols := ∅ |}.

Definition set_amount (x : float) (s : Backtest) : Backtest :=
  {| initial_amount := initial_amount s; amount := x; ftc := ftc s;
     ptc := ptc s; units := units s; position := position s;
     trades := trades s; data := data s; cols := cols s |}.

Definition set_units (x : Z) (s : Backtest) : Backtest :=
  {| initial_amount := initial_amount s; amount := amount s; ftc := ftc s;
     ptc := ptc s; units := x; position := position s;
     trades := trades s; data := data s; cols := cols s |}.

Definition set_position (x : Z) (s : Backtest) : Backtest :=
  {| initial_amount := initial_amount s; amount := amount s; ftc := ftc s;
     ptc := ptc s; units := units s; position := x;
     trades := trades s; data := data s; cols := cols s |}.

Definition set_trades (x : Z) (s : Backtest) : Backtest :=
  {| initial_amount := initial_amount s; amount := amount s; ftc := ftc s;
     ptc := ptc s; units := units s; position := position s;
     trades := x; data := data s; cols := cols s |}.

Definition set_col (name : string) (c : list float) (s : Backtest)
  : Backtest :=
  {| initial_amount := initial_amount s; amount := amount s; ftc := ftc s;
     ptc := ptc s; units := units s; position := position s;
     trades := trades s; data := data s; cols := <[name := c]> (cols s) |}.

(** A fill, as narrated by the order methods: the bar, the number of
    units traded (for [ClosedOut]: the holding that is liquidated) and
    the price of the bar. *)
Inductive Event :=
| Buying (bar : nat) (n : Z) (p : float)
| Selling (bar : nat) (n : Z) (p : float)
| ClosedOut (bar : nat) (n : Z) (p : float).

Definition event_bar (e : Event) : nat :=
  match e with Buying b _ _ | Selling b _ _ | ClosedOut b _ _ => b end.

Definition is_order (e : Event) : bool :=
  match e with ClosedOut _ _ _ => false | _ => true end.

(** ** The monad of methods *)

Inductive Outcome (A : Type) :=
| Ok (a : A) (s : Backtest) (log : list Event)
| Raise (e : Exn) (s : Backtest) (log : list Event).
Arguments Ok {A} a s log.
Arguments Raise {A} e s log.

Definition M (A : Type) : Type := Backtest → Outcome A.

Definition state_of {A} (o : Outcome A) : Backtest :=
  match o with Ok _ s _ | Raise _ s _ => s end.

Definition log_of {A} (o : Outcome A) : list Event :=
  match o with Ok _ _ l | Raise _ _ l => l end.

Definition ret {A} (a : A) : M A := λ s, Ok a s [].

Definition bind {A B} (m : M A) (k : A → M B) : M B :=
  λ s, match m s with
       | Ok a s1 l1 =>
           match k a s1 with
           | Ok b s2 l2 => Ok b s2 (l1 ++ l2)
           | Raise e s2 l2 => Raise e s2 (l1 ++ l2)
           end
       | Raise e s1 l1 => Raise e s1 l1
       end.

Definition raise {A} (e : Exn) : M A := λ s, Raise e s [].
Definition gets {A} (f : Backtest → A) : M A := λ s, Ok (f s) s [].
Definition modify (f : Backtest → Backtest) : M unit := λ s, Ok tt (f s) [].
Definition tell (e : Event) : M unit := λ s, Ok tt s [e].

Declare Scope bt_scope.
Delimit Scope bt_scope with bt.
Notation "x <- m ;; k" := (bind m (λ x, k))
  (at level 100, m at next level, right associativity) : bt_scope.
Notation "m ;; k" := (bind m (λ _, k))
  (at level 100, right associativity) : bt_scope.
Open Scope bt_scope.

(** The conversion of the [int] operand of [units * price]. *)
Definition to_double (n : Z) : M float :=
  if in_double_range n then ret (float_of_int n) else raise OverflowError.

(** [int(amount / price)]: the quotient is a double; where it is an
    infinity or NaN (a zero price, an overflow) [int] refuses it. *)
Definition int_quotient (amount_ price_ : float) : M Z :=
  match int_of_float (amount_ / price_) with
  | inr n => ret n
  | inl e => raise e
  end.

(** ** BacktestBase *)

(** [get_date_price]; the date is only displayed. *)
Definition get_date_price (bar : nat) : M float :=
  rows <- gets data;;
  match rows !! bar with
  | Some r => ret (price r)
  | None => raise IndexError
  end.

Definition place_buy_order (bar : nat) (units_ : option Z)
    (amount_ : option float) : M unit :=
  price_ <- get_date_price bar;;
  n <- match units_ with
       | Some n => ret n
       | None => match amount_ with
                 | Some a => int_quotient a price_
                 | None => raise TypeError
                 end
       end;;
  x <- to_double n;;
  modify (λ s, set_amount
    (amount s - ((x * price_) * (1 + ptc s) + ftc s))%float s);;
  modify (λ s, set_units (units s + n)%Z s);;
  modify (λ s, set_trades (trades s + 1)%Z s);;
  tell (Buying bar n price_).

Definition place_sell_order (bar : nat) (units_ : option Z)
    (amount_ : option float) : M unit :=
  price_ <- get_date_price bar;;
  n <- match units_ with
       | Some n => ret n
       | None => match amount_ with
                 | Some a => int_quotient a price_
                 | None => raise TypeError
                 end
       end;;
  x <- to_double n;;
  modify (λ s, set_amount
    (amount s + ((x * price_) * (1 - ptc s) - ftc s))%float s);;
  modify (λ s, set_units (units s - n)%Z s);;
  modify (λ s, set_trades (trades s + 1)%Z s);;
  tell (Selling bar n price_).

(** The figures printed by [close_out]: final balance, net performance
    in percent and trade count. *)
Definition summary (s : Backtest) : float * float * Z :=
  (amount s,
   ((amount s - initial_amount s) / initial_amount s * 100)%float,
   trades s).

Definition close_out (bar : nat) : M unit :=
  price_ <- get_date_price bar;;
  held <- gets units;;
  x <- to_double held;;
  modify (λ s, set_amount (amount s + x * price_)%float s);;
  modify (set_units 0);;
  modify (λ s, set_trades (trades s + 1)%Z s);;
  tell (ClosedOut bar held price_).

(** ** Frame columns *)

(** [self.data[name].iloc[bar]] for an indicator column. *)
Definition cell (name : string) (bar : nat) : M float :=
  c <- gets cols;;
  match c !! name with
  | None => raise KeyError
  | Some column =>
      match column !! bar with
      | Some v => ret v
      | None => raise IndexError
      end
  end.

(** [self.data["price"].iloc[bar]]. *)
Definition price_cell (bar : nat) : M float := get_date_price bar.

(** ** Loops *)

(** [for bar in bars: body]; the result is the loop variable after the
    loop, [None] while it is unbound. *)
Fixpoint for_each (bars : list nat) (body : nat → M unit) (bound : option nat)
  : M (option nat) :=
  match bars with
  | [] => ret bound
  | b :: rest => body b;; for_each rest body (Some b)
  end.

(** [range(lo, hi)]. *)
Definition range (lo hi : nat) : list nat := seq lo (hi - lo).

(** [self.close_out(bar)] after the loop: [bar] is a local variable that
    only the loop assigns. *)
Definition close_out_after (bar : option nat) : M unit :=
  match bar with
  | Some b => close_out b
  | None => raise UnboundLocalError
  end.

(** The three assignments that open every strategy run. *)
Definition reset : M unit :=
  modify (set_position 0);;
  modify (set_trades 0);;
  modify (λ s, set_amount (initial_amount s) s).

(** [self.data[name] = self.data[source].rolling(w).mean()]. *)
Definition store_rolling `{Rolling} (name : string) (w : nat)
    (source : Bar → float) : M unit :=
  modify (λ s, set_col name (rolling_mean w (source <$> data s)) s).

(** ** BacktestLongOnly *)

Module BacktestLongOnly.

Definition sma_bar (bar : nat) : M unit :=
  pos <- gets position;;
  if (pos =? 0)%Z then
    a <- cell "SMA1" bar;;
    b <- cell "SMA2" bar;;
    if gtb a b then
      cash <- gets amount;;
      place_buy_order bar None (Some cash);;
      modify (set_position 1)
    else ret tt
  else if (pos =? 1)%Z then
    a <- cell "SMA1" bar;;
    b <- cell "SMA2" bar;;
    if (a <? b)%float then
      held <- gets units;;
      place_sell_order bar (Some held) None;;
      modify (set_position 0)
    else ret tt
  else ret tt.

Definition run_sma_strategy `{Rolling} (SMA1 SMA2 : nat) : M unit :=
  reset;;
  store_rolling "SMA1" SMA1 price;;
  store_rolling "SMA2" SMA2 price;;
  len <- gets (λ s, length (data s));;
  bar <- for_each (range SMA2 len) sma_bar None;;
  close_out_after bar.

Definition momentum_bar (bar : nat) : M unit :=
  pos <- gets position;;
  if (pos =? 0)%Z then
    m <- cell "momentum" bar;;
    if gtb m 0 then
      cash <- gets amount;;
      place_buy_order bar None (Some cash);;
      modify (set_position 1)
    else ret tt
  else if (pos =? 1)%Z then
    m <- cell "momentum" bar;;
    if (m <? 0)%float then
      held <- gets units;;
      place_sell_order bar (Some held) None;;
      modify (set_position 0)
    else ret tt
  else ret tt.

Definition run_momentum_strategy `{Rolling} (momentum : nat) : M unit :=
  reset;;
  store_rolling "momentum" momentum return_;;
  len <- gets (λ s, length (data s));;
  bar <- for_each (range momentum len) momentum_bar None;;
  close_out_after bar.

Definition mean_reversion_bar (threshold : float) (bar : nat) : M unit :=
  pos <- gets position;;
  if (pos =? 0)%Z then
    p <- price_cell bar;;
    a <- cell "SMA" bar;;
    if (p <? a - threshold)%float then
      cash <- gets amount;;
      place_buy_order bar None (Some cash);;
      modify (set_position 1)
    else ret tt
  else if (pos =? 1)%Z then
    p <- price_cell bar;;
    a <- cell "SMA" bar;;
    if geb p a then
      held <- gets units;;
      place_sell_order bar (Some held) None;;
      modify (set_position 0)
    else ret tt
  else ret tt.

Definition run_mean_reversion_strategy `{Rolling} (SMA : nat)
    (threshold : float) : M unit :=
  reset;;
  store_rolling "SMA" SMA price;;
  len <- gets (λ s, length (data s));;
  bar <- for_each (range SMA len) (mean_reversion_bar threshold) None;;
  close_out_after bar.

End BacktestLongOnly.

(** ** BacktestLongShort *)

(** The [amount] argument of [go_long] and [go_short]: a number or the
    string ["all"]. *)
Inductive Budget := All | Cash (q : float).

(** Python truth value of the [units] argument ([None] and [0] are
    false) and of the [amount] argument ([None] and a zero number are
    false, ["all"] and NaN are true). *)
Definition truthy_units (u : option Z) : bool :=
  match u with Some n => negb (n =? 0)%Z | None => false end.
Definition truthy_amount (a : option Budget) : bool :=
  match a with
  | Some All => true
  | Some (Cash q) => negb (q =? 0)%float
  | None => false
  end.

Module BacktestLongShort.

(** [if amount == "all": amount = self.amount], for a true [amount]. *)
Definition resolve (a : option Budget) : M (option float) :=
  match a with
  | Some All => cash <- gets amount;; ret (Some cash)
  | Some (Cash q) => ret (Some q)
  | None => ret None
  end.

Definition go_long (bar : nat) (units_ : option Z) (amount_ : option Budget)
  : M unit :=
  pos <- gets position;;
  (if (pos =? -1)%Z then
     held <- gets units;;
     place_buy_order bar (Some (- held)%Z) None
   else ret tt);;
  if truthy_units units_ then place_buy_order bar units_ None
  else if truthy_amount amount_ then
    a <- resolve amount_;;
    place_buy_order bar None a
  else ret tt.

Definition go_short (bar : nat) (units_ : option Z) (amount_ : option Budget)
  : M unit :=
  pos <- gets position;;
  (if (pos =? 1)%Z then
     held <- gets units;;
     place_sell_order bar (Some held) None
   else ret tt);;
  if truthy_units units_ then place_sell_order bar units_ None
  else if truthy_amount amount_ then
    a <- resolve amount_;;
    place_sell_order bar None a
  else ret tt.

(** [self.position in [0, -1]] and [self.position in [0, 1]]. *)
Definition flat_or_short (pos : Z) : bool := (pos =? 0)%Z || (pos =? -1)%Z.
Definition flat_or_long (pos : Z) : bool := (pos =? 0)%Z || (pos =? 1)%Z.

Definition sma_bar (bar : nat) : M unit :=
  pos <- gets position;;
  (if flat_or_short pos then
     a <- cell "SMA1" bar;;
     b <- cell "SMA2" bar;;
     if gtb a b then
       go_long bar None (Some All);;
       modify (set_position 1)
     else ret tt
   else ret tt);;
  pos <- gets position;;
  if flat_or_long pos then
    a <- cell "SMA1" bar;;
    b <- cell "SMA2" bar;;
    if (a <? b)%float then
      go_short bar None (Some All);;
      modify (set_position (-1))
    else ret tt
  else ret tt.

Definition run_sma_strategy `{Rolling} (SMA1 SMA2 : nat) : M unit :=
  reset;;
  store_rolling "SMA1" SMA1 price;;
  store_rolling "SMA2" SMA2 price;;
  len <- gets (λ s, length (data s));;
  bar <- for_each (range SMA2 len) sma_bar None;;
  close_out_after bar.

Definition momentum_bar (bar : nat) : M unit :=
  pos <- gets position;;
  (if flat_or_short pos then
     m <- cell "momentum" bar;;
     if gtb m 0 then
       go_long bar None (Some All);;
       modify (set_position 1)
     else ret tt
   else ret tt);;
  pos <- gets position;;
  if flat_or_long pos then
    m <- cell "momentum" bar;;
    if (m <=? 0)%float then
      go_short bar None (Some All);;
      modify (set_position (-1))
    else ret tt
  else ret tt.

Definition run_momentum_strategy `{Rolling} (momentum : nat) : M unit :=
  reset;;
  store_rolling "momentum" momentum return_;;
  len <- gets (λ s, length (data s));;
  bar <- for_each (range momentum len) momentum_bar None;;
  close_out_after bar.

Definition mean_reversion_bar (threshold : float) (bar : nat) : M unit :=
  pos <- gets position;;
  if (pos =? 0)%Z then
    p <- price_cell bar;;
    a <- cell "SMA" bar;;
    if (p <? a - threshold)%float then
      budget <- gets initial_amount;;
      go_long bar None (Some (Cash budget));;
      modify (set_position 1)
    else
      p <- price_cell bar;;
      a <- cell "SMA" bar;;
      if gtb p (a + threshold)%float then
        budget <- gets initial_amount;;
        go_short bar None (Some (Cash budget));;
        modify (set_position (-1))
      else ret tt
  else if (pos =? 1)%Z then
    p <- price_cell bar;;
    a <- cell "SMA" bar;;
    if geb p a then
      held <- gets units;;
      place_sell_order bar (Some held) None;;
      modify (set_position 0)
    else ret tt
  else if (pos =? -1)%Z then
    p <- price_cell bar;;
    a <- cell "SMA" bar;;
    if (p <=? a)%float then
      held <- gets units;;
      place_buy_order bar (Some (- held)%Z) None;;
      modify (set_position 0)
    else ret tt
  else ret tt.

Definition run_mean_reversion_strategy `{Rolling} (SMA : nat)
    (threshold : float) : M unit :=
  reset;;
  store_rolling "SMA" SMA price;;
  len <- gets (λ s, length (data s));;
  bar <- for_each (range SMA len) (mean_reversion_bar threshold) None;;
  close_out_after bar.

End BacktestLongShort.

(** ** The strategies as one family *)

Section Family.
Context {pandas : Rolling}.

Inductive Strategy :=
| LongOnlySMA (SMA1 SMA2 : nat)
| LongOnlyMomentum (momentum : nat)
| LongOnlyMeanReversion (SMA : nat) (threshold : float)
| LongShortSMA (SMA1 SMA2 : nat)
| LongShortMomentum (momentum : nat)
| LongShortMeanReversion (SMA : nat) (threshold : float).

Definition run (st : Strategy) : M unit :=
  match st with
  | LongOnlySMA a b => BacktestLongOnly.run_sma_strategy a b
  | LongOnlyMomentum m => BacktestLongOnly.run_momentum_strategy m
  | LongOnlyMeanReversion w t => BacktestLongOnly.run_mean_reversion_strategy w t
  | LongShortSMA a b => BacktestLongShort.run_sma_strategy a b
  | LongShortMomentum m => BacktestLongShort.run_momentum_strategy m
  | LongShortMeanReversion w t =>
      BacktestLongShort.run_mean_reversion_strategy w t
  end.

(** The script of the module: three runs on one object. *)
Definition run_strategies : M unit :=
  BacktestLongShort.run_sma_strategy 42 252;;
  BacktestLongShort.run_momentum_strategy 60;;
  BacktestLongShort.run_mean_reversion_strategy 50 5.

(** The window that bounds the bar loop of a strategy. *)
Definition loop_window (st : Strategy) : nat :=
  match st with
  | LongOnlySMA _ w | LongOnlyMomentum w | LongOnlyMeanReversion w _
  | LongShortSMA _ w | LongShortMomentum w | LongShortMeanReversion w _ => w
  end.

Definition long_only (st : Strategy) : bool :=
  match st with
  | LongOnlySMA _ _ | LongOnlyMomentum _ | LongOnlyMeanReversion _ _ => true
  | _ => false
  end.

(** The run of a strategy, cut into its three phases: the resets and
    the indicator columns, the bar loop, the close-out. *)
Definition prepare (st : Strategy) : M unit :=
  match st with
  | LongOnlySMA a b | LongShortSMA a b =>
      reset;; store_rolling "SMA1" a price;; store_rolling "SMA2" b price
  | LongOnlyMomentum m | LongShortMomentum m =>
      reset;; store_rolling "momentum" m return_
  | LongOnlyMeanReversion w _ | LongShortMeanReversion w _ =>
      reset;; store_rolling "SMA" w price
  end.

Definition bar_step (st : Strategy) : nat → M unit :=
  match st with
  | LongOnlySMA _ _ => BacktestLongOnly.sma_bar
  | LongOnlyMomentum _ => BacktestLongOnly.momentum_bar
  | LongOnlyMeanReversion _ t => BacktestLongOnly.mean_reversion_bar t
  | LongShortSMA _ _ => BacktestLongShort.sma_bar
  | LongShortMomentum _ => BacktestLongShort.momentum_bar
  | LongShortMeanReversion _ t => BacktestLongShort.mean_reversion_bar t
  end.

(** The bars that the loop of [st] visits on the frame of [s]. *)
Definition bars_of (st : Strategy) (s : Backtest) : list nat :=
  range (loop_window st) (length (data s)).

(** The run interrupted after the first [k] bars of the loop. *)
Definition run_upto (st : Strategy) (k : nat) : M (option nat) :=
  prepare st;;
  len <- gets (λ s, length (data s));;
  for_each (take k (range (loop_window st) len)) (bar_step st) None.

(** The ledger after a buy, a sell and a close-out. *)
Definition buy_fill (n : Z) (p : float) (s : Backtest) : Backtest :=
  set_trades (trades s + 1)
    (set_units (units s + n)
       (set_amount
          (amount s - ((float_of_int n * p) * (1 + ptc s) + ftc s))%float s)).

Definition sell_fill (n : Z) (p : float) (s : Backtest) : Backtest :=
  set_trades (trades s + 1)
    (set_units (units s - n)
       (set_amount
          (amount s + ((float_of_int n * p) * (1 - ptc s) - ftc s))%float s)).

Definition closed (p : float) (s : Backtest) : Backtest :=
  set_trades (trades s + 1)
    (set_units 0
       (set_amount (amount s + float_of_int (units s) * p)%float s)).

(** The unit count of an order that is filled: the [units] argument
    when given, and within the range of doubles; otherwise the budget
    converted at the price of the bar, if [int] accepts the quotient. *)
Definition order_size (units_ : option Z) (amount_ : option float)
    (p : float) : option Z :=
  match units_ with
  | Some n => if in_double_range n then Some n else None
  | None =>
      match amount_ with
      | Some a =>
          match int_of_float (a / p) with inr n => Some n | inl _ => None end
      | None => None
      end
  end.

Definition rows_of (ps : list float) : list Bar := (λ p, mkBar p 0) <$> ps.

(** * Vocabulary of the statements *)

(** ** Relations kept by every step of a computation

    A relation between the object before a computation, the object
    after it and the fills it recorded is _stepwise_ when it holds of
    doing nothing and composes along sequencing.  A computation
    respects it when the relation holds however the computation ends,
    normally or by an exception. *)

Definition StepRel : Type := Backtest → Backtest → list Event → Prop.

Class Stepwise (R : StepRel) : Prop := {
  step_refl s : R s s [];
  step_trans s1 s2 s3 l1 l2 : R s1 s2 l1 → R s2 s3 l2 → R s1 s3 (l1 ++ l2)
}.

Definition respects (R : StepRel) {A} (m : M A) : Prop :=
  ∀ s, R s (state_of (m s)) (log_of (m s)).

(** The trade counter grows by the number of fills recorded. *)
Definition counted : StepRel :=
  λ s s' l, trades s' = (trades s + Z.of_nat (length l))%Z.

(** Only orders are recorded, and only at bar [b]. *)
Definition orders_at (b : nat) : StepRel :=
  λ _ _ l, Forall (λ e, is_order e = true ∧ event_bar e = b) l.

(** The parameters, the frame and its columns are left alone. *)
Definition framed : StepRel :=
  λ s s' _, initial_amount s' = initial_amount s ∧ ftc s' = ftc s ∧
            ptc s' = ptc s ∧ data s' = data s ∧ cols s' = cols s.

(** The orders of a loop lie at the bars it visits. *)
Definition orders_in (bars : list nat) : StepRel :=
  λ _ _ l, Forall (λ e, is_order e = true ∧ event_bar e ∈ bars) l.

(** ** Symbolic execution

    What holds after a computation: one condition for a normal return,
    one for an exception. *)
Definition wp {A} (m : M A) (Q : A → Backtest → list Event → Prop)
    (X : Exn → Backtest → list Event → Prop) (s : Backtest) : Prop :=
  match m s with Ok a s' l => Q a s' l | Raise e s' l => X e s' l end.

(** The object when the bar loop starts. *)
Definition prepared (st : Strategy) (s : Backtest) : Backtest :=
  state_of (prepare st s).

(** The indicator columns that the preparation of [st] stores. *)
Definition indicator_columns (st : Strategy) (rows : list Bar)
    (c : gmap string (list float)) : gmap string (list float) :=
  match st with
  | LongOnlySMA a b | LongShortSMA a b =>
      <["SMA2" := rolling_mean b (price <$> rows)]>
        (<["SMA1" := rolling_mean a (price <$> rows)]> c)
  | LongOnlyMomentum m | LongShortMomentum m =>
      <["momentum" := rolling_mean m (return_ <$> rows)]> c
  | LongOnlyMeanReversion w _ | LongShortMeanReversion w _ =>
      <["SMA" := rolling_mean w (price <$> rows)]> c
  end.

(** The series that the indicators of [st] average. *)
Definition loop_source (st : Strategy) : Bar → float :=
  match st with
  | LongOnlyMomentum _ | LongShortMomentum _ => return_
  | _ => price
  end.

(** The rolling mean whose window bounds the loop of [st], and the
    column that holds it. *)
Definition loop_indicator (st : Strategy) (s : Backtest) : list float :=
  rolling_mean (loop_window st) (loop_source st <$> data s).

Definition loop_column (st : Strategy) : string :=
  match st with
  | LongOnlySMA _ _ | LongShortSMA _ _ => "SMA2"
  | LongOnlyMomentum _ | LongShortMomentum _ => "momentum"
  | LongOnlyMeanReversion _ _ | LongShortMeanReversion _ _ => "SMA"
  end.

(** The columns that the bars of [st] read. *)
Definition column_names (st : Strategy) : list string :=
  match st with
  | LongOnlySMA _ _ | LongShortSMA _ _ => ["SMA1"; "SMA2"]
  | LongOnlyMomentum _ | LongShortMomentum _ => ["momentum"]
  | LongOnlyMeanReversion _ _ | LongShortMeanReversion _ _ => ["SMA"]
  end.

(** ** The long-only position machine

    Whatever the signal, a bar of a long-only strategy does one of four
    things: nothing, raise without touching the object, buy for all the
    cash when flat, or sell the whole holding when long. *)

Inductive long_only_step (b : nat) (s : Backtest) : Outcome unit → Prop :=
| lo_idle : long_only_step b s (Ok tt s [])
| lo_fault e : long_only_step b s (Raise e s [])
| lo_buy r n :
    position s = 0%Z → data s !! b = Some r →
    int_of_float (amount s / price r) = inr n →
    long_only_step b s
      (Ok tt (set_position 1 (buy_fill n (price r) s))
         [Buying b n (price r)])
| lo_sell r :
    position s = 1%Z → data s !! b = Some r →
    in_double_range (units s) = true →
    long_only_step b s
      (Ok tt (set_position 0 (sell_fill (units s) (price r) s))
         [Selling b (units s) (price r)]).

(** The position flag says flat or long. *)
Definition is_flat_or_long (s : Backtest) : Prop :=
  position s = 0%Z ∨ position s = 1%Z.

(** ** Sample objects

    Fresh objects over short series, used to run the statements on
    concrete inputs.  Their prices and returns are small multiples of
    powers of two, so that every window sum is exact and every way of
    computing a rolling mean in doubles gives the same cells. *)
Definition sample_rows : list Bar := rows_of [1; 1; 10; 0.5; 2]%float.
Definition sample : Backtest := init 100 10 one_percent sample_rows.

(** A short and a long ledger at the bar of price 2 of the sample
    series. *)
Definition sample_short : Backtest :=
  set_position (-1) (set_units (-30) (set_amount 160 sample)).
Definition sample_long : Backtest :=
  set_position 1 (set_units 30 (set_amount 40 sample)).


(** ** The properties of the specification, as they are stated *)

Definition closes_a_position (e : Event) : bool :=
  match e with ClosedOut _ n _ => negb (n =? 0)%Z | _ => false end.

Definition count_if (f : Event → bool) (log : list Event) : Z :=
  Z.of_nat (length (List.filter f log)).

(** The count that C1 words: every order, and the close-out only when
    it liquidates a non-zero holding. *)
Definition fills_with_conditional_close_out (log : list Event) : Z :=
  (count_if is_order log + count_if closes_a_position log)%Z.

(** The long-only SMA strategy on a flat series: no signal ever fires. *)
Definition flat_run : Outcome unit :=
  run (LongOnlySMA 1 2) (init 100 0 0 (rows_of [1; 1; 1]%float)).

(** The number that a finite double stands for. *)
Definition exact (x : float) : Q := default 0%Q (float_value x).




(** The ledger after the closing fill that [go_long] (resp. [go_short])
    places when the position is short (resp. long), and the record of
    that fill. *)
Definition after_cover (p : float) (s : Backtest) : Backtest :=
  if (position s =? -1)%Z then buy_fill (- units s) p s else s.
Definition cover_log (bar : nat) (p : float) (s : Backtest) : list Event :=
  if (position s =? -1)%Z then [Buying bar (- units s)%Z p] else [].

Definition after_unwind (p : float) (s : Backtest) : Backtest :=
  if (position s =? 1)%Z then sell_fill (units s) p s else s.
Definition unwind_log (bar : nat) (p : float) (s : Backtest) : list Event :=
  if (position s =? 1)%Z then [Selling bar (units s) p] else [].

(** An intent that names a size: a non-zero unit count or a true
    [amount]. *)
Definition sized (u : option Z) (a : option Budget) : bool :=
  truthy_units u || truthy_amount a.

(** The size of the opening fill of a sized intent at price [p], the
    cash being [cash] when the fill is placed; none when [int] refuses
    the quotient. *)
Definition open_size (u : option Z) (a : option Budget) (cash p : float)
  : option Z :=
  if truthy_units u then order_size u None p
  else order_size None
         (Some (match a with Some (Cash q) => q | _ => cash end)) p.


(** C4 as stated: a flip is two fills and adds two to the trade
    count. *)
Definition flips_in_two_fills (bar : nat) (u : option Z) (a : option Budget)
    (s : Backtest) : Prop :=
  (position s = (-1)%Z →
   ∃ s' e1 e2, BacktestLongShort.go_long bar u a s = Ok tt s' [e1; e2] ∧
               trades s' = (trades s + 2)%Z) ∧
  (position s = 1%Z →
   ∃ s' e1 e2, BacktestLongShort.go_short bar u a s = Ok tt s' [e1; e2] ∧
               trades s' = (trades s + 2)%Z).

(** A short ledger at a bar whose price is zero, and one with a large
    balance at a bar whose price is small. *)
Definition short_at_zero : Backtest :=
  set_position (-1) (set_units (-5) (init 100 0 0 (rows_of [0]%float))).
Definition short_at_a_penny : Backtest :=
  set_position (-1)
    (set_units (-1) (init 0x1p1000 0 0 (rows_of [0x1p-100]%float))).

(** C5 as stated, at the state reached after [k] bars of the loop. *)
Definition long_and_nonnegative (st : Strategy) (s : Backtest) (k : nat)
  : Prop :=
  let s' := state_of (run_upto st k s) in
  is_flat_or_long s' ∧ (0 <= units s')%Z.



(** * Vocabulary of the further properties *)

(** ** Position and holding *)

(** The position flag is one of the three states, and a flat flag goes
    with an empty holding. *)
Definition coherent (s : Backtest) : Prop :=
  (position s = 0%Z ∨ position s = 1%Z ∨ position s = (-1)%Z) ∧
  (position s = 0%Z → units s = 0%Z).

(** ** The ledger and its history *)

(** What a recorded entry does to the object: the update of the method
    that recorded it. *)
Definition apply_entry (e : Event) (s : Backtest) : Backtest :=
  match e with
  | Buying _ n p => buy_fill n p s
  | Selling _ n p => sell_fill n p s
  | ClosedOut _ _ p => closed p s
  end.

(** The entries of a record applied in their order. *)
Definition replay (log : list Event) (s : Backtest) : Backtest :=
  foldl (λ s e, apply_entry e s) s log.

(** The cash, the holding and the trade count. *)
Definition ledger (s : Backtest) : float * Z * Z :=
  (amount s, units s, trades s).

(** The units that a recorded entry adds to the holding. *)
Definition unit_flow (e : Event) : Z :=
  match e with
  | Buying _ n _ => n
  | Selling _ n _ | ClosedOut _ n _ => - n
  end.

Definition total_units (log : list Event) : Z :=
  foldr (λ e acc, unit_flow e + acc)%Z 0%Z log.

(** The costs stay as configured, and the ledger is the one that the
    entries recorded produce. *)
Definition booked : StepRel :=
  λ s s' l, ftc s' = ftc s ∧ ptc s' = ptc s ∧
            ledger s' = ledger (replay l s).

(** The holding moves by the units of the entries recorded. *)
Definition stocked : StepRel :=
  λ s s' l, units s' = (units s + total_units l)%Z.

(** ** The order of the record *)

(** The fills are recorded in the order of their bars; strictly so when
    no bar has two of them. *)
Definition chronological (log : list Event) : Prop :=
  StronglySorted (λ e1 e2, event_bar e1 ≤ event_bar e2) log.

Definition strictly_chronological (log : list Event) : Prop :=
  StronglySorted (λ e1 e2, event_bar e1 < event_bar e2) log.

(** The strategies that never trade twice at a bar: all but the
    long-short SMA and momentum strategies, which flip. *)
Definition one_fill_per_bar (st : Strategy) : bool :=
  match st with
  | LongShortSMA _ _ | LongShortMomentum _ => false
  | _ => true
  end.

(** The number of orders recorded at bar [b]. *)
Definition fills_at (b : nat) (log : list Event) : nat :=
  length (List.filter (λ e, is_order e && (event_bar e =? b)) log).

(** ** A price that never moves *)

(** A frame whose price never moves, so that its returns are zero. *)
Definition flat_frame (c0 : float) (d : list Bar) : Prop :=
  Forall (λ r, price r = c0 ∧ return_ r = 0%float) d.

(** The value of the indicators of [st] on a frame flat at [c0]. *)
Definition flat_level (st : Strategy) (c0 : float) : float :=
  match st with
  | LongOnlyMomentum _ | LongShortMomentum _ => 0
  | _ => c0
  end.

(** The strategies that see no signal on a frame flat at [c0]: all but
    the long-short momentum strategy, whose short signal is [<= 0], and
    the mean-reversion strategies whose threshold puts the price
    outside its own band, [c0 < c0 - threshold] or
    [c0 > c0 + threshold] in doubles. *)
Definition quiet_on_flat (st : Strategy) (c0 : float) : bool :=
  match st with
  | LongShortMomentum _ => false
  | LongOnlyMeanReversion _ thr => negb (c0 <? c0 - thr)%float
  | LongShortMeanReversion _ thr =>
      negb (c0 <? c0 - thr)%float && negb (gtb c0 (c0 + thr))
  | _ => true
  end.

(** A fresh object over a price that stays at 3. *)
Definition level : Backtest :=
  init 100 10 one_percent (rows_of [3; 3; 3; 3]%float).

(** Fresh objects over a rising and over a falling series. *)
Definition uptrend : Backtest :=
  init 100 10 one_percent
    [mkBar 1 0.125; mkBar 2 0.125; mkBar 4 0.125; mkBar 5 0.125].
Definition downtrend : Backtest :=
  init 100 10 one_percent
    [mkBar 5 (-0.125); mkBar 4 (-0.125); mkBar 2 (-0.125);
     mkBar 1 (-0.125)].

(** ** What a run can observe *)

(** Two objects with the same ledger, parameters and frame, and the same
    columns [names]; their other columns may differ. *)
Definition alike (names : list string) (s t : Backtest) : Prop :=
  initial_amount s = initial_amount t ∧ amount s = amount t ∧
  ftc s = ftc t ∧ ptc s = ptc t ∧ units s = units t ∧
  position s = position t ∧ trades s = trades t ∧ data s = data t ∧
  ∀ name, name ∈ names → cols s !! name = cols t !! name.

(** Two outcomes of the same kind, with the same result or exception and
    the same record, on objects that are alike. *)
Definition outcomes_alike (names : list string) {A} (o1 o2 : Outcome A)
  : Prop :=
  match o1, o2 with
  | Ok a s l, Ok a' t l' => a = a' ∧ l = l' ∧ alike names s t
  | Raise e s l, Raise e' t l' => e = e' ∧ l = l' ∧ alike names s t
  | _, _ => False
  end.

(** A computation that sees no more of the object than [alike] keeps. *)
Definition blind (names : list string) {A} (m : M A) : Prop :=
  ∀ s t, alike names s t → outcomes_alike names (m s) (m t).

(** What a strategy run takes from the object it is started on. *)
Definition same_inputs (s t : Backtest) : Prop :=
  initial_amount s = initial_amount t ∧ ftc s = ftc t ∧ ptc s = ptc t ∧
  data s = data t ∧ units s = units t.

(** ** Round trips *)

(** The entry [e2] of the record takes back what the order [e1] put on:
    it sells the units that [e1] bought or buys the units that [e1]
    sold, or it is the close-out of the holding that [e1] left. *)
Definition closes (e1 e2 : Event) : bool :=
  match e1, e2 with
  | Buying _ n _, Selling _ n' _ | Selling _ n _, Buying _ n' _
  | Buying _ n _, ClosedOut _ n' _ => (n' =? n)%Z
  | Selling _ n _, ClosedOut _ n' _ => (n' =? - n)%Z
  | _, _ => false
  end.

(** A record made of round trips: every order that opens a position is
    followed by the entry that closes it, the last one possibly still
    open; a close-out ends the record, and closes out nothing when no
    position is open. *)
Fixpoint round_trips (log : list Event) : bool :=
  match log with
  | [] => true
  | [e] => match e with ClosedOut _ n _ => (n =? 0)%Z | _ => true end
  | e1 :: e2 :: rest =>
      closes e1 e2 &&
      match e2 with
      | ClosedOut _ _ _ => match rest with [] => true | _ => false end
      | _ => round_trips rest
      end
  end.

(** A record of completed round trips. *)
Inductive settled : list Event → Prop :=
| settled_nil : settled []
| settled_cons e1 e2 l :
    is_order e1 = true → is_order e2 = true → closes e1 e2 = true →
    settled l → settled (e1 :: e2 :: l).

(** What the object holds after the record [l]: nothing when all round
    trips are completed, and otherwise the units of the open order, with
    the position flag on its side. *)
Definition holding (l : list Event) (s : Backtest) : Prop :=
  (settled l ∧ position s = 0%Z ∧ units s = 0%Z) ∨
  (∃ l0 b n p, l = l0 ++ [Buying b n p] ∧ settled l0 ∧
               position s = 1%Z ∧ units s = n) ∨
  (∃ l0 b n p, l = l0 ++ [Selling b n p] ∧ settled l0 ∧
               position s = (-1)%Z ∧ units s = (- n)%Z).

(** What a bar can do to the position: nothing, open one, close one, or
    close one and open the opposite one. *)
Inductive trade_step (b : nat) (s s' : Backtest) : list Event → Prop :=
| ts_idle :
    position s' = position s → units s' = units s → trade_step b s s' []
| ts_long n p :
    position s = 0%Z → position s' = 1%Z → units s' = (units s + n)%Z →
    trade_step b s s' [Buying b n p]
| ts_short n p :
    position s = 0%Z → position s' = (-1)%Z → units s' = (units s - n)%Z →
    trade_step b s s' [Selling b n p]
| ts_exit_long p :
    position s = 1%Z → position s' = 0%Z → units s' = 0%Z →
    trade_step b s s' [Selling b (units s) p]
| ts_exit_short p :
    position s = (-1)%Z → position s' = 0%Z → units s' = 0%Z →
    trade_step b s s' [Buying b (- units s) p]
| ts_flip_short n p :
    position s = 1%Z → position s' = (-1)%Z → units s' = (- n)%Z →
    trade_step b s s' [Selling b (units s) p; Selling b n p]
| ts_flip_long n p :
    position s = (-1)%Z → position s' = 1%Z → units s' = n →
    trade_step b s s' [Buying b (- units s) p; Buying b n p].

(** What a bar that raises has recorded: nothing, or the closing fill of
    a flip whose opening order failed. *)
Inductive fault_step (b : nat) (s : Backtest) : list Event → Prop :=
| fs_none : fault_step b s []
| fs_long p : position s = 1%Z → fault_step b s [Selling b (units s) p]
| fs_short p :
    position s = (-1)%Z → fault_step b s [Buying b (- units s) p].

(** An object without capital, prepared for a mean reversion over two
    days on the sample series. *)
Definition penniless : Backtest :=
  set_col "SMA" (rolling_mean 2 (price <$> sample_rows))
    (init 0 10 one_percent sample_rows).

End Family.

(** * Properties *)

(** ** Comparisons and conversions of doubles *)

Lemma SFcompare_swap x y :
  SFcompare y x = option_map CompOpp (SFcompare x y).
Proof.
  destruct x as [s1|s1| |s1 m1 e1], y as [s2|s2| |s2 m2 e2]; simpl;
    try done; try (by destruct s1); try (by destruct s2);
    try (by destruct s1, s2).
  rewrite (Z.compare_antisym e2 e1).
  pose proof (Pos.compare_cont_antisym m2 m1 Eq) as Hm. simpl in Hm.
  destruct s1, s2; simpl; try done;
    destruct (e2 ?= e1)%Z; simpl; try done; f_equal;
    change (PosDef.Pos.compare_cont Eq m1 m2)
      with (Pos.compare_cont Eq m1 m2);
    rewrite <- Hm; by destruct (Pos.compare_cont Eq m2 m1).
Qed.

Lemma SFcompare_refl x : SFcompare x x = Some Eq ∨ SFcompare x x = None.
Proof.
  destruct x as [s|s| |s m e]; simpl; auto.
  - by destruct s; left.
  - rewrite Z.compare_refl. rewrite Pos.compare_cont_refl.
    by destruct s; left.
Qed.

Lemma ltb_irrefl x : (x <? x)%float = false.
Proof.
  rewrite FloatAxioms.ltb_spec. unfold SFltb.
  by destruct (SFcompare_refl (Prim2SF x)) as [-> | ->].
Qed.

Lemma ltb_asym x y : (x <? y)%float = true → (y <? x)%float = false.
Proof.
  rewrite !FloatAxioms.ltb_spec. unfold SFltb. rewrite (SFcompare_swap (Prim2SF x)).
  by destruct (SFcompare (Prim2SF x) (Prim2SF y)) as [[]|].
Qed.

Lemma ltb_not_leb x y : (x <? y)%float = true → (y <=? x)%float = false.
Proof.
  rewrite FloatAxioms.ltb_spec, FloatAxioms.leb_spec. unfold SFltb, SFleb.
  rewrite (SFcompare_swap (Prim2SF x)).
  by destruct (SFcompare (Prim2SF x) (Prim2SF y)) as [[]|].
Qed.

Lemma gtb_not_ltb x y : gtb x y = true → (x <? y)%float = false.
Proof. apply ltb_asym. Qed.

Lemma gtb_not_leb x y : gtb x y = true → (x <=? y)%float = false.
Proof. apply ltb_not_leb. Qed.

Lemma ltb_not_geb x y : (x <? y)%float = true → geb x y = false.
Proof. apply ltb_not_leb. Qed.


Lemma is_nan_Prim2SF x : is_nan x = true ↔ Prim2SF x = S754_nan.
Proof.
  unfold is_nan. rewrite FloatAxioms.eqb_spec. unfold SFeqb.
  destruct (SFcompare_refl (Prim2SF x)) as [E | E]; rewrite E; simpl.
  - split; [done |]. intros H. rewrite H in E. done.
  - split; [| done]. intros _.
    destruct (Prim2SF x) as [s|s| |s m e]; try done;
      simpl in E; rewrite ?Z.compare_refl, ?Pos.compare_cont_refl in E;
      by destruct s.
Qed.

Lemma Prim2SF_inj x y : Prim2SF x = Prim2SF y → x = y.
Proof. intros H. by rewrite <- (SF2Prim_Prim2SF x), H, SF2Prim_Prim2SF. Qed.

Lemma is_nan_eq x : is_nan x = true → x = nan.
Proof.
  rewrite is_nan_Prim2SF. intros H. apply Prim2SF_inj. by rewrite H.
Qed.

(** A double equals itself under [==] unless it is NaN. *)
Lemma eqb_refl x : is_nan x = false → (x =? x)%float = true.
Proof. unfold is_nan. by destruct (x =? x)%float. Qed.

(** The sign of a positive and of a non-negative double. *)
Lemma ltb_zero_pos p :
  (0 <? p)%float = true →
  Prim2SF p = S754_infinity false ∨ ∃ m e, Prim2SF p = S754_finite false m e.
Proof.
  rewrite FloatAxioms.ltb_spec. unfold SFltb. change (Prim2SF 0) with (S754_zero false).
  destruct (Prim2SF p) as [s|s| |s m e]; simpl; try done.
  - destruct s; [done | by left].
  - destruct s; [done | right; eauto].
Qed.


Lemma leb_zero_nonneg a :
  (0 <=? a)%float = true →
  (∃ s, Prim2SF a = S754_zero s) ∨ Prim2SF a = S754_infinity false ∨
  ∃ m e, Prim2SF a = S754_finite false m e.
Proof.
  rewrite FloatAxioms.leb_spec. unfold SFleb. change (Prim2SF 0) with (S754_zero false).
  destruct (Prim2SF a) as [s|s| |s m e]; simpl; try done.
  - left; eauto.
  - destruct s; [done | by right; left].
  - destruct s; [done | right; right; eauto].
Qed.

(** The rounding that ends a division keeps the sign it is given. *)
Lemma binary_round_aux_sign sx mx ex lx :
  match binary_round_aux prec emax sx mx ex lx with
  | S754_zero s | S754_infinity s | S754_finite s _ _ => s = sx
  | S754_nan => True
  end.
Proof.
  unfold binary_round_aux.
  destruct (shr_fexp prec emax mx ex lx) as [mrs' e'].
  destruct (shr_fexp _ _ _ _ _) as [mrs'' e''].
  destruct (shr_m mrs''); try done.
  by destruct (_ <=? _)%Z.
Qed.

Lemma SFdiv_finite_sign sx mx ex sy my ey :
  match SFdiv prec emax (S754_finite sx mx ex) (S754_finite sy my ey) with
  | S754_zero s | S754_infinity s | S754_finite s _ _ => s = xorb sx sy
  | S754_nan => True
  end.
Proof.
  unfold SFdiv.
  destruct (SFdiv_core_binary _ _ _ _ _ _) as [[mz ez] lz].
  apply binary_round_aux_sign.
Qed.

(** The integer part of a finite value has the sign of the value. *)
Lemma Qtrunc_nonneg q : (0 <= q)%Q → (0 <= Qtrunc q)%Z.
Proof.
  unfold Qtrunc, Qle. destruct q as [n d]. simpl. intros H.
  apply Z.quot_pos; lia.
Qed.


Lemma Qpower_2_pos e : (0 < 2 ^ e)%Q.
Proof. apply Qpower_0_lt. done. Qed.

Lemma finite_value_sign s m e :
  let q := (inject_Z (cond_Zopp s (Z.pos m)) * 2 ^ e)%Q in
  if s then (q <= 0)%Q else (0 <= q)%Q.
Proof.
  intros q. subst q. pose proof (Qpower_2_pos e) as Hp.
  destruct s; simpl.
  - assert (inject_Z (Z.neg m) <= 0)%Q by (unfold Qle; simpl; lia).
    apply Qle_trans with (0 * 2 ^ e)%Q; [| by rewrite Qmult_0_l].
    apply Qmult_le_compat_r; [done | by apply Qlt_le_weak].
  - apply Qmult_le_0_compat; [unfold Qle; simpl; lia | by apply Qlt_le_weak].
Qed.




(** The sign of the value of a quotient. *)
Lemma SFdiv_value_sign x y v :
  match SFdiv prec emax x y with
  | S754_zero _ => Some 0%Q
  | S754_finite s m e => Some (inject_Z (cond_Zopp s (Z.pos m)) * 2 ^ e)%Q
  | _ => None
  end = Some v →
  match x, y with
  | S754_zero _, _ => (v == 0)%Q
  | (S754_finite sx _ _ | S754_infinity sx),
    (S754_finite sy _ _ | S754_infinity sy) =>
      if xorb sx sy then (v <= 0)%Q else (0 <= v)%Q
  | _, _ => True
  end.
Proof.
  destruct x as [sx|sx| |sx mx ex], y as [sy|sy| |sy my ey]; try done;
    try (simpl; intros [= <-]; done);
    try (simpl; intros [= <-]; by destruct (xorb sx sy)).
  pose proof (SFdiv_finite_sign sx mx ex sy my ey) as Hs.
  destruct (SFdiv prec emax _ _) as [s|s| |s m e]; try done.
  - intros [= <-]. by destruct (xorb sx sy).
  - intros [= <-]. subst s. apply finite_value_sign.
Qed.

Lemma float_value_div a p v :
  float_value (a / p) = Some v →
  match Prim2SF a, Prim2SF p with
  | S754_zero _, _ => (v == 0)%Q
  | (S754_finite sx _ _ | S754_infinity sx),
    (S754_finite sy _ _ | S754_infinity sy) =>
      if xorb sx sy then (v <= 0)%Q else (0 <= v)%Q
  | _, _ => True
  end.
Proof.
  unfold float_value. rewrite div_spec. apply SFdiv_value_sign.
Qed.

Lemma float_value_div_nonneg a p v :
  (0 <=? a)%float = true → (0 <? p)%float = true →
  float_value (a / p) = Some v → (0 <= v)%Q.
Proof.
  intros Ha Hp Hv. apply float_value_div in Hv.
  destruct (leb_zero_nonneg a Ha) as [[s Ea] | [Ea | (m & e & Ea)]];
    destruct (ltb_zero_pos p Hp) as [Ep | (m' & e' & Ep)];
    rewrite Ea in Hv; rewrite ?Ep in Hv; simpl in Hv; try done;
    by rewrite Hv.
Qed.



Lemma int_of_float_inr x n :
  int_of_float x = inr n → ∃ v, float_value x = Some v ∧ n = Qtrunc v.
Proof.
  unfold int_of_float, float_value.
  destruct (Prim2SF x); intros [= <-]; eauto.
Qed.

(** [int] of the quotient of a non-negative budget and a positive
    price is not negative; at a negative price it is not positive. *)
Lemma int_of_float_div_pos a p n :
  (0 <=? a)%float = true → (0 <? p)%float = true →
  int_of_float (a / p) = inr n → (0 <= n)%Z.
Proof.
  intros Ha Hp (v & Hv & ->)%int_of_float_inr.
  apply Qtrunc_nonneg. by apply (float_value_div_nonneg a p).
Qed.


Lemma digits2_pos_bound m : (Z.pos m < 2 ^ Z.pos (digits2_pos m))%Z.
Proof.
  induction m as [m IH | m IH |]; simpl digits2_pos.
  - rewrite Pos2Z.inj_succ, Z.pow_succ_r by lia. lia.
  - rewrite Pos2Z.inj_succ, Z.pow_succ_r by lia. lia.
  - reflexivity.
Qed.

(** The mantissa and the exponent of a finite double. *)
Lemma finite_double_bounds x s m e :
  Prim2SF x = S754_finite s m e → (Z.pos m < 2 ^ 53)%Z ∧ (e <= 971)%Z.
Proof.
  intros Hx. pose proof (Prim2SF_valid x) as Hv. rewrite Hx in Hv.
  unfold SpecFloat.valid_binary, bounded, canonical_mantissa, fexp in Hv.
  apply andb_true_iff in Hv as [Hc He].
  apply Z.eqb_eq in Hc. apply Z.leb_le in He.
  change (emax - prec)%Z with 971%Z in He. split; [|done].
  pose proof (digits2_pos_bound m) as Hm.
  assert (Z.pos (digits2_pos m) <= 53)%Z as Hd.
  { change prec with 53%Z in Hc.
    pose proof (Z.le_max_l (Z.pos (digits2_pos m) + e - 53)
                  (SpecFloat.emin 53 emax)). 
    change IntDef.Z.max with Z.max in Hc. lia. }
  eapply Z.lt_le_trans; [exact Hm|].
  apply Z.pow_le_mono_r; lia.
Qed.

Lemma Qtrunc_abs_le q b :
  (- inject_Z b <= q)%Q → (q <= inject_Z b)%Q → (Z.abs (Qtrunc q) <= b)%Z.
Proof.
  intros Hlo Hhi. unfold Qtrunc. destruct q as [n d]. simpl.
  unfold Qle in *. simpl in *.
  assert (- b * Z.pos d <= n <= b * Z.pos d)%Z as [H1 H2] by lia.
  clear Hlo Hhi.
  destruct (Z.le_ge_cases 0 n) as [Hn | Hn].
  - rewrite Z.abs_eq by (apply Z.quot_pos; lia).
    rewrite Z.quot_div_nonneg by lia.
    apply Z.div_le_upper_bound; lia.
  - replace n with (- (- n))%Z by lia. rewrite Z.quot_opp_l by lia.
    rewrite Z.abs_opp, Z.abs_eq by (apply Z.quot_pos; lia).
    rewrite Z.quot_div_nonneg by lia.
    apply Z.div_le_upper_bound; lia.
Qed.

(** What [int] returns for a double is within the range of doubles. *)
Lemma int_of_float_in_range x n :
  int_of_float x = inr n → in_double_range n = true.
Proof.
  unfold int_of_float, in_double_range.
  destruct (Prim2SF x) as [s|s| |s m e] eqn:Hx; try done.
  - intros [= <-]. reflexivity.
  - intros [= <-]. apply Z.ltb_lt.
    destruct (finite_double_bounds x s m e Hx) as [Hm He].
    apply Z.le_lt_trans with (2 ^ 1024 - 2 ^ 971)%Z; [|reflexivity].
    assert (0 < 2 ^ e <= 2 ^ 971)%Q as [Hpos Hpow].
    { split; [by apply Qpower_0_lt|].
      apply Qpower_le_compat_l; [done|]. unfold Qle. simpl. lia. }
    assert (inject_Z (Z.pos m) * 2 ^ e <= inject_Z (2 ^ 1024 - 2 ^ 971))%Q
      as Hbound.
    { apply Qle_trans with (inject_Z (2 ^ 53 - 1) * 2 ^ 971)%Q.
      - apply Qle_trans with (inject_Z (Z.pos m) * 2 ^ 971)%Q.
        + rewrite !(Qmult_comm (inject_Z (Z.pos m))).
          apply Qmult_le_compat_r; [done|]. unfold Qle; simpl; lia.
        + apply Qmult_le_compat_r; [|by vm_compute].
          rewrite <- Zle_Qle. lia.
      - by vm_compute. }
    set (v := (inject_Z (Z.pos m) * 2 ^ e)%Q) in *.
    assert (0 <= v)%Q as Hv0.
    { apply Qmult_le_0_compat; [unfold Qle; simpl; lia|lra]. }
    assert (inject_Z (cond_Zopp s (Z.pos m)) * 2 ^ e
            == (if s then - v else v))%Q as Heq.
    { destruct s; simpl cond_Zopp; [|reflexivity].
      change (Z.neg m) with (- Z.pos m)%Z. rewrite inject_Z_opp.
      unfold v. ring. }
    apply Qtrunc_abs_le; rewrite Heq; destruct s; lra.
Qed.


(** What [int] refuses is an infinity or a NaN. *)
Lemma int_of_float_inl x e :
  int_of_float x = inl e → e = OverflowError ∨ e = ValueError.
Proof.
  unfold int_of_float.
  destruct (Prim2SF x); intros [= <-]; auto.
Qed.

(** The two signals of a bar exclude each other. *)
Lemma gtb_ltb_excl x y : gtb x y = true → (x <? y)%float = true → False.
Proof. intros H%gtb_not_ltb. congruence. Qed.

Lemma gtb_leb_excl x y : gtb x y = true → (x <=? y)%float = true → False.
Proof. intros H%gtb_not_leb. congruence. Qed.

Lemma ltb_ltb_excl x y :
  (y <? x)%float = true → (x <? y)%float = true → False.
Proof. apply gtb_ltb_excl. Qed.

Lemma ltb_leb_excl x y :
  (y <? x)%float = true → (x <=? y)%float = true → False.
Proof. apply gtb_leb_excl. Qed.

(** NaN compares false with everything and absorbs the additions. *)
Lemma ltb_nan_l x : (nan <? x)%float = false.
Proof.
  rewrite FloatAxioms.ltb_spec. change (Prim2SF nan) with S754_nan. done.
Qed.

Lemma ltb_nan_r x : (x <? nan)%float = false.
Proof.
  rewrite FloatAxioms.ltb_spec. change (Prim2SF nan) with S754_nan.
  unfold SFltb. by destruct (Prim2SF x).
Qed.

Lemma leb_nan_l x : (nan <=? x)%float = false.
Proof.
  rewrite FloatAxioms.leb_spec. change (Prim2SF nan) with S754_nan. done.
Qed.

Lemma leb_nan_r x : (x <=? nan)%float = false.
Proof.
  rewrite FloatAxioms.leb_spec. change (Prim2SF nan) with S754_nan.
  unfold SFleb. by destruct (Prim2SF x).
Qed.

Lemma sub_nan_l t : (nan - t)%float = nan.
Proof.
  apply Prim2SF_inj. rewrite sub_spec. change (Prim2SF nan) with S754_nan.
  done.
Qed.

Lemma add_nan_l t : (nan + t)%float = nan.
Proof.
  apply Prim2SF_inj. rewrite add_spec. change (Prim2SF nan) with S754_nan.
  done.
Qed.

(** The conversions on a few doubles: the quotient is rounded before
    [int] truncates it, an infinite quotient is refused also at a price
    that is not zero, and the ints that Python converts to a double are
    those below [double_range]. *)
Example conversions_of_doubles :
  int_of_float (1e17 / 3) = inr 33333333333333332%Z ∧
  int_of_float ((3 + 0x1p-51) / (1 + 0x1p-52)) = inr 3%Z ∧
  int_of_float (-7 / 2) = inr (-3)%Z ∧
  int_of_float (0x1p1000 / 0x1p-100) = inl OverflowError ∧
  int_of_float (0 / 0) = inl ValueError ∧
  float_of_int (2 ^ 53 + 1) = 0x1p53%float ∧
  float_of_int (double_range - 1) = 0x1.fffffffffffffp1023%float ∧
  float_of_int double_range = infinity.
Proof. by vm_compute. Qed.

(** ** A rolling mean that meets the interface *)

Lemma same_value_refl c : same_value c c = true.
Proof.
  unfold same_value. destruct (is_nan c) eqn:E; [by rewrite orb_true_r |].
  by rewrite eqb_refl.
Qed.

Lemma window_means_length w xs : length (window_means w xs) = length xs.
Proof. unfold window_means. by rewrite length_fmap, length_seq. Qed.

Lemma window_means_lookup w xs i :
  i < length xs → window_means w xs !! i = Some (window_mean w xs i).
Proof.
  intros Hi. unfold window_means. rewrite list_lookup_fmap.
  by rewrite lookup_seq_lt.
Qed.

Lemma window_means_warm_up w xs i v :
  ¬ (1 ≤ w ≤ S i) → window_means w xs !! i = Some v → is_nan v = true.
Proof.
  intros Hw Hv.
  assert (i < length xs) as Hi.
  { apply lookup_lt_Some in Hv. by rewrite window_means_length in Hv. }
  rewrite window_means_lookup in Hv by done. injection Hv as <-.
  unfold window_mean.
  destruct (1 <=? w) eqn:E1; [| done].
  destruct (w <=? S i) eqn:E2; [| done].
  apply Nat.leb_le in E1, E2. lia.
Qed.

Lemma window_means_level w xs i c :
  1 ≤ w ≤ S i → i < length xs →
  (∀ j, S i - w ≤ j ≤ i → xs !! j = Some c) →
  window_means w xs !! i = Some c.
Proof.
  intros [H1 H2] Hi Hc. rewrite window_means_lookup by done. f_equal.
  unfold window_mean.
  destruct (Nat.leb_spec 1 w); [| lia].
  destruct (Nat.leb_spec w (S i)); [| lia]. simpl.
  assert (take w (drop (S i - w) xs) = replicate w c) as ->.
  { apply list_eq. intros k. destruct (decide (k < w)) as [Hk | Hk].
    - rewrite lookup_take_lt, lookup_drop by done.
      rewrite Hc by lia. symmetry. by apply lookup_replicate_2.
    - rewrite lookup_take_ge by lia. symmetry.
      apply lookup_ge_None_2. rewrite length_replicate. lia. }
  destruct w as [| w]; [lia |].
  rewrite replicate_S_end, last_snoc.
  rewrite <- replicate_S_end.
  assert (forallb (λ x, same_value x c) (replicate (S w) c) = true) as ->;
    [| done].
  apply forallb_forall. intros x Hx. apply list_elem_of_In in Hx.
  apply elem_of_replicate in Hx as [-> _]. apply same_value_refl.
Qed.

(** The rolling mean used to run the properties on concrete frames. *)
Definition window_rolling : Rolling :=
  {| rolling_mean := window_means;
     rolling_mean_length := window_means_length;
     rolling_mean_warm_up := window_means_warm_up;
     rolling_mean_level := window_means_level |}.

(** ** Outcomes of monadic computations *)

Lemma bind_Ok_inv {A B} (m : M A) (k : A → M B) s b s' l :
  bind m k s = Ok b s' l →
  ∃ a s1 l1 l2, m s = Ok a s1 l1 ∧ k a s1 = Ok b s' l2 ∧ l = l1 ++ l2.
Proof.
  unfold bind. destruct (m s) as [a s1 l1|e s1 l1]; [|discriminate].
  destruct (k a s1) as [b' s2 l2|e s2 l2] eqn:Hk; [|discriminate].
  intros [= -> -> <-]. by exists a, s1, l1, l2.
Qed.

Lemma bind_Raise_inv {A B} (m : M A) (k : A → M B) s e s' l :
  bind m k s = Raise e s' l →
  m s = Raise e s' l ∨
  ∃ a s1 l1 l2, m s = Ok a s1 l1 ∧ k a s1 = Raise e s' l2 ∧ l = l1 ++ l2.
Proof.
  unfold bind. destruct (m s) as [a s1 l1|e1 s1 l1]; [|intros [= -> -> ->]; by left].
  destruct (k a s1) as [b' s2 l2|e2 s2 l2] eqn:Hk; [discriminate|].
  intros [= -> -> <-]. right. by exists a, s1, l1, l2.
Qed.

Lemma bind_Ok {A B} (m : M A) (k : A → M B) s a s1 l1 :
  m s = Ok a s1 l1 →
  bind m k s =
    match k a s1 with
    | Ok b s2 l2 => Ok b s2 (l1 ++ l2)
    | Raise e s2 l2 => Raise e s2 (l1 ++ l2)
    end.
Proof. unfold bind. by intros ->. Qed.

Lemma bind_Raise {A B} (m : M A) (k : A → M B) s e s1 l1 :
  m s = Raise e s1 l1 → bind m k s = Raise e s1 l1.
Proof. unfold bind. by intros ->. Qed.

Lemma bind_gets {A B} (f : Backtest → A) (k : A → M B) s :
  bind (gets f) k s = k (f s) s.
Proof. unfold bind, gets. by destruct (k (f s) s). Qed.

Lemma bind_quiet {A B} (m : M A) (k : A → M B) s a s1 :
  m s = Ok a s1 [] → bind m k s = k a s1.
Proof. unfold bind. intros ->. by destruct (k a s1). Qed.

Lemma run_phases {pandas : Rolling} st s :
  run st s =
    (prepare st;;
     len <- gets (λ s, length (data s));;
     bar <- for_each (range (loop_window st) len) (bar_step st) None;;
     close_out_after bar) s.
Proof.
  destruct st; cbn [run prepare bar_step loop_window];
    unfold BacktestLongOnly.run_sma_strategy,
      BacktestLongOnly.run_momentum_strategy,
      BacktestLongOnly.run_mean_reversion_strategy,
      BacktestLongShort.run_sma_strategy,
      BacktestLongShort.run_momentum_strategy,
      BacktestLongShort.run_mean_reversion_strategy;
    unfold reset, store_rolling, gets, modify, bind; simpl;
    (destruct (for_each _ _ _ _) as [b s1 l1|]; [|done]);
    by destruct (close_out_after b s1).
Qed.

(** ** Outcomes of the order methods *)

Lemma get_date_price_Some bar s r :
  data s !! bar = Some r → get_date_price bar s = Ok (price r) s [].
Proof. unfold get_date_price, bind, gets. intros ->. done. Qed.

Lemma get_date_price_None bar s :
  data s !! bar = None → get_date_price bar s = Raise IndexError s [].
Proof. unfold get_date_price, bind, gets. intros ->. done. Qed.

Lemma place_buy_order_units bar n a s r :
  data s !! bar = Some r → in_double_range n = true →
  place_buy_order bar (Some n) a s
  = Ok tt (buy_fill n (price r) s) [Buying bar n (price r)].
Proof.
  intros Hr Hn.
  unfold place_buy_order, to_double, get_date_price, bind, gets, ret.
  rewrite Hr. cbv beta iota. by rewrite Hn.
Qed.

Lemma place_sell_order_units bar n a s r :
  data s !! bar = Some r → in_double_range n = true →
  place_sell_order bar (Some n) a s
  = Ok tt (sell_fill n (price r) s) [Selling bar n (price r)].
Proof.
  intros Hr Hn.
  unfold place_sell_order, to_double, get_date_price, bind, gets, ret.
  rewrite Hr. cbv beta iota. by rewrite Hn.
Qed.

(** An order for more units than a double can count raises before the
    ledger is touched. *)
Lemma place_buy_order_too_large bar n a s r :
  data s !! bar = Some r → in_double_range n = false →
  place_buy_order bar (Some n) a s = Raise OverflowError s [].
Proof.
  intros Hr Hn.
  unfold place_buy_order, to_double, get_date_price, bind, gets, ret.
  rewrite Hr. cbv beta iota. by rewrite Hn.
Qed.

Lemma place_sell_order_too_large bar n a s r :
  data s !! bar = Some r → in_double_range n = false →
  place_sell_order bar (Some n) a s = Raise OverflowError s [].
Proof.
  intros Hr Hn.
  unfold place_sell_order, to_double, get_date_price, bind, gets, ret.
  rewrite Hr. cbv beta iota. by rewrite Hn.
Qed.

Lemma place_buy_order_budget bar a s r n :
  data s !! bar = Some r → int_of_float (a / price r) = inr n →
  place_buy_order bar None (Some a) s
  = Ok tt (buy_fill n (price r) s) [Buying bar n (price r)].
Proof.
  intros Hr Hn.
  unfold place_buy_order, to_double, int_quotient, get_date_price, bind,
    gets, ret.
  rewrite Hr. cbv beta iota. rewrite Hn. cbv beta iota.
  by rewrite (int_of_float_in_range _ _ Hn).
Qed.

Lemma place_sell_order_budget bar a s r n :
  data s !! bar = Some r → int_of_float (a / price r) = inr n →
  place_sell_order bar None (Some a) s
  = Ok tt (sell_fill n (price r) s) [Selling bar n (price r)].
Proof.
  intros Hr Hn.
  unfold place_sell_order, to_double, int_quotient, get_date_price, bind,
    gets, ret.
  rewrite Hr. cbv beta iota. rewrite Hn. cbv beta iota.
  by rewrite (int_of_float_in_range _ _ Hn).
Qed.

(** A budget that [int] refuses: the order raises what [int] raises and
    leaves the object as it was. *)
Lemma place_buy_order_refused bar a s r e :
  data s !! bar = Some r → int_of_float (a / price r) = inl e →
  place_buy_order bar None (Some a) s = Raise e s [].
Proof.
  intros Hr Hn. unfold place_buy_order.
  rewrite (bind_Ok _ _ _ _ _ _ (get_date_price_Some _ _ _ Hr)).
  unfold int_quotient. rewrite Hn. done.
Qed.

Lemma place_sell_order_refused bar a s r e :
  data s !! bar = Some r → int_of_float (a / price r) = inl e →
  place_sell_order bar None (Some a) s = Raise e s [].
Proof.
  intros Hr Hn. unfold place_sell_order.
  rewrite (bind_Ok _ _ _ _ _ _ (get_date_price_Some _ _ _ Hr)).
  unfold int_quotient. rewrite Hn. done.
Qed.

(** An order either applies one fill or raises and leaves the object
    as it was. *)
Lemma place_buy_order_outcome bar u a s :
  (∃ r n, data s !! bar = Some r ∧ order_size u a (price r) = Some n ∧
     place_buy_order bar u a s
     = Ok tt (buy_fill n (price r) s) [Buying bar n (price r)])
  ∨ (∃ e, place_buy_order bar u a s = Raise e s []).
Proof.
  destruct (data s !! bar) as [r|] eqn:Hr.
  - destruct u as [n|].
    + destruct (in_double_range n) eqn:Hn.
      * left. exists r, n. simpl. rewrite Hn.
        by rewrite (place_buy_order_units _ _ _ _ _ Hr Hn).
      * right. exists OverflowError.
        by apply (place_buy_order_too_large _ _ _ _ r).
    + destruct a as [a|].
      * destruct (int_of_float (a / price r)) as [e | n] eqn:Hn.
        -- right. exists e. by apply (place_buy_order_refused _ _ _ r).
        -- left. exists r, n. simpl. rewrite Hn.
           by rewrite (place_buy_order_budget _ _ _ _ _ Hr Hn).
      * right. exists TypeError. unfold place_buy_order.
        by rewrite (bind_Ok _ _ _ _ _ _ (get_date_price_Some _ _ _ Hr)).
  - right. exists IndexError. unfold place_buy_order.
    by rewrite (bind_Raise _ _ _ _ _ _ (get_date_price_None _ _ Hr)).
Qed.

Lemma place_sell_order_outcome bar u a s :
  (∃ r n, data s !! bar = Some r ∧ order_size u a (price r) = Some n ∧
     place_sell_order bar u a s
     = Ok tt (sell_fill n (price r) s) [Selling bar n (price r)])
  ∨ (∃ e, place_sell_order bar u a s = Raise e s []).
Proof.
  destruct (data s !! bar) as [r|] eqn:Hr.
  - destruct u as [n|].
    + destruct (in_double_range n) eqn:Hn.
      * left. exists r, n. simpl. rewrite Hn.
        by rewrite (place_sell_order_units _ _ _ _ _ Hr Hn).
      * right. exists OverflowError.
        by apply (place_sell_order_too_large _ _ _ _ r).
    + destruct a as [a|].
      * destruct (int_of_float (a / price r)) as [e | n] eqn:Hn.
        -- right. exists e. by apply (place_sell_order_refused _ _ _ r).
        -- left. exists r, n. simpl. rewrite Hn.
           by rewrite (place_sell_order_budget _ _ _ _ _ Hr Hn).
      * right. exists TypeError. unfold place_sell_order.
        by rewrite (bind_Ok _ _ _ _ _ _ (get_date_price_Some _ _ _ Hr)).
  - right. exists IndexError. unfold place_sell_order.
    by rewrite (bind_Raise _ _ _ _ _ _ (get_date_price_None _ _ Hr)).
Qed.

Lemma close_out_Some bar s r :
  data s !! bar = Some r → in_double_range (units s) = true →
  close_out bar s
  = Ok tt (closed (price r) s) [ClosedOut bar (units s) (price r)].
Proof.
  intros Hr Hu. unfold close_out, to_double, get_date_price, bind, gets, ret.
  rewrite Hr. cbv beta iota. by rewrite Hu.
Qed.

(** A holding that no double can count is not closed out. *)
Lemma close_out_too_large bar s r :
  data s !! bar = Some r → in_double_range (units s) = false →
  close_out bar s = Raise OverflowError s [].
Proof.
  intros Hr Hu. unfold close_out, to_double, get_date_price, bind, gets, ret.
  rewrite Hr. cbv beta iota. by rewrite Hu.
Qed.

Lemma close_out_None bar s :
  data s !! bar = None → close_out bar s = Raise IndexError s [].
Proof.
  intros Hr. unfold close_out.
  by rewrite (bind_Raise _ _ _ _ _ _ (get_date_price_None _ _ Hr)).
Qed.

(** [close_out] either books the holding or raises and leaves the
    object as it was. *)
Lemma close_out_outcome bar s :
  (∃ r, data s !! bar = Some r ∧ in_double_range (units s) = true ∧
        close_out bar s
        = Ok tt (closed (price r) s) [ClosedOut bar (units s) (price r)])
  ∨ (∃ e, close_out bar s = Raise e s [] ∧
          (e = IndexError ∧ data s !! bar = None ∨
           e = OverflowError ∧ in_double_range (units s) = false)).
Proof.
  destruct (data s !! bar) as [r|] eqn:Hr.
  - destruct (in_double_range (units s)) eqn:Hu.
    + left. exists r. by rewrite (close_out_Some _ _ _ Hr Hu).
    + right. exists OverflowError. rewrite (close_out_too_large _ _ _ Hr Hu).
      auto.
  - right. exists IndexError. rewrite (close_out_None _ _ Hr). auto.
Qed.

Lemma state_of_bind {A B} (m : M A) (k : A → M B) s :
  state_of (bind m k s) =
    match m s with
    | Ok a s1 _ => state_of (k a s1)
    | Raise _ s1 _ => s1
    end.
Proof.
  unfold bind. destruct (m s) as [a s1 l1|]; [|done]. by destruct (k a s1).
Qed.

Lemma log_of_bind {A B} (m : M A) (k : A → M B) s :
  log_of (bind m k s) =
    match m s with
    | Ok a s1 l1 => l1 ++ log_of (k a s1)
    | Raise _ _ l1 => l1
    end.
Proof.
  unfold bind. destruct (m s) as [a s1 l1|]; [|done]. by destruct (k a s1).
Qed.

(** Reading a cell changes nothing. *)
Lemma cell_outcome name bar s :
  (∃ v, cell name bar s = Ok v s []) ∨ (∃ e, cell name bar s = Raise e s []).
Proof.
  unfold cell, bind, gets; simpl.
  destruct (cols s !! name) as [c|]; [|right; by eexists].
  destruct (c !! bar); [left|right]; by eexists.
Qed.

Lemma price_cell_outcome bar s :
  (∃ r, data s !! bar = Some r ∧ price_cell bar s = Ok (price r) s [])
  ∨ (∃ e, price_cell bar s = Raise e s []).
Proof.
  unfold price_cell. destruct (data s !! bar) as [r|] eqn:Hr.
  - left. exists r. split; [done|]. by apply get_date_price_Some.
  - right. exists IndexError. by apply get_date_price_None.
Qed.

(** ** Stepwise relations along the structure of a computation *)

Section Respects.
Context (R : StepRel) `{!Stepwise R}.

Lemma respects_ret {A} (a : A) : respects R (ret a).
Proof. intros s. apply step_refl. Qed.

Lemma respects_raise {A} e : respects R (raise (A := A) e).
Proof. intros s. apply step_refl. Qed.

Lemma respects_gets {A} (f : Backtest → A) : respects R (gets f).
Proof. intros s. apply step_refl. Qed.

Lemma respects_modify f : (∀ s, R s (f s) []) → respects R (modify f).
Proof. intros H s. apply H. Qed.

Lemma respects_bind {A B} (m : M A) (k : A → M B) :
  respects R m → (∀ a, respects R (k a)) → respects R (bind m k).
Proof.
  intros Hm Hk s. specialize (Hm s).
  rewrite state_of_bind, log_of_bind.
  destruct (m s) as [a s1 l1|e s1 l1]; [|done].
  eapply step_trans; [exact Hm|apply Hk].
Qed.

Lemma respects_cell name bar : respects R (cell name bar).
Proof.
  intros s. destruct (cell_outcome name bar s) as [[v ->]|[e ->]];
    apply step_refl.
Qed.

Lemma respects_price_cell bar : respects R (price_cell bar).
Proof.
  intros s. destruct (price_cell_outcome bar s) as [(r & _ & ->)|[e ->]];
    apply step_refl.
Qed.

Lemma respects_place_buy_order bar u a :
  (∀ n p s, R s (buy_fill n p s) [Buying bar n p]) →
  respects R (place_buy_order bar u a).
Proof.
  intros H s.
  destruct (place_buy_order_outcome bar u a s)
    as [(r & n & _ & _ & ->)|[e ->]]; [apply H|apply step_refl].
Qed.

Lemma respects_place_sell_order bar u a :
  (∀ n p s, R s (sell_fill n p s) [Selling bar n p]) →
  respects R (place_sell_order bar u a).
Proof.
  intros H s.
  destruct (place_sell_order_outcome bar u a s)
    as [(r & n & _ & _ & ->)|[e ->]]; [apply H|apply step_refl].
Qed.

Lemma respects_close_out bar :
  (∀ n p s, R s (closed p s) [ClosedOut bar n p]) →
  respects R (close_out bar).
Proof.
  intros H s.
  destruct (close_out_outcome bar s) as [(r & _ & _ & ->)|(e & -> & _)];
    [apply H|apply step_refl].
Qed.

Lemma respects_for_each bars body bound :
  (∀ b, b ∈ bars → respects R (body b)) →
  respects R (for_each bars body bound).
Proof.
  revert bound. induction bars as [|b rest IH]; intros bound Hbody; simpl.
  - apply respects_ret.
  - apply respects_bind.
    + apply Hbody. left.
    + intros _. apply IH. intros b' Hb'. apply Hbody. by right.
Qed.
End Respects.

Lemma respects_mono (R R' : StepRel) {A} (m : M A) :
  (∀ s s' l, R s s' l → R' s s' l) → respects R m → respects R' m.
Proof. intros H Hm s. apply H, Hm. Qed.

(** Decomposition of a goal [respects R m] along the structure of [m];
    what remains are the facts about [R] and the single fills and
    assignments of [m]. *)
Ltac respects_step :=
  lazymatch goal with
  | |- Stepwise _ => exact _
  | |- respects _ (bind _ _) => apply respects_bind; [exact _| |intros ?]
  | |- respects _ (ret _) => apply respects_ret
  | |- respects _ (raise _) => apply respects_raise
  | |- respects _ (gets _) => apply respects_gets
  | |- respects _ (cell _ _) => apply respects_cell
  | |- respects _ (price_cell _) => apply respects_price_cell
  | |- respects _ (modify _) => apply respects_modify; intros ?
  | |- respects _ (place_buy_order _ _ _) =>
      apply respects_place_buy_order; [exact _|intros ? ? ?]
  | |- respects _ (place_sell_order _ _ _) =>
      apply respects_place_sell_order; [exact _|intros ? ? ?]
  | |- respects _ (close_out _) =>
      apply respects_close_out; [exact _|intros ? ? ?]
  | |- respects _ (BacktestLongShort.go_long _ _ _) =>
      unfold BacktestLongShort.go_long
  | |- respects _ (BacktestLongShort.go_short _ _ _) =>
      unfold BacktestLongShort.go_short
  | |- respects _ (BacktestLongShort.resolve ?a) =>
      unfold BacktestLongShort.resolve
  | |- respects _ (if ?c then _ else _) => destruct c
  | |- respects _ (match ?x with _ => _ end) => destruct x
  end.

Ltac unfold_bar_step :=
  unfold BacktestLongOnly.sma_bar, BacktestLongOnly.momentum_bar,
    BacktestLongOnly.mean_reversion_bar, BacktestLongShort.sma_bar,
    BacktestLongShort.momentum_bar, BacktestLongShort.mean_reversion_bar.

Ltac respects_tac := repeat respects_step.

(** *** The trade counter follows the fills *)

#[export] Instance counted_stepwise : Stepwise counted.
Proof.
  split; unfold counted.
  - intros s. simpl. lia.
  - intros s1 s2 s3 l1 l2 -> ->. rewrite length_app. lia.
Qed.

Lemma bar_step_counted st b : respects counted (bar_step st b).
Proof.
  destruct st; cbn [bar_step]; unfold_bar_step; respects_tac;
    unfold counted; simpl; lia.
Qed.

(** *** The loop records orders only, and only at the bar it visits *)

#[export] Instance orders_at_stepwise b : Stepwise (orders_at b).
Proof.
  split; unfold orders_at.
  - intros _. constructor.
  - intros _ _ _ l1 l2 H1 H2. by apply Forall_app.
Qed.

Lemma bar_step_orders_at st b : respects (orders_at b) (bar_step st b).
Proof.
  destruct st; cbn [bar_step]; unfold_bar_step; respects_tac;
    unfold orders_at; repeat constructor.
Qed.

(** *** The loop leaves the parameters and the frame alone *)

#[export] Instance framed_stepwise : Stepwise framed.
Proof.
  split; unfold framed.
  - done.
  - intros s1 s2 s3 _ _ (-> & -> & -> & -> & ->) (-> & -> & -> & -> & ->).
    done.
Qed.

Lemma bar_step_framed st b : respects framed (bar_step st b).
Proof.
  destruct st; cbn [bar_step]; unfold_bar_step; respects_tac;
    unfold framed; done.
Qed.

(** ** Every long-only bar is a step of the position machine *)

(** Symbolic execution of the reads at the head of a computation. *)
Ltac exec_reads :=
  repeat match goal with
  | |- context [bind (gets ?f) ?k ?s] => rewrite (bind_gets f k s)
  | |- context [bind (cell ?n ?b) ?k ?s] =>
      let H := fresh in
      destruct (cell_outcome n b s) as [[? H]|[? H]];
      [rewrite (bind_quiet _ k _ _ _ H)|rewrite (bind_Raise _ k _ _ _ _ H)];
      clear H
  | |- context [bind (price_cell ?b) ?k ?s] =>
      let H := fresh in
      destruct (price_cell_outcome b s) as [(? & ? & H)|[? H]];
      [rewrite (bind_quiet _ k _ _ _ H)|rewrite (bind_Raise _ k _ _ _ _ H)];
      clear H
  | |- context [(if ?c then _ else _) ?s] => destruct c eqn:?
  end.

Lemma buy_all_then_long b s :
  long_only_step b s
    (bind (place_buy_order b None (Some (amount s)))
       (λ _, modify (set_position 1)) s)
  ∨ position s ≠ 0%Z.
Proof.
  destruct (Z.eq_dec (position s) 0%Z) as [Hpos|]; [left|by right].
  destruct (data s !! b) as [r|] eqn:Hr.
  - destruct (int_of_float (amount s / price r)) as [e | n] eqn:Hn.
    + rewrite (bind_Raise _ _ _ _ _ _
                 (place_buy_order_refused _ _ _ _ _ Hr Hn)).
      constructor.
    + rewrite (bind_Ok _ _ _ _ _ _ (place_buy_order_budget _ _ _ _ _ Hr Hn)).
      by apply lo_buy.
  - assert (place_buy_order b None (Some (amount s)) s = Raise IndexError s [])
      as H.
    { unfold place_buy_order.
      by rewrite (bind_Raise _ _ _ _ _ _ (get_date_price_None _ _ Hr)). }
    rewrite (bind_Raise _ _ _ _ _ _ H). constructor.
Qed.

Lemma sell_all_then_flat b s :
  long_only_step b s
    (bind (place_sell_order b (Some (units s)) None)
       (λ _, modify (set_position 0)) s)
  ∨ position s ≠ 1%Z.
Proof.
  destruct (Z.eq_dec (position s) 1%Z) as [Hpos|]; [left|by right].
  destruct (place_sell_order_outcome b (Some (units s)) None s)
    as [(r & n & Hr & Hn & H)|[e H]].
  - simpl in Hn. destruct (in_double_range (units s)) eqn:Hu; [|done].
    injection Hn as <-. rewrite (bind_Ok _ _ _ _ _ _ H). by apply lo_sell.
  - rewrite (bind_Raise _ _ _ _ _ _ H). constructor.
Qed.

Lemma long_only_bar_step st b s :
  long_only st = true → long_only_step b s (bar_step st b s).
Proof.
  destruct st; try discriminate; intros _; cbn [bar_step]; unfold_bar_step;
    exec_reads.
  all: try constructor.
  all: repeat match goal with
         | H : (_ =? _)%Z = true |- _ => apply Z.eqb_eq in H
         end.
  all: first
    [ destruct (buy_all_then_long b s) as [H|H]; [exact H|done]
    | destruct (sell_all_then_flat b s) as [H|H]; [exact H|done] ].
Qed.

(** ** The preparation phase *)

Lemma prepare_Ok {pandas : Rolling} st s : prepare st s = Ok tt (prepared st s) [].
Proof. by destruct st. Qed.

Lemma prepared_ledger {pandas : Rolling} st s :
  position (prepared st s) = 0%Z ∧ trades (prepared st s) = 0%Z ∧
  amount (prepared st s) = initial_amount s ∧
  units (prepared st s) = units s.
Proof. by destruct st. Qed.

Lemma prepared_params {pandas : Rolling} st s :
  initial_amount (prepared st s) = initial_amount s ∧
  ftc (prepared st s) = ftc s ∧ ptc (prepared st s) = ptc s ∧
  data (prepared st s) = data s.
Proof. by destruct st. Qed.

Lemma prepared_cols {pandas : Rolling} st s :
  cols (prepared st s) = indicator_columns st (data s) (cols s).
Proof. by destruct st. Qed.

(** Storing the columns again changes nothing. *)
Lemma indicator_columns_again {pandas : Rolling} st rows c :
  indicator_columns st rows (indicator_columns st rows c)
  = indicator_columns st rows c.
Proof.
  destruct st; unfold indicator_columns; apply map_eq; intros i;
    rewrite !lookup_insert; repeat case_decide; done.
Qed.

Lemma backtest_eq s s' :
  initial_amount s = initial_amount s' → amount s = amount s' →
  ftc s = ftc s' → ptc s = ptc s' → units s = units s' →
  position s = position s' → trades s = trades s' →
  data s = data s' → cols s = cols s' → s = s'.
Proof. destruct s, s'. simpl. by intros -> -> -> -> -> -> -> -> ->. Qed.

Lemma prepared_again {pandas : Rolling} st s s1 :
  initial_amount s1 = initial_amount s → ftc s1 = ftc s → ptc s1 = ptc s →
  data s1 = data s → units s1 = units s → cols s1 = cols (prepared st s) →
  prepared st s1 = prepared st s.
Proof.
  intros Hi Hf Hp Hd Hu Hc.
  destruct (prepared_ledger st s) as (Hpos & Htr & Ham & Hun).
  destruct (prepared_params st s) as (Hi' & Hf' & Hp' & Hd').
  destruct (prepared_ledger st s1) as (Hpos1 & Htr1 & Ham1 & Hun1).
  destruct (prepared_params st s1) as (Hi1 & Hf1 & Hp1 & Hd1).
  apply backtest_eq; try congruence.
  rewrite (prepared_cols st s1), Hc, (prepared_cols st s), Hd.
  apply indicator_columns_again.
Qed.

Lemma run_upto_prepared {pandas : Rolling} st k s :
  run_upto st k s =
    for_each (take k (bars_of st s)) (bar_step st) None (prepared st s).
Proof.
  unfold run_upto. rewrite (bind_quiet _ _ _ _ _ (prepare_Ok st s)).
  rewrite bind_gets. unfold bars_of. by destruct (prepared_params st s) as (_ & _ & _ & ->).
Qed.

(** ** Invariants of the bar loop *)

Lemma for_each_preserves (I : Backtest → Prop) bars body bound s :
  (∀ b s, I s → I (state_of (body b s))) →
  I s → I (state_of (for_each bars body bound s)).
Proof.
  intros Hbody. revert bound s.
  induction bars as [|b rest IH]; intros bound s Hs; simpl; [done|].
  rewrite state_of_bind. specialize (Hbody b s Hs).
  destruct (body b s) as [[] s1 l1|e s1 l1]; simpl in *; [by apply IH|done].
Qed.

(** *** Truncation *)




(** *** Long-only strategies stay flat or long *)

Lemma long_only_step_position b s o :
  long_only_step b s o → is_flat_or_long s → is_flat_or_long (state_of o).
Proof. unfold is_flat_or_long. destruct 1; simpl; auto. Qed.

Ltac ledger_simpl :=
  unfold closed, buy_fill, sell_fill, set_position, set_trades, set_units,
    set_amount, set_col in *; simpl in *.

(** ** The run as a whole *)

Lemma run_prepared {pandas : Rolling} st s :
  run st s =
    bind (for_each (bars_of st s) (bar_step st) None) close_out_after
      (prepared st s).
Proof.
  rewrite run_phases, (bind_quiet _ _ _ _ _ (prepare_Ok st s)), bind_gets.
  unfold bars_of. by destruct (prepared_params st s) as (_ & _ & _ & ->).
Qed.

(** The loop variable after the loop is the last bar visited. *)
Lemma for_each_bound bars body bound s r s' l :
  for_each bars body bound s = Ok r s' l →
  r = match last bars with Some b => Some b | None => bound end.
Proof.
  revert bound s l. induction bars as [|b rest IH]; intros bound s l; simpl.
  - by intros [= <- _ _].
  - intros H. apply bind_Ok_inv in H as (_ & s1 & l1 & l2 & _ & H & _).
    apply IH in H as ->. rewrite last_cons. by destruct (last rest).
Qed.

Lemma elem_of_range lo hi i : i ∈ range lo hi ↔ lo ≤ i < hi.
Proof. unfold range. rewrite elem_of_seq. lia. Qed.

Lemma last_range lo hi : lo < hi → last (range lo hi) = Some (hi - 1).
Proof.
  intros H. unfold range.
  replace (hi - lo) with (S (hi - lo - 1)) by lia.
  rewrite seq_S, last_snoc. f_equal. lia.
Qed.

Lemma close_out_after_Ok_inv bar s s' l :
  close_out_after bar s = Ok tt s' l →
  ∃ b r, bar = Some b ∧ data s !! b = Some r ∧
         s' = closed (price r) s ∧ l = [ClosedOut b (units s) (price r)].
Proof.
  destruct bar as [b|]; simpl; [|discriminate].
  destruct (close_out_outcome b s) as [(r & Hr & _ & ->)|(e & -> & _)];
    [|done].
  intros [= <- <-]. by exists b, r.
Qed.

Lemma close_out_after_Raise_inv bar s e s' l :
  close_out_after bar s = Raise e s' l → s' = s ∧ l = [].
Proof.
  destruct bar as [b|]; simpl; [|by intros [= _ <- <-]].
  destruct (close_out_outcome b s) as [(r & Hr & _ & ->)|(e' & -> & _)];
    [done|].
  by intros [= _ <- <-].
Qed.

#[export] Instance orders_in_stepwise bars : Stepwise (orders_in bars).
Proof.
  split; unfold orders_in.
  - intros _. constructor.
  - intros _ _ _ l1 l2 H1 H2. by apply Forall_app.
Qed.

Lemma loop_orders_in st bars bound :
  respects (orders_in bars) (for_each bars (bar_step st) bound).
Proof.
  apply respects_for_each; [exact _|]. intros b Hb.
  eapply respects_mono; [|apply bar_step_orders_at].
  unfold orders_at, orders_in. intros _ _ l Hl.
  eapply Forall_impl; [exact Hl|]. by intros e [? ->].
Qed.

Lemma loop_counted st bars bound :
  respects counted (for_each bars (bar_step st) bound).
Proof. apply respects_for_each; [exact _|]. intros. apply bar_step_counted. Qed.

Lemma loop_framed st bars bound :
  respects framed (for_each bars (bar_step st) bound).
Proof. apply respects_for_each; [exact _|]. intros. apply bar_step_framed. Qed.

(** The outcome of a run, phase by phase. *)
Lemma run_outcome {pandas : Rolling} st s :
  let s0 := prepared st s in
  let bars := bars_of st s in
  match run st s with
  | Ok _ s' log =>
      ∃ s1 fills b r,
        for_each bars (bar_step st) None s0 = Ok (Some b) s1 fills ∧
        last bars = Some b ∧ data s1 !! b = Some r ∧
        s' = closed (price r) s1 ∧
        log = fills ++ [ClosedOut b (units s1) (price r)]
  | Raise e s' log =>
      (∃ bound, for_each bars (bar_step st) None s0 = Ok bound s' log ∧
                close_out_after bound s' = Raise e s' [])
      ∨ for_each bars (bar_step st) None s0 = Raise e s' log
  end.
Proof.
  intros s0 bars. rewrite run_prepared. fold s0 bars.
  destruct (bind _ _ _) as [[] s' log|e s' log] eqn:H.
  - apply bind_Ok_inv in H as (bound & s1 & l1 & l2 & Hloop & Hclose & ->).
    apply close_out_after_Ok_inv in Hclose as (b & r & -> & Hr & -> & ->).
    exists s1, l1, b, r. repeat split; try done.
    apply for_each_bound in Hloop. by destruct (last bars).
  - apply bind_Raise_inv in H as [H|(bound & s1 & l1 & l2 & Hloop & Hclose & ->)].
    + by right.
    + left. destruct (close_out_after_Raise_inv _ _ _ _ _ Hclose) as [-> ->].
      exists bound. by rewrite app_nil_r.
Qed.

Lemma close_out_after_state bar s :
  state_of (close_out_after bar s) = s ∨
  ∃ p, state_of (close_out_after bar s) = closed p s.
Proof.
  destruct bar as [b|]; simpl; [|by left].
  destruct (close_out_outcome b s) as [(r & Hr & _ & ->)|(e & -> & _)].
  - right. by exists (price r).
  - by left.
Qed.

Lemma run_final_state {pandas : Rolling} st s :
  let loop := for_each (bars_of st s) (bar_step st) None (prepared st s) in
  state_of (run st s) = state_of loop ∨
  ∃ p, state_of (run st s) = closed p (state_of loop).
Proof.
  intros loop. rewrite run_prepared, state_of_bind. fold loop.
  destruct loop as [bound s1 l1|e s1 l1]; simpl; [|by left].
  apply close_out_after_state.
Qed.

Lemma empty_loop_raises {pandas : Rolling} st s :
  length (data s) ≤ loop_window st →
  run st s = Raise UnboundLocalError (prepared st s) [].
Proof.
  intros Hlen. rewrite run_prepared. unfold bars_of, range.
  by replace (length (data s) - loop_window st) with 0 by lia.
Qed.

(** ** Symbolic execution *)

Lemma wp_ret {A} (a : A) Q X s : Q a s [] → wp (ret a) Q X s.
Proof. done. Qed.

Lemma wp_raise {A} e (Q : A → Backtest → list Event → Prop) X s :
  X e s [] → wp (raise e) Q X s.
Proof. done. Qed.

Lemma wp_gets {A} (f : Backtest → A) Q X s : Q (f s) s [] → wp (gets f) Q X s.
Proof. done. Qed.

Lemma wp_modify f Q X s : Q tt (f s) [] → wp (modify f) Q X s.
Proof. done. Qed.

Lemma wp_bind {A B} (m : M A) (k : A → M B) Q X s :
  wp m (λ a s1 l1,
          wp (k a) (λ b s2 l2, Q b s2 (l1 ++ l2))
            (λ e s2 l2, X e s2 (l1 ++ l2)) s1) X s →
  wp (bind m k) Q X s.
Proof.
  unfold wp, bind. destruct (m s) as [a s1 l1|e s1 l1]; [|done].
  by destruct (k a s1).
Qed.

Lemma wp_cell name bar Q X s :
  (∀ col v, cols s !! name = Some col → col !! bar = Some v → Q v s []) →
  (∀ e, (cols s !! name = None ∨
         ∃ col, cols s !! name = Some col ∧ col !! bar = None) →
        X e s []) →
  wp (cell name bar) Q X s.
Proof.
  intros HQ HX. unfold wp, cell. rewrite bind_gets.
  destruct (cols s !! name) as [col|] eqn:Hcol.
  - destruct (col !! bar) as [v|] eqn:Hv.
    + by apply (HQ col v).
    + apply HX. right. by exists col.
  - apply HX. by left.
Qed.

Lemma wp_get_date_price bar Q X s :
  (∀ r, data s !! bar = Some r → Q (price r) s []) →
  (data s !! bar = None → X IndexError s []) →
  wp (get_date_price bar) Q X s.
Proof.
  intros HQ HX. unfold wp. destruct (data s !! bar) as [r|] eqn:Hr.
  - rewrite (get_date_price_Some _ _ _ Hr). by apply HQ.
  - rewrite (get_date_price_None _ _ Hr). by apply HX.
Qed.

Lemma wp_price_cell bar Q X s :
  (∀ r, data s !! bar = Some r → Q (price r) s []) →
  (data s !! bar = None → X IndexError s []) →
  wp (price_cell bar) Q X s.
Proof. apply wp_get_date_price. Qed.

Lemma wp_int_quotient a p Q X s :
  (∀ n, int_of_float (a / p) = inr n → Q n s []) →
  (∀ e, int_of_float (a / p) = inl e → X e s []) →
  wp (int_quotient a p) Q X s.
Proof.
  intros HQ HX. unfold wp, int_quotient.
  destruct (int_of_float (a / p)) as [e | n]; [by apply HX | by apply HQ].
Qed.

Lemma wp_place_buy_order bar u a Q X s :
  (∀ r n, data s !! bar = Some r → order_size u a (price r) = Some n →
          Q tt (buy_fill n (price r) s) [Buying bar n (price r)]) →
  (∀ e, (e = IndexError ∧ data s !! bar = None) ∨
        (e = TypeError ∧ u = None ∧ a = None) ∨
        (u = None ∧
         ∃ r q, data s !! bar = Some r ∧ a = Some q ∧
                int_of_float (q / price r) = inl e) ∨
        (e = OverflowError ∧
         ∃ n, u = Some n ∧ in_double_range n = false) →
        X e s []) →
  wp (place_buy_order bar u a) Q X s.
Proof.
  intros HQ HX. unfold wp.
  destruct (data s !! bar) as [r|] eqn:Hr.
  - destruct u as [n|].
    + destruct (in_double_range n) eqn:Hn.
      * rewrite (place_buy_order_units _ _ _ _ _ Hr Hn).
        apply HQ; [done|]. simpl. by rewrite Hn.
      * rewrite (place_buy_order_too_large _ _ _ _ _ Hr Hn).
        apply HX. right. right. right. eauto.
    + destruct a as [a|].
      * destruct (int_of_float (a / price r)) as [e | n] eqn:Hn.
        -- rewrite (place_buy_order_refused _ _ _ _ _ Hr Hn).
           apply HX. right. right. left. eauto 10.
        -- rewrite (place_buy_order_budget _ _ _ _ _ Hr Hn).
           apply HQ; [done |]. simpl. by rewrite Hn.
      * unfold place_buy_order.
        rewrite (bind_Ok _ _ _ _ _ _ (get_date_price_Some _ _ _ Hr)).
        apply HX. right. left. done.
  - unfold place_buy_order.
    rewrite (bind_Raise _ _ _ _ _ _ (get_date_price_None _ _ Hr)).
    apply HX. by left.
Qed.

Lemma wp_place_sell_order bar u a Q X s :
  (∀ r n, data s !! bar = Some r → order_size u a (price r) = Some n →
          Q tt (sell_fill n (price r) s) [Selling bar n (price r)]) →
  (∀ e, (e = IndexError ∧ data s !! bar = None) ∨
        (e = TypeError ∧ u = None ∧ a = None) ∨
        (u = None ∧
         ∃ r q, data s !! bar = Some r ∧ a = Some q ∧
                int_of_float (q / price r) = inl e) ∨
        (e = OverflowError ∧
         ∃ n, u = Some n ∧ in_double_range n = false) →
        X e s []) →
  wp (place_sell_order bar u a) Q X s.
Proof.
  intros HQ HX. unfold wp.
  destruct (data s !! bar) as [r|] eqn:Hr.
  - destruct u as [n|].
    + destruct (in_double_range n) eqn:Hn.
      * rewrite (place_sell_order_units _ _ _ _ _ Hr Hn).
        apply HQ; [done|]. simpl. by rewrite Hn.
      * rewrite (place_sell_order_too_large _ _ _ _ _ Hr Hn).
        apply HX. right. right. right. eauto.
    + destruct a as [a|].
      * destruct (int_of_float (a / price r)) as [e | n] eqn:Hn.
        -- rewrite (place_sell_order_refused _ _ _ _ _ Hr Hn).
           apply HX. right. right. left. eauto 10.
        -- rewrite (place_sell_order_budget _ _ _ _ _ Hr Hn).
           apply HQ; [done |]. simpl. by rewrite Hn.
      * unfold place_sell_order.
        rewrite (bind_Ok _ _ _ _ _ _ (get_date_price_Some _ _ _ Hr)).
        apply HX. right. left. done.
  - unfold place_sell_order.
    rewrite (bind_Raise _ _ _ _ _ _ (get_date_price_None _ _ Hr)).
    apply HX. by left.
Qed.

Lemma wp_close_out bar Q X s :
  (∀ r, data s !! bar = Some r → in_double_range (units s) = true →
        Q tt (closed (price r) s) [ClosedOut bar (units s) (price r)]) →
  (∀ e, e = IndexError ∧ data s !! bar = None ∨
        e = OverflowError ∧ in_double_range (units s) = false →
        X e s []) →
  wp (close_out bar) Q X s.
Proof.
  intros HQ HX. unfold wp.
  destruct (close_out_outcome bar s) as [(r & Hr & Hu & ->)|(e & -> & He)].
  - by apply HQ.
  - by apply HX.
Qed.

Lemma wp_mono {A} (m : M A) (Q Q' : A → Backtest → list Event → Prop)
    (X X' : Exn → Backtest → list Event → Prop) s :
  (∀ a s' l, Q a s' l → Q' a s' l) → (∀ e s' l, X e s' l → X' e s' l) →
  wp m Q X s → wp m Q' X' s.
Proof. unfold wp. intros HQ HX. destruct (m s); auto. Qed.

(** What holds however a computation ends holds of its outcome. *)
Lemma wp_outcome {A} (m : M A) (P : Backtest → list Event → Prop) s :
  wp m (λ _, P) (λ _, P) s ↔ P (state_of (m s)) (log_of (m s)).
Proof. unfold wp. by destruct (m s). Qed.

(** Invariants of a loop, indexed by the bars already visited. *)
Lemma wp_for_each (I : list nat → Backtest → list Event → Prop)
    (E : Exn → Backtest → list Event → Prop) bars body bound s :
  I [] s [] →
  (∀ pre b post s l,
     bars = pre ++ b :: post → I pre s l →
     wp (body b) (λ _ s' l', I (pre ++ [b]) s' (l ++ l'))
       (λ e s' l', E e s' (l ++ l')) s) →
  wp (for_each bars body bound) (λ _ s' l, I bars s' l) E s.
Proof.
  intros H0 Hbody.
  assert (∀ post pre bound s l,
            bars = pre ++ post → I pre s l →
            wp (for_each post body bound)
              (λ _ s' l', I bars s' (l ++ l')) (λ e s' l', E e s' (l ++ l'))
              s) as H.
  { induction post as [|b post IH]; intros pre bound' s0 l Hbars Hpre.
    - rewrite app_nil_r in Hbars. subst pre. simpl. unfold wp, ret.
      by rewrite app_nil_r.
    - simpl. apply wp_bind.
      eapply wp_mono; [| |apply (Hbody pre b post s0 l Hbars Hpre)].
      + intros [] s1 l1 H1. simpl.
        eapply wp_mono; [| |apply (IH (pre ++ [b]) (Some b) s1 (l ++ l1))].
        * intros a s2 l2. by rewrite app_assoc.
        * intros e s2 l2. by rewrite app_assoc.
        * by rewrite <- app_assoc.
        * done.
      + done. }
  eapply wp_mono; [| |apply (H bars [] bound s [] eq_refl H0)]; done.
Qed.

(** One step of symbolic execution. *)
Ltac wp_step :=
  lazymatch goal with
  | |- wp (bind _ _) _ _ _ => apply wp_bind
  | |- wp (ret _) _ _ _ => apply wp_ret
  | |- wp (raise _) _ _ _ => apply wp_raise
  | |- wp (gets _) _ _ _ => apply wp_gets
  | |- wp (modify _) _ _ _ => apply wp_modify
  | |- wp (cell _ _) _ _ _ => apply wp_cell; [intros ? ? ? ?|intros ? ?]
  | |- wp (price_cell _) _ _ _ => apply wp_price_cell; [intros ? ?|intros ?]
  | |- wp (get_date_price _) _ _ _ =>
      apply wp_get_date_price; [intros ? ?|intros ?]
  | |- wp (place_buy_order _ _ _) _ _ _ =>
      apply wp_place_buy_order; [intros ? ? ? ?|intros ? ?]
  | |- wp (place_sell_order _ _ _) _ _ _ =>
      apply wp_place_sell_order; [intros ? ? ? ?|intros ? ?]
  | |- wp (close_out _) _ _ _ => apply wp_close_out; [intros ? ? ?|intros ? ?]
  | |- wp (BacktestLongShort.go_long _ _ _) _ _ _ =>
      unfold BacktestLongShort.go_long
  | |- wp (BacktestLongShort.go_short _ _ _) _ _ _ =>
      unfold BacktestLongShort.go_short
  | |- wp (BacktestLongShort.resolve _) _ _ _ =>
      unfold BacktestLongShort.resolve
  | |- wp (if truthy_units _ then _ else _) _ _ _ =>
      progress cbn [truthy_units]
  | |- wp (if truthy_amount _ then _ else _) _ _ _ =>
      progress cbn [truthy_amount]
  | |- wp (if ?c then _ else _) _ _ _ => destruct c eqn:?
  | |- wp (match ?x with _ => _ end) _ _ _ => destruct x eqn:?
  end; cbv beta.

Ltac wp_exec := repeat wp_step.

(** Projections of an updated object, without touching the lookups. *)
Ltac ledger_cbn :=
  cbn [closed buy_fill sell_fill set_position set_trades set_units
       set_amount set_col
       initial_amount amount ftc ptc units position trades data cols] in *.

(** Normal form of the conditions left by symbolic execution. *)
Ltac vc_simpl :=
  repeat match goal with
  | H : order_size (Some ?n) _ _ = Some _ |- _ =>
      let Hn := fresh "Hrange" in
      cbn [order_size] in H;
      destruct (in_double_range n) eqn:Hn; [injection H as <-|discriminate H]
  | H : (_ =? _)%Z = true |- _ => apply Z.eqb_eq in H
  | H : (_ =? _)%Z = false |- _ => apply Z.eqb_neq in H
  | H : (_ || _) = true |- _ => apply orb_true_iff in H
  | H : (_ || _) = false |- _ => apply orb_false_iff in H as [? ?]
  end;
  unfold BacktestLongShort.flat_or_short, BacktestLongShort.flat_or_long in *;
  ledger_cbn.

(** ** The exceptions of a run *)

Lemma in_double_range_opp n : in_double_range (- n) = in_double_range n.
Proof. unfold in_double_range. by rewrite Z.abs_opp. Qed.





(** * Properties of the specification *)

(** ** Close-out *)

(** C10. The terminal close-out applies no transaction cost: whatever
    [ftc] and [ptc] are and whatever the sign of the holding [u], closing
    out at a bar of price [p] sets the cash to exactly [cash + u * p]
    (the sum and the product of doubles that the code computes), sets
    the holding to zero and adds one to the trade count, also when [u]
    is zero.  This is so for every holding that a double can count, as
    is every holding that comes from one order; for a holding beyond
    the range of doubles the product [u * p] raises [OverflowError] and
    the object is left as it was. *)
Theorem close_out_charges_no_costs bar s r :
  data s !! bar = Some r →
  if in_double_range (units s) then
    ∃ s', close_out bar s = Ok tt s' [ClosedOut bar (units s) (price r)] ∧
          amount s' = (amount s + float_of_int (units s) * price r)%float ∧
          units s' = 0%Z ∧
          trades s' = (trades s + 1)%Z ∧
          ftc s' = ftc s ∧ ptc s' = ptc s
  else close_out bar s = Raise OverflowError s [].
Proof.
  intros Hr. destruct (in_double_range (units s)) eqn:Hu.
  - exists (closed (price r) s). by rewrite (close_out_Some _ _ _ Hr Hu).
  - by apply (close_out_too_large _ _ r).
Qed.

Lemma close_out_charges_no_costs_witness :
  ∃ s', close_out 4 sample = Ok tt s' [ClosedOut 4 0 2] ∧
        amount s' = (100 + float_of_int 0 * 2)%float ∧
        units s' = 0%Z ∧ trades s' = 1%Z ∧
        ftc s' = 10%float ∧ ptc s' = one_percent.
Proof.
  exact (close_out_charges_no_costs 4 sample (mkBar 2 0) eq_refl).
Defined.

(** ** Fills *)





(** ** Trade count *)

(** C1, as stated, fails: on a flat series no order is ever placed, the
    position is flat before the final bar, and the close-out still adds
    one to the trade count. *)
Lemma flat_close_out_is_counted :
  log_of (flat_run (pandas := window_rolling)) = [ClosedOut 2 0 1] ∧
  trades (state_of (flat_run (pandas := window_rolling))) = 1%Z ∧
  fills_with_conditional_close_out
    (log_of (flat_run (pandas := window_rolling))) = 0%Z ∧
  trades (state_of (flat_run (pandas := window_rolling)))
  ≠ fills_with_conditional_close_out
      (log_of (flat_run (pandas := window_rolling))).
Proof. vm_compute. repeat split. discriminate. Qed.

(** C1, amended.  The final trade count of a run that completes is the
    number of orders filled plus one: the terminal close-out is counted
    unconditionally, also when the holding it liquidates is zero.  A run
    that raises has counted exactly the orders filled so far. *)
Theorem trade_count_is_orders_plus_close_out {pandas : Rolling} st s :
  match run st s with
  | Ok _ s' log =>
      ∃ fills b n p,
        log = fills ++ [ClosedOut b n p] ∧
        Forall (λ e, is_order e = true) fills ∧
        trades s' = (Z.of_nat (length fills) + 1)%Z
  | Raise _ s' log =>
      Forall (λ e, is_order e = true) log ∧
      trades s' = Z.of_nat (length log)
  end.
Proof.
  pose proof (run_outcome st s) as H. simpl in H.
  pose proof (loop_counted st (bars_of st s) None (prepared st s)) as Hc.
  pose proof (loop_orders_in st (bars_of st s) None (prepared st s)) as Ho.
  unfold counted, orders_in in Hc, Ho.
  destruct (prepared_ledger st s) as (_ & Ht & _). rewrite Ht in Hc.
  assert (∀ l : list Event,
            Forall (λ e, is_order e = true ∧ event_bar e ∈ bars_of st s) l →
            Forall (λ e, is_order e = true) l) as Hweak.
  { intros l Hl. eapply Forall_impl; [exact Hl|]. by intros e [? _]. }
  destruct (run st s) as [[] s' log|e s' log].
  - destruct H as (s1 & fills & b & r & Hloop & _ & _ & -> & ->).
    rewrite Hloop in Hc, Ho. simpl in Hc, Ho.
    exists fills, b, (units s1), (price r). ledger_simpl.
    repeat split; [by apply Hweak|lia].
  - destruct H as [(bound & Hloop & _)|Hloop];
      rewrite Hloop in Hc, Ho; simpl in Hc, Ho; split;
      [by apply Hweak|lia|by apply Hweak|lia].
Qed.

(** ** Going long and going short *)

Lemma go_long_cover bar s r :
  data s !! bar = Some r → in_double_range (units s) = true →
  (pos <- gets position;;
   if (pos =? -1)%Z then
     held <- gets units;; place_buy_order bar (Some (- held)%Z) None
   else ret tt) s
  = Ok tt (after_cover (price r) s) (cover_log bar (price r) s) ∧
  data (after_cover (price r) s) !! bar = Some r.
Proof.
  intros Hr Hu. rewrite bind_gets. unfold after_cover, cover_log.
  destruct (position s =? -1)%Z; [|done].
  rewrite bind_gets. split; [|done]. apply place_buy_order_units; [done|].
  by rewrite in_double_range_opp.
Qed.

Lemma go_short_unwind bar s r :
  data s !! bar = Some r → in_double_range (units s) = true →
  (pos <- gets position;;
   if (pos =? 1)%Z then
     held <- gets units;; place_sell_order bar (Some held) None
   else ret tt) s
  = Ok tt (after_unwind (price r) s) (unwind_log bar (price r) s) ∧
  data (after_unwind (price r) s) !! bar = Some r.
Proof.
  intros Hr Hu. rewrite bind_gets. unfold after_unwind, unwind_log.
  destruct (position s =? 1)%Z; [|done].
  rewrite bind_gets. split; [|done]. by apply place_sell_order_units.
Qed.

Lemma resolve_outcome a s :
  BacktestLongShort.resolve a s
  = Ok (match a with
        | Some All => Some (amount s)
        | Some (Cash q) => Some q
        | None => None
        end) s [].
Proof. by destruct a as [[|q]|]. Qed.

(** [go_long] and [go_short] with an intent that names a size: the
    closing fill, if the position is on the other side, then the
    opening fill, unless [int] refuses the budget of the opening
    order. *)
Lemma go_long_sized bar u a s r :
  data s !! bar = Some r → in_double_range (units s) = true →
  sized u a = true →
  let p := price r in
  let s1 := after_cover p s in
  match open_size u a (amount s1) p with
  | Some n =>
      BacktestLongShort.go_long bar u a s
      = Ok tt (buy_fill n p s1) (cover_log bar p s ++ [Buying bar n p])
  | None =>
      ∃ e, (e = OverflowError ∨ e = ValueError) ∧
           BacktestLongShort.go_long bar u a s
           = Raise e s1 (cover_log bar p s)
  end.
Proof.
  intros Hr Hrange Hsized p s1.
  destruct (go_long_cover bar s r Hr Hrange) as [Hcover Hr1].
  fold p s1 in Hcover, Hr1.
  unfold BacktestLongShort.go_long.
  rewrite bind_gets in Hcover |- *.
  unfold sized in Hsized. unfold open_size.
  destruct (truthy_units u) eqn:Hu.
  - destruct u as [k|]; [|done]. cbn [order_size].
    rewrite (bind_Ok _ _ _ _ _ _ Hcover).
    destruct (in_double_range k) eqn:Hk.
    + by rewrite (place_buy_order_units _ _ _ _ _ Hr1 Hk).
    + exists OverflowError. split; [by left|].
      rewrite (place_buy_order_too_large _ _ _ _ _ Hr1 Hk).
      by rewrite app_nil_r.
  - simpl in Hsized. rewrite Hsized.
    assert (BacktestLongShort.resolve a s1
            = Ok (Some (match a with Some (Cash q) => q | _ => amount s1 end))
                s1 []) as Hres.
    { rewrite resolve_outcome. by destruct a as [[|q]|]. }
    simpl. fold p.
    destruct (int_of_float (_ / p)) as [e | n] eqn:Hn.
    + exists e. split; [by apply int_of_float_inl in Hn as [-> | ->]; auto |].
      rewrite (bind_Ok _ _ _ _ _ _ Hcover).
      rewrite (bind_quiet _ _ _ _ _ Hres).
      rewrite (place_buy_order_refused _ _ _ _ _ Hr1 Hn).
      by rewrite app_nil_r.
    + rewrite (bind_Ok _ _ _ _ _ _ Hcover).
      rewrite (bind_quiet _ _ _ _ _ Hres).
      by rewrite (place_buy_order_budget _ _ _ _ _ Hr1 Hn).
Qed.

Lemma go_short_sized bar u a s r :
  data s !! bar = Some r → in_double_range (units s) = true →
  sized u a = true →
  let p := price r in
  let s1 := after_unwind p s in
  match open_size u a (amount s1) p with
  | Some n =>
      BacktestLongShort.go_short bar u a s
      = Ok tt (sell_fill n p s1) (unwind_log bar p s ++ [Selling bar n p])
  | None =>
      ∃ e, (e = OverflowError ∨ e = ValueError) ∧
           BacktestLongShort.go_short bar u a s
           = Raise e s1 (unwind_log bar p s)
  end.
Proof.
  intros Hr Hrange Hsized p s1.
  destruct (go_short_unwind bar s r Hr Hrange) as [Hunwind Hr1].
  fold p s1 in Hunwind, Hr1.
  unfold BacktestLongShort.go_short.
  rewrite bind_gets in Hunwind |- *.
  unfold sized in Hsized. unfold open_size.
  destruct (truthy_units u) eqn:Hu.
  - destruct u as [k|]; [|done]. cbn [order_size].
    rewrite (bind_Ok _ _ _ _ _ _ Hunwind).
    destruct (in_double_range k) eqn:Hk.
    + by rewrite (place_sell_order_units _ _ _ _ _ Hr1 Hk).
    + exists OverflowError. split; [by left|].
      rewrite (place_sell_order_too_large _ _ _ _ _ Hr1 Hk).
      by rewrite app_nil_r.
  - simpl in Hsized. rewrite Hsized.
    assert (BacktestLongShort.resolve a s1
            = Ok (Some (match a with Some (Cash q) => q | _ => amount s1 end))
                s1 []) as Hres.
    { rewrite resolve_outcome. by destruct a as [[|q]|]. }
    simpl. fold p.
    destruct (int_of_float (_ / p)) as [e | n] eqn:Hn.
    + exists e. split; [by apply int_of_float_inl in Hn as [-> | ->]; auto |].
      rewrite (bind_Ok _ _ _ _ _ _ Hunwind).
      rewrite (bind_quiet _ _ _ _ _ Hres).
      rewrite (place_sell_order_refused _ _ _ _ _ Hr1 Hn).
      by rewrite app_nil_r.
    + rewrite (bind_Ok _ _ _ _ _ _ Hunwind).
      rewrite (bind_quiet _ _ _ _ _ Hres).
      by rewrite (place_sell_order_budget _ _ _ _ _ Hr1 Hn).
Qed.

(** Two flips in a run: on the sample series without costs the
    long-short SMA strategy goes long at bar 2, flips to short at bar 3
    and back to long at bar 4; each flip is a pair of fills and the
    trade count ends at 5 + 1. *)
Example flips_in_a_run :
  log_of (run (pandas := window_rolling) (LongShortSMA 1 2)
            (init 100 0 0 sample_rows))
  = [Buying 2 10 10;
     Selling 3 10 0.5; Selling 3 10 0.5;
     Buying 4 10 2; Buying 4 (-5) 2;
     ClosedOut 4 (-5) 2] ∧
  trades (state_of (run (pandas := window_rolling) (LongShortSMA 1 2)
                      (init 100 0 0 sample_rows))) = 6%Z.
Proof. by vm_compute. Qed.

(** C4, as stated, fails when the opening order of the flip raises: the
    closing fill has been applied by then.  A short position that goes
    long for all the cash at a bar whose price is zero buys back its
    holding and then fails in [int(amount / price)]; so does one whose
    cash is so large, at a price so small, that the quotient overflows.
    The flip is one fill, and the trade count has grown by one. *)
Lemma flip_can_stop_after_closing :
  ¬ flips_in_two_fills 0 None (Some All) short_at_zero ∧
  ¬ flips_in_two_fills 0 None (Some All) short_at_a_penny ∧
  BacktestLongShort.go_long 0 None (Some All) short_at_zero
  = Raise OverflowError (buy_fill 5 0 short_at_zero) [Buying 0 5 0] ∧
  trades (buy_fill 5 0 short_at_zero) = (trades short_at_zero + 1)%Z ∧
  BacktestLongShort.go_long 0 None (Some All) short_at_a_penny
  = Raise OverflowError (buy_fill 1 0x1p-100 short_at_a_penny)
      [Buying 0 1 0x1p-100].
Proof.
  split; [|split; [|by vm_compute]].
  - intros [H _]. destruct (H eq_refl) as (s' & e1 & e2 & Hgo & _).
    vm_compute in Hgo. discriminate.
  - intros [H _]. destruct (H eq_refl) as (s' & e1 & e2 & Hgo & _).
    vm_compute in Hgo. discriminate.
Qed.

(** C4, amended.  In the long-short policy a direct flip whose intent
    names the size of the new side (a unit count or a budget, as every
    call in the strategies does) starts with the closing fill: going
    long from short buys back the whole holding at the price of the
    bar, going short from long sells the whole holding (a holding that
    a double can count, as is every holding that one order has left).
    When the size of the opening order is a unit count that a double
    can count, or a budget that [int] converts, the opening fill
    follows at the same bar: the flip is exactly these two fills, the
    trade count grows by two and the holding is the size of the opening
    fill, whatever its sign.  Otherwise the flip raises after the
    closing fill: it is that one fill, the trade count has grown by one
    and the holding is zero. *)
Theorem flip_is_two_fills bar u a s r :
  data s !! bar = Some r → in_double_range (units s) = true →
  sized u a = true →
  let p := price r in
  (position s = (-1)%Z →
   let s1 := buy_fill (- units s) p s in
   match open_size u a (amount s1) p with
   | Some n =>
       ∃ s', BacktestLongShort.go_long bar u a s
             = Ok tt s' [Buying bar (- units s)%Z p; Buying bar n p] ∧
             trades s' = (trades s + 2)%Z ∧ units s' = n
   | None =>
       ∃ e, (e = OverflowError ∨ e = ValueError) ∧
            BacktestLongShort.go_long bar u a s
            = Raise e s1 [Buying bar (- units s)%Z p] ∧
            trades s1 = (trades s + 1)%Z ∧ units s1 = 0%Z
   end) ∧
  (position s = 1%Z →
   let s1 := sell_fill (units s) p s in
   match open_size u a (amount s1) p with
   | Some n =>
       ∃ s', BacktestLongShort.go_short bar u a s
             = Ok tt s' [Selling bar (units s) p; Selling bar n p] ∧
             trades s' = (trades s + 2)%Z ∧ units s' = (- n)%Z
   | None =>
       ∃ e, (e = OverflowError ∨ e = ValueError) ∧
            BacktestLongShort.go_short bar u a s
            = Raise e s1 [Selling bar (units s) p] ∧
            trades s1 = (trades s + 1)%Z ∧ units s1 = 0%Z
   end).
Proof.
  intros Hr Hrange Hsized p. split; intros Hpos s1.
  - pose proof (go_long_sized bar u a s r Hr Hrange Hsized) as H.
    cbv zeta in H.
    unfold after_cover, cover_log in H. rewrite Hpos in H.
    change (-1 =? -1)%Z with true in H. cbv iota in H. cbn [app] in H.
    fold p s1 in H.
    destruct (open_size u a (amount s1) p) as [n|].
    + eexists. split; [exact H|]. ledger_simpl. split; lia.
    + destruct H as (e & He & H). exists e. split; [done|].
      split; [exact H|]. unfold s1. ledger_simpl. split; lia.
  - pose proof (go_short_sized bar u a s r Hr Hrange Hsized) as H.
    cbv zeta in H.
    unfold after_unwind, unwind_log in H. rewrite Hpos in H.
    change (1 =? 1)%Z with true in H. cbv iota in H. cbn [app] in H.
    fold p s1 in H.
    destruct (open_size u a (amount s1) p) as [n|].
    + eexists. split; [exact H|]. ledger_simpl. split; lia.
    + destruct H as (e & He & H). exists e. split; [done|].
      split; [exact H|]. unfold s1. ledger_simpl. split; lia.
Qed.

Lemma flip_is_two_fills_witness :
  (∃ s', BacktestLongShort.go_long 4 None (Some All) sample_short
         = Ok tt s' [Buying 4 30 2; Buying 4 44 2] ∧
         trades s' = 2%Z ∧ units s' = 44%Z) ∧
  (∃ s', BacktestLongShort.go_short 4 None (Some All) sample_long
         = Ok tt s' [Selling 4 30 2; Selling 4 44 2] ∧
         trades s' = 2%Z ∧ units s' = (- 44)%Z).
Proof.
  split.
  - exact (proj1 (flip_is_two_fills 4 None (Some All) sample_short
                    (mkBar 2 0) eq_refl eq_refl eq_refl) eq_refl).
  - exact (proj2 (flip_is_two_fills 4 None (Some All) sample_long
                    (mkBar 2 0) eq_refl eq_refl eq_refl) eq_refl).
Defined.

(** ** Converting a budget into units *)


(** A negative budget does occur: with costs, the long-only SMA run on
    the sample series reaches its second buy with a negative cash
    balance, which [amount=self.amount] passes as the budget. *)
Example negative_budget_in_a_run :
  ∃ s1 r,
    run_upto (pandas := window_rolling) (LongOnlySMA 1 2) 2 sample
    = Ok r s1 [Buying 2 10 10; Selling 3 10 0.5] ∧
    (amount s1 <? 0)%float = true ∧
    log_of (run (pandas := window_rolling) (LongOnlySMA 1 2) sample)
    = [Buying 2 10 10; Selling 3 10 0.5; Buying 4 (-8) 2;
       ClosedOut 4 (-8) 2] ∧
    int_of_float (amount s1 / 2) = inr (-8)%Z ∧
    Qfloor (exact (amount s1 / 2)) = (-9)%Z.
Proof. eexists _, _. vm_compute. repeat split; try reflexivity. Qed.



(** ** Prices that are not positive *)




(** ** Long-only strategies *)

(** A loop over [l1 ++ l2] is the loop over [l1] followed, unless it
    raises, by the loop over [l2]. *)
Lemma state_of_for_each_app l1 l2 body bound s :
  state_of (for_each (l1 ++ l2) body bound s) =
    match for_each l1 body bound s with
    | Ok r s1 _ => state_of (for_each l2 body r s1)
    | Raise _ s1 _ => s1
    end.
Proof.
  revert bound s. induction l1 as [|b l1 IH]; intros bound s; simpl; [done|].
  rewrite state_of_bind. unfold bind.
  destruct (body b s) as [[] s1 la|e s1 la]; [|done].
  rewrite IH. by destruct (for_each l1 body (Some b) s1).
Qed.

(** One more bar of an interrupted run. *)
Lemma run_upto_S {pandas : Rolling} st k s b :
  bars_of st s !! k = Some b →
  state_of (run_upto st (S k) s) =
    match run_upto st k s with
    | Ok _ s1 _ => state_of (bar_step st b s1)
    | Raise _ s1 _ => s1
    end.
Proof.
  intros Hb. rewrite !run_upto_prepared.
  rewrite (take_S_r _ _ _ Hb), state_of_for_each_app.
  destruct (for_each (take k _) _ _ _) as [bound s1 l1 | e s1 l1]; [|done].
  simpl. rewrite state_of_bind. by destruct (bar_step st b s1) as [[] ? ?|].
Qed.

Lemma run_upto_all {pandas : Rolling} st k s :
  length (bars_of st s) ≤ k →
  run_upto st k s
  = for_each (bars_of st s) (bar_step st) None (prepared st s).
Proof. intros Hk. by rewrite run_upto_prepared, take_ge. Qed.

Lemma run_upto_framed {pandas : Rolling} st k s :
  data (state_of (run_upto st k s)) = data s.
Proof.
  rewrite run_upto_prepared.
  destruct (loop_framed st (take k (bars_of st s)) None (prepared st s))
    as (_ & _ & _ & -> & _).
  by destruct (prepared_params st s) as (_ & _ & _ & ->).
Qed.

(** A long-only bar keeps a holding non-negative when the cash is not
    negative and the price of the bar is positive. *)
Lemma long_only_step_units b s o :
  long_only_step b s o → (0 <= units s)%Z →
  (0 <=? amount s)%float = true →
  (∀ r, data s !! b = Some r → (0 <? price r)%float = true) →
  (0 <= units (state_of o))%Z.
Proof.
  intros Hstep Hu Ha Hp. destruct Hstep as [|e|r n _ Hr Hn|r _ Hr _]; simpl;
    try done; [|lia].
  pose proof (int_of_float_div_pos _ _ _ Ha (Hp r Hr) Hn). lia.
Qed.

(** C5, as stated, fails in its second half: with transaction costs a
    buy for all the cash leaves the cash negative, a sale at a lower
    price leaves it negative still, and the next buy for "all the cash"
    is a buy of a negative number of units.  On the sample series the
    long-only SMA strategy holds -8 units after the third bar of its
    loop, while its position flag says long. *)
Lemma long_only_holding_goes_negative :
  ¬ long_and_nonnegative (pandas := window_rolling)
      (LongOnlySMA 1 2) sample 3 ∧
  units (state_of (run_upto (pandas := window_rolling)
                     (LongOnlySMA 1 2) 3 sample)) = (-8)%Z ∧
  position (state_of (run_upto (pandas := window_rolling)
                        (LongOnlySMA 1 2) 3 sample)) = 1%Z.
Proof.
  repeat split. intros [_ H]. vm_compute in H. by apply H.
Qed.

(** C5, amended.  For every long-only strategy, every series and every
    choice of windows and threshold, the position flag is flat or long
    after every bar of the loop and at the end of the run.  The engine
    has no margin check, and the holding is only known to stay
    non-negative as long as the cash is: after [k] bars of the loop the
    holding is not negative when the run started without a short
    holding, the prices are positive and the cash was not negative
    before each of these bars. *)
Theorem long_only_never_short {pandas : Rolling} st s k :
  long_only st = true →
  let s' := state_of (run_upto st k s) in
  let s'' := state_of (run st s) in
  is_flat_or_long s' ∧ is_flat_or_long s'' ∧
  ((0 <= units s)%Z →
   Forall (λ r, (0 <? price r)%float = true) (data s) →
   (∀ j, j < k →
         (0 <=? amount (state_of (run_upto st j s)))%float = true) →
   (0 <= units s')%Z).
Proof.
  intros Hlo s' s''.
  assert (∀ bars, is_flat_or_long
            (state_of (for_each bars (bar_step st) None (prepared st s))))
    as Hflat.
  { intros bars. apply for_each_preserves.
    - intros b s0. apply (long_only_step_position b).
      by apply long_only_bar_step.
    - left. by destruct (prepared_ledger st s) as (-> & _). }
  split; [|split].
  - unfold s'. rewrite run_upto_prepared. apply Hflat.
  - unfold s''. destruct (run_final_state st s) as [->|[p ->]].
    + apply Hflat.
    + exact (Hflat (bars_of st s)).
  - intros Hu Hprices. unfold s'. clear s' s''.
    induction k as [|k IH]; intros Hcash.
    + rewrite run_upto_prepared. simpl.
      by destruct (prepared_ledger st s) as (_ & _ & _ & ->).
    + assert (0 <= units (state_of (run_upto st k s)))%Z as Hk.
      { apply IH. intros j Hj. apply Hcash. lia. }
      destruct (bars_of st s !! k) as [b|] eqn:Hb.
      * rewrite (run_upto_S _ _ _ _ Hb).
        pose proof (Hcash k (Nat.lt_succ_diag_r k)) as Ha.
        pose proof (run_upto_framed st k s) as Hd.
        destruct (run_upto st k s) as [bound s1 l1 | e s1 l1]; [|done].
        simpl in Hk, Ha, Hd.
        apply (long_only_step_units b s1); [by apply long_only_bar_step|..];
          try done.
        intros r Hr. rewrite Hd in Hr.
        by apply (proj1 (Forall_lookup _ _) Hprices b r).
      * apply lookup_ge_None in Hb.
        rewrite run_upto_all by lia. by rewrite run_upto_all in Hk.
Qed.

Lemma long_only_never_short_witness :
  is_flat_or_long
    (state_of (run_upto (pandas := window_rolling) (LongOnlySMA 1 2) 3
                 (init 100 0 0 sample_rows))) ∧
  (0 <= units
          (state_of (run_upto (pandas := window_rolling) (LongOnlySMA 1 2) 3
                       (init 100 0 0 sample_rows))))%Z.
Proof.
  destruct (long_only_never_short (pandas := window_rolling)
              (LongOnlySMA 1 2) (init 100 0 0 sample_rows) 3 eq_refl)
    as (Hflat & _ & Hunits).
  split; [exact Hflat|].
  apply Hunits; [discriminate | repeat constructor |].
  intros j Hj. destruct j as [|[|[|j]]]; [reflexivity..|lia].
Defined.

(** ** Runs that find no bar *)

(** C8.  The claim is that a run whose window is at least as long as the
    series completes normally without trades.  The code does not: the
    loop body never runs, the loop variable [bar] stays unbound, and the
    call [self.close_out(bar)] after the loop raises
    [UnboundLocalError].  No fill has been applied and the trade count
    is zero when it does. *)
Theorem window_not_shorter_than_series_raises {pandas : Rolling} st s :
  length (data s) ≤ loop_window st →
  ∃ s', run st s = Raise UnboundLocalError s' [] ∧
        trades s' = 0%Z ∧ units s' = units s.
Proof.
  intros Hlen. exists (prepared st s).
  rewrite (empty_loop_raises _ _ Hlen).
  by destruct (prepared_ledger st s) as (_ & -> & _ & ->).
Qed.

Lemma window_not_shorter_than_series_raises_witness :
  ∃ s', run (pandas := window_rolling) (LongShortSMA 42 252)
          (init 10000 0 0 sample_rows)
        = Raise UnboundLocalError s' [] ∧
        trades s' = 0%Z ∧ units s' = 0%Z.
Proof.
  apply (window_not_shorter_than_series_raises (LongShortSMA 42 252)
           (init 10000 0 0 sample_rows)).
  simpl. lia.
Defined.

(** ** Repeated runs *)

(** C6.  A strategy run twice in succession on the same object, with the
    same parameters, repeats itself: the second run starts from the
    initial amount, flat and with a zero trade count, it completes, and
    it yields the same sequence of fills and the same summary (indeed
    the same final object) as the first.  The first run starts from an
    object without holding, as [__init__] or any completed run leaves
    it. *)
Theorem second_run_repeats_the_first {pandas : Rolling} st s0 s1 log1 :
  units s0 = 0%Z → run st s0 = Ok tt s1 log1 →
  (position (prepared st s1) = 0%Z ∧ trades (prepared st s1) = 0%Z ∧
   amount (prepared st s1) = initial_amount s0 ∧
   units (prepared st s1) = 0%Z) ∧
  ∃ s2 log2, run st s1 = Ok tt s2 log2 ∧ log2 = log1 ∧
             summary s2 = summary s1 ∧ s2 = s1.
Proof.
  intros Hu0 Hrun.
  pose proof (run_outcome st s0) as H. simpl in H. rewrite Hrun in H.
  destruct H as (s' & fills & b & r & Hloop & _ & _ & -> & ->).
  pose proof (loop_framed st (bars_of st s0) None (prepared st s0)) as Hf.
  rewrite Hloop in Hf. destruct Hf as (Hi & Hftc & Hptc & Hdata & Hcols).
  simpl in *.
  destruct (prepared_params st s0) as (Hi0 & Hftc0 & Hptc0 & Hdata0).
  set (s1 := closed (price r) s') in *.
  assert (prepared st s1 = prepared st s0) as Hprep.
  { apply prepared_again; unfold s1; ledger_simpl; congruence. }
  assert (bars_of st s1 = bars_of st s0) as Hbars.
  { unfold bars_of, s1. ledger_simpl. congruence. }
  split.
  - rewrite Hprep.
    destruct (prepared_ledger st s0) as (-> & -> & -> & ->). done.
  - exists s1, (fills ++ [ClosedOut b (units s') (price r)]).
    repeat split. rewrite run_prepared, Hprep, Hbars, <- run_prepared.
    exact Hrun.
Qed.

Lemma second_run_repeats_the_first_witness :
  ∃ s2 log2,
    run (pandas := window_rolling) (LongShortSMA 1 2)
      (state_of (run (pandas := window_rolling) (LongShortSMA 1 2) sample))
    = Ok tt s2 log2 ∧
    log2 = log_of (run (pandas := window_rolling) (LongShortSMA 1 2) sample) ∧
    summary s2
    = summary (state_of (run (pandas := window_rolling) (LongShortSMA 1 2)
                           sample)) ∧
    s2 = state_of (run (pandas := window_rolling) (LongShortSMA 1 2) sample).
Proof.
  apply (second_run_repeats_the_first (pandas := window_rolling)
           (LongShortSMA 1 2) sample
           (state_of (run (pandas := window_rolling) (LongShortSMA 1 2)
                        sample))
           (log_of (run (pandas := window_rolling) (LongShortSMA 1 2) sample))
           eq_refl).
  by destruct (run (LongShortSMA 1 2) sample) as [[] ? ?|] eqn:E;
    [|vm_compute in E].
Defined.

(** ** Warm-up *)

Lemma prepared_loop_column {pandas : Rolling} st s :
  cols (prepared st s) !! loop_column st = Some (loop_indicator st s).
Proof.
  rewrite prepared_cols.
  destruct st; unfold indicator_columns; by rewrite lookup_insert_eq.
Qed.




(** * Further properties of the engine *)

(** ** Position and holding *)

Lemma bar_step_coherent st b s :
  coherent s →
  wp (bar_step st b) (λ _ s' _, coherent s') (λ _ s' _, coherent s') s.
Proof.
  intros [Hpos Hflat].
  destruct st; cbn [bar_step]; unfold_bar_step; wp_exec; vc_simpl;
    unfold coherent; ledger_cbn; (split; [lia|intros; lia]).
Qed.

Lemma loop_coherent st bars bound s :
  coherent s → coherent (state_of (for_each bars (bar_step st) bound s)).
Proof.
  apply for_each_preserves. intros b s0 Hs0.
  by apply (wp_outcome _ (λ s' _, coherent s')), bar_step_coherent.
Qed.

(** X1.  In every strategy, started on an object without holding, the
    position flag is flat, long or short after every bar and at the end
    of the run, and whenever it is flat the holding is zero.  A run that
    ends with a flat flag therefore closes out a holding of zero units
    (which the trade count still counts). *)
Theorem flat_position_means_no_holding {pandas : Rolling} st s k :
  units s = 0%Z →
  coherent (state_of (run_upto st k s)) ∧
  coherent (state_of (run st s)) ∧
  (∀ s' fills b n p,
     run st s = Ok tt s' (fills ++ [ClosedOut b n p]) →
     position s' = 0%Z → n = 0%Z).
Proof.
  intros Hu.
  assert (coherent (prepared st s)) as Hprep.
  { destruct (prepared_ledger st s) as (Hp & _ & _ & Hun).
    split; [by left|]. intros _. by rewrite Hun. }
  split; [|split].
  - rewrite run_upto_prepared. by apply loop_coherent.
  - destruct (run_final_state st s) as [->|[p ->]].
    + by apply loop_coherent.
    + pose proof (loop_coherent st (bars_of st s) None _ Hprep) as [Hpos _].
      split; [exact Hpos|done].
  - intros s' fills b n p Hrun Hflat.
    pose proof (run_outcome st s) as H. simpl in H. rewrite Hrun in H.
    destruct H as (s1 & fills' & b' & r & Hloop & _ & _ & -> & Hlog).
    apply app_inj_tail in Hlog as [_ [= _ -> _]].
    pose proof (loop_coherent st (bars_of st s) None _ Hprep) as [_ Hzero].
    rewrite Hloop in Hzero. by apply Hzero.
Qed.

Lemma flat_position_means_no_holding_witness :
  coherent (state_of (run_upto (pandas := window_rolling)
                        (LongShortMeanReversion 2 1) 3 sample)) ∧
  coherent (state_of (run (pandas := window_rolling)
                        (LongShortMeanReversion 2 1) sample)).
Proof.
  destruct (flat_position_means_no_holding (pandas := window_rolling)
              (LongShortMeanReversion 2 1) sample 3 eq_refl)
    as (H1 & H2 & _).
  by split.
Defined.

(** ** The ledger and its history *)

Lemma total_units_app l1 l2 :
  total_units (l1 ++ l2) = (total_units l1 + total_units l2)%Z.
Proof. induction l1 as [|e l1 IH]; simpl; lia. Qed.

Lemma replay_app l1 l2 s : replay (l1 ++ l2) s = replay l2 (replay l1 s).
Proof. unfold replay. apply foldl_app. Qed.

(** Replaying a record needs no more of the object than its ledger and
    its costs. *)
Lemma replay_ledger l s t :
  ledger s = ledger t → ftc s = ftc t → ptc s = ptc t →
  ledger (replay l s) = ledger (replay l t) ∧
  ftc (replay l s) = ftc s ∧ ptc (replay l s) = ptc s.
Proof.
  revert s t. induction l as [|e l IH]; intros s t Hl Hf Hp; [done|].
  cbn [replay foldl]. fold (replay l (apply_entry e s)).
  fold (replay l (apply_entry e t)).
  assert (ledger (apply_entry e s) = ledger (apply_entry e t) ∧
          ftc (apply_entry e s) = ftc s ∧ ptc (apply_entry e s) = ptc s ∧
          ftc (apply_entry e t) = ftc t ∧ ptc (apply_entry e t) = ptc t)
    as (Hl' & Hfs & Hps & Hft & Hpt).
  { unfold ledger in *. injection Hl as Ha Hu Ht.
    destruct e; ledger_cbn; cbn [apply_entry]; ledger_cbn;
      by rewrite ?Ha, ?Hu, ?Ht, ?Hf, ?Hp. }
  destruct (IH (apply_entry e s) (apply_entry e t)) as (H1 & H2 & H3);
    [done|congruence|congruence|].
  split; [done|]. split; congruence.
Qed.

#[export] Instance booked_stepwise : Stepwise booked.
Proof.
  split; unfold booked.
  - done.
  - intros s1 s2 s3 l1 l2 (Hf1 & Hp1 & Hl1) (Hf2 & Hp2 & Hl2).
    destruct (replay_ledger l1 s1 s1) as (_ & Hf & Hp); try done.
    destruct (replay_ledger l2 s2 (replay l1 s1)) as (Hl & _);
      [done|congruence|congruence|].
    rewrite replay_app. repeat split; congruence.
Qed.

Lemma bar_step_booked st b : respects booked (bar_step st b).
Proof.
  destruct st; cbn [bar_step]; unfold_bar_step; respects_tac;
    unfold booked; done.
Qed.

#[export] Instance stocked_stepwise : Stepwise stocked.
Proof.
  split; unfold stocked.
  - intros s. simpl. lia.
  - intros s1 s2 s3 l1 l2 -> ->. rewrite total_units_app. lia.
Qed.

Lemma bar_step_stocked st b : respects stocked (bar_step st b).
Proof.
  destruct st; cbn [bar_step]; unfold_bar_step; respects_tac;
    unfold stocked; ledger_simpl; lia.
Qed.

(** X2.  The ledger agrees with the history of a run.  However the run
    ends, its cash, holding and trade count are those obtained from the
    object as the preparation left it (cash at the initial amount, trade
    count zero) by applying to it, in their order, the updates of the
    entries recorded: the update of [place_buy_order] for a buy, of
    [place_sell_order] for a sell, of [close_out] for the close-out.
    Nothing moves the ledger but the entries of the record.  The
    holding is also the one the run started with plus the units bought
    minus the units sold and closed out. *)
Theorem ledger_matches_history {pandas : Rolling} st s :
  ledger (state_of (run st s))
  = ledger (replay (log_of (run st s)) (prepared st s)) ∧
  units (state_of (run st s))
  = (units s + total_units (log_of (run st s)))%Z.
Proof.
  pose proof (run_outcome st s) as H. simpl in H.
  pose proof (respects_for_each booked (bars_of st s) (bar_step st) None
                (λ b _, bar_step_booked st b) (prepared st s)) as Hloop.
  pose proof (respects_for_each stocked (bars_of st s) (bar_step st) None
                (λ b _, bar_step_stocked st b) (prepared st s)) as Hunits.
  destruct (prepared_ledger st s) as (_ & _ & _ & Hu).
  unfold booked in Hloop. unfold stocked in Hunits. rewrite Hu in Hunits.
  destruct Hloop as (Hf & Hp & Hl).
  destruct (run st s) as [[] s' log|e s' log]; simpl.
  - destruct H as (s1 & fills & b & r & Hrun & _ & _ & -> & ->).
    rewrite Hrun in Hl, Hunits, Hf, Hp. simpl in Hl, Hunits, Hf, Hp.
    rewrite replay_app, total_units_app. cbn [replay foldl apply_entry].
    fold (replay fills (prepared st s)). split.
    + unfold ledger in *. injection Hl as Ha Hun Ht. ledger_cbn.
      by rewrite Ha, Hun, Ht.
    + ledger_cbn. simpl. lia.
  - destruct H as [(bound & Hrun & _)|Hrun];
      rewrite Hrun in Hl, Hunits; by simpl in Hl, Hunits.
Qed.

(** ** The exceptions of a run *)



(** ** The order of the record *)

Lemma seq_split_lt a n pre b post :
  seq a n = pre ++ b :: post → Forall (λ x, x < b) pre.
Proof.
  revert a n. induction pre as [|x pre IH]; intros a n Hsplit; [constructor|].
  destruct n as [|n]; [done|]. simpl in Hsplit. injection Hsplit as <- Hrest.
  constructor; [|by eapply IH].
  assert (b ∈ seq (S a) n) as Hb by (rewrite Hrest; set_solver).
  apply elem_of_seq in Hb. lia.
Qed.

Lemma take_seq_split_lt k a n pre b post :
  take k (seq a n) = pre ++ b :: post → Forall (λ x, x < b) pre.
Proof. rewrite take_seq. apply seq_split_lt. Qed.

(** Two reads of the same cell give the same value. *)
Ltac unify_reads :=
  repeat match goal with
  | H1 : ?x = Some ?a, H2 : ?x = Some ?b |- _ =>
      assert (b = a) by congruence; subst b; clear H2
  end.

Lemma bar_step_at_most st b s :
  wp (bar_step st b)
    (λ _ _ l, length l ≤ if one_fill_per_bar st then 1 else 2)
    (λ _ _ l, length l ≤ if one_fill_per_bar st then 1 else 2) s.
Proof.
  destruct st; cbn [bar_step one_fill_per_bar]; unfold_bar_step; wp_exec;
    try (simpl; lia); vc_simpl; unify_reads; exfalso;
    eauto using gtb_ltb_excl, gtb_leb_excl.
Qed.

Lemma wp_and {A} (m : M A) (Q1 Q2 : A → Backtest → list Event → Prop)
    (X1 X2 : Exn → Backtest → list Event → Prop) s :
  wp m Q1 X1 s → wp m Q2 X2 s →
  wp m (λ a s' l, Q1 a s' l ∧ Q2 a s' l) (λ e s' l, X1 e s' l ∧ X2 e s' l) s.
Proof. unfold wp. by destruct (m s). Qed.

(** What a bar adds to the record: orders at that bar, one or two. *)
Lemma bar_step_record st b s :
  let P := λ l : list Event,
    Forall (λ e, is_order e = true ∧ event_bar e = b) l ∧
    length l ≤ if one_fill_per_bar st then 1 else 2 in
  wp (bar_step st b) (λ _ _ l, P l) (λ _ _ l, P l) s.
Proof.
  intros P. eapply wp_mono;
    [| |apply (wp_and _ _ _ _ _ _
                 (proj2 (wp_outcome _ (λ _ l, Forall _ l) s)
                    (bar_step_orders_at st b s))
                 (bar_step_at_most st b s))]; done.
Qed.

Lemma loop_chronological st a n k bound s :
  let o := for_each (take k (seq a n)) (bar_step st) bound s in
  Forall (λ e, is_order e = true ∧ event_bar e ∈ take k (seq a n)) (log_of o) ∧
  chronological (log_of o) ∧
  (one_fill_per_bar st = true → strictly_chronological (log_of o)).
Proof.
  set (bars := take k (seq a n)).
  set (I := λ (pre : list nat) (l : list Event),
         Forall (λ e, is_order e = true ∧ event_bar e ∈ pre) l ∧
         chronological l ∧
         (one_fill_per_bar st = true → strictly_chronological l)).
  cut (wp (for_each bars (bar_step st) bound) (λ _ _ l, I bars l)
         (λ _ _ l, I bars l) s).
  { intros H. by apply (wp_outcome _ (λ _ l, I bars l)) in H. }
  apply (wp_for_each (λ pre _ l, I pre l)).
  { repeat split; constructor. }
  intros pre b post s0 l Hsplit (Hin & Hchr & Hstrict).
  pose proof (take_seq_split_lt _ _ _ _ _ _ Hsplit) as Hlt.
  assert (∀ e, e ∈ l → event_bar e < b) as Hbefore.
  { intros e He. apply (proj1 (Forall_forall _ _) Hin) in He as [_ He].
    by apply (proj1 (Forall_forall _ _) Hlt). }
  assert (∀ l', Forall (λ e, is_order e = true ∧ event_bar e = b) l' →
                length l' ≤ (if one_fill_per_bar st then 1 else 2) →
                I (pre ++ [b]) (l ++ l')) as Hstep.
  { intros l' Hl' Hlen. repeat split.
    - apply Forall_app. split.
      + eapply Forall_impl; [exact Hin|]. intros e [? ?]. set_solver.
      + eapply Forall_impl; [exact Hl'|]. intros e [? ->]. set_solver.
    - apply StronglySorted_app_2; [|done|].
      + intros e1 e2 He1 He2.
        apply (proj1 (Forall_forall _ _) Hl') in He2 as [_ ->].
        apply Hbefore in He1. lia.
      + clear Hlen. induction l' as [|e l' IH]; constructor.
        * apply IH. by inversion Hl'.
        * inversion Hl' as [|? ? [_ He] Hrest]; subst.
          eapply Forall_impl; [exact Hrest|]. intros e' [_ ->]. lia.
    - intros Hone. rewrite Hone in Hlen.
      apply StronglySorted_app_2; [|by apply Hstrict|].
      + intros e1 e2 He1 He2.
        apply (proj1 (Forall_forall _ _) Hl') in He2 as [_ ->].
        by apply Hbefore.
      + destruct l' as [|e [|e' l']]; simpl in Hlen; [constructor| |lia].
        repeat constructor. }
  eapply wp_mono; [| |apply (bar_step_record st b s0)].
  - intros _ _ l' [Hl' Hlen]. by apply Hstep.
  - intros _ _ l' [Hl' Hlen]. destruct (Hstep l' Hl' Hlen) as (H1 & H2 & H3).
    repeat split; [|done|done].
    eapply Forall_impl; [exact H1|]. intros e [? He]. split; [done|].
    fold bars in Hsplit. rewrite Hsplit, elem_of_app, elem_of_cons.
    apply elem_of_app in He as [?|?%list_elem_of_singleton]; auto.
Qed.

(** X5.  The record of a run is in the order of the bars: no fill is
    recorded at a bar earlier than a fill recorded before it, and the
    close-out comes last.  In the strategies that never flip within a
    bar (the long-only ones and the long-short mean reversion) the bars
    of the orders are strictly increasing, after any number of bars of
    the loop. *)
Theorem record_is_chronological {pandas : Rolling} st s k :
  chronological (log_of (run st s)) ∧
  chronological (log_of (run_upto st k s)) ∧
  (one_fill_per_bar st = true →
   strictly_chronological (log_of (run_upto st k s))).
Proof.
  assert (∀ k, log_of (run_upto st k s)
               = log_of (for_each (take k (bars_of st s)) (bar_step st) None
                           (prepared st s))) as Hupto.
  { intros k'. by rewrite run_upto_prepared. }
  split; [|split].
  - pose proof (run_outcome st s) as H. simpl in H.
    pose proof (loop_chronological st (loop_window st)
                  (length (data s) - loop_window st)
                  (length (data s) - loop_window st) None (prepared st s))
      as (Hin & Hchr & _).
    rewrite firstn_all2 in Hin, Hchr by (by rewrite length_seq).
    fold (range (loop_window st) (length (data s))) in Hin, Hchr.
    fold (bars_of st s) in Hin, Hchr.
    destruct (run st s) as [[] s' log|e s' log]; simpl.
    + destruct H as (s1 & fills & b & r & Hloop & Hlast & _ & _ & ->).
      rewrite Hloop in Hin, Hchr. simpl in Hin, Hchr.
      apply StronglySorted_app_2; [|done|repeat constructor].
      intros e1 e2 He1 He2. apply list_elem_of_singleton in He2 as ->. simpl.
      apply (proj1 (Forall_forall _ _) Hin) in He1 as [_ He1].
      assert (loop_window st < length (data s)) as Hlen.
      { apply elem_of_range in He1. lia. }
      unfold bars_of in Hlast. rewrite (last_range _ _ Hlen) in Hlast.
      injection Hlast as <-. apply elem_of_range in He1. lia.
    + destruct H as [(bound & Hloop & _)|Hloop]; by rewrite Hloop in Hchr.
  - rewrite Hupto. apply loop_chronological.
  - rewrite Hupto. apply loop_chronological.
Qed.

Lemma record_is_chronological_witness :
  strictly_chronological
    (log_of (run_upto (pandas := window_rolling)
               (LongShortMeanReversion 2 1) 3 sample)).
Proof.
  by apply (record_is_chronological (pandas := window_rolling)
              (LongShortMeanReversion 2 1) sample 3).
Defined.

(** ** Fills per bar *)

Lemma fills_at_app b l1 l2 :
  fills_at b (l1 ++ l2) = fills_at b l1 + fills_at b l2.
Proof. unfold fills_at. by rewrite List.filter_app, length_app. Qed.

Lemma fills_at_le_length b l : fills_at b l ≤ length l.
Proof. unfold fills_at. apply List.filter_length_le. Qed.

Lemma fills_at_other b l :
  Forall (λ e, event_bar e ≠ b) l → fills_at b l = 0.
Proof.
  unfold fills_at. induction 1 as [|e l He _ IH]; [done|]. simpl.
  destruct (Nat.eqb_spec (event_bar e) b); [done|].
  by rewrite andb_false_r.
Qed.

Lemma loop_fills_at st a n k bound s b :
  fills_at b (log_of (for_each (take k (seq a n)) (bar_step st) bound s))
  ≤ if one_fill_per_bar st then 1 else 2.
Proof.
  set (bars := take k (seq a n)).
  set (I := λ (pre : list nat) (l : list Event),
         Forall (λ e, event_bar e ∈ pre) l ∧
         ∀ b, fills_at b l ≤ if one_fill_per_bar st then 1 else 2).
  cut (wp (for_each bars (bar_step st) bound)
         (λ _ _ l, ∀ b, fills_at b l ≤ if one_fill_per_bar st then 1 else 2)
         (λ _ _ l, ∀ b, fills_at b l ≤ if one_fill_per_bar st then 1 else 2)
         s).
  { intros H.
    exact (proj1 (wp_outcome _
                    (λ _ l, ∀ b, fills_at b l
                                 ≤ if one_fill_per_bar st then 1 else 2) s)
             H b). }
  eapply wp_mono;
    [| |apply (wp_for_each (λ pre _ l, I pre l)
                 (λ _ _ l, ∀ b, fills_at b l
                                ≤ if one_fill_per_bar st then 1 else 2))].
  - by intros _ _ l [_ H].
  - done.
  - split; [constructor|]. intros b'. unfold fills_at. simpl.
    destruct (one_fill_per_bar st); lia.
  - intros pre b0 post s0 l Hsplit [Hin Hcount].
    pose proof (take_seq_split_lt _ _ _ _ _ _ Hsplit) as Hlt.
    assert (fills_at b0 l = 0) as Hnone.
    { apply fills_at_other. eapply Forall_impl; [exact Hin|].
      intros e He. apply (proj1 (Forall_forall _ _) Hlt) in He. lia. }
    assert (∀ l', Forall (λ e, is_order e = true ∧ event_bar e = b0) l' →
                  length l' ≤ (if one_fill_per_bar st then 1 else 2) →
                  I (pre ++ [b0]) (l ++ l')) as Hstep.
    { intros l' Hl' Hlen. split.
      - apply Forall_app. split.
        + eapply Forall_impl; [exact Hin|]. intros e ?.
          apply elem_of_app. by left.
        + eapply Forall_impl; [exact Hl'|]. intros e [_ ->].
          apply elem_of_app. right. by left.
      - intros b'. rewrite fills_at_app.
        destruct (decide (b' = b0)) as [->|Hne].
        + rewrite Hnone. pose proof (fills_at_le_length b0 l'). lia.
        + rewrite (fills_at_other b' l').
          * specialize (Hcount b'). lia.
          * eapply Forall_impl; [exact Hl'|]. intros e [_ ->]. done. }
    eapply wp_mono; [| |apply (bar_step_record st b0 s0)].
    + intros _ _ l' [Hl' Hlen]. by apply Hstep.
    + intros _ _ l' [Hl' Hlen]. by apply (Hstep l' Hl' Hlen).
Qed.

(** X6.  No bar of a run records more than two orders, and no bar of a
    long-only run or of a long-short mean-reversion run records more
    than one: only the long-short SMA and momentum strategies flip
    within a bar. *)
Theorem at_most_two_fills_per_bar {pandas : Rolling} st s b :
  fills_at b (log_of (run st s)) ≤ if one_fill_per_bar st then 1 else 2.
Proof.
  pose proof (run_outcome st s) as H. simpl in H.
  pose proof (loop_fills_at st (loop_window st)
                (length (data s) - loop_window st)
                (length (data s) - loop_window st) None (prepared st s) b)
    as Hloop.
  rewrite firstn_all2 in Hloop by (by rewrite length_seq).
  fold (range (loop_window st) (length (data s))) in Hloop.
  fold (bars_of st s) in Hloop.
  destruct (run st s) as [[] s' log|e s' log]; simpl.
  - destruct H as (s1 & fills & b' & r & Hl & _ & _ & _ & ->).
    rewrite Hl in Hloop. simpl in Hloop. rewrite fills_at_app.
    unfold fills_at at 2. simpl. lia.
  - destruct H as [(bound & Hl & _)|Hl]; by rewrite Hl in Hloop.
Qed.

(** ** Staying in the market *)

Lemma bar_step_invested st b s :
  one_fill_per_bar st = false → position s ≠ 0%Z →
  wp (bar_step st b) (λ _ s' _, position s' ≠ 0%Z)
    (λ _ s' _, position s' ≠ 0%Z) s.
Proof.
  intros Hflip Hpos.
  destruct st; try discriminate; cbn [bar_step]; unfold_bar_step; wp_exec;
    vc_simpl; ledger_cbn; lia.
Qed.

Lemma loop_invested st bars bound s :
  one_fill_per_bar st = false → position s ≠ 0%Z →
  position (state_of (for_each bars (bar_step st) bound s)) ≠ 0%Z.
Proof.
  intros Hflip. apply (for_each_preserves (λ s, position s ≠ 0%Z)).
  intros b s0 Hs0.
  by apply (wp_outcome _ (λ s' _, position s' ≠ 0%Z)), bar_step_invested.
Qed.

(** X7.  The long-short SMA and momentum strategies never return to
    flat: once the position flag is long or short after some bar of the
    loop, it is long or short after every later bar and when the run
    ends (the close-out empties the holding but leaves the flag). *)
Theorem long_short_stays_invested {pandas : Rolling} st s j k :
  one_fill_per_bar st = false → j ≤ k →
  position (state_of (run_upto st j s)) ≠ 0%Z →
  position (state_of (run_upto st k s)) ≠ 0%Z ∧
  position (state_of (run st s)) ≠ 0%Z.
Proof.
  intros Hflip Hjk. rewrite !run_upto_prepared.
  set (bars := bars_of st s). set (s0 := prepared st s). intros Hj.
  assert (∀ rest, position
            (state_of (for_each (take j bars ++ rest) (bar_step st) None s0))
            ≠ 0%Z) as Hrest.
  { intros rest. rewrite state_of_for_each_app.
    destruct (for_each (take j bars) (bar_step st) None s0)
      as [r s1 l|e s1 l]; [|done].
    by apply loop_invested. }
  split.
  - rewrite <- (take_drop j (take k bars)), take_take, Nat.min_l by done.
    apply Hrest.
  - pose proof (Hrest (drop j bars)) as Hall. rewrite take_drop in Hall.
    by destruct (run_final_state st s) as [->|[p ->]].
Qed.

Lemma long_short_stays_invested_witness :
  position (state_of (run_upto (pandas := window_rolling)
                        (LongShortSMA 1 2) 3 sample)) ≠ 0%Z ∧
  position (state_of (run (pandas := window_rolling)
                        (LongShortSMA 1 2) sample)) ≠ 0%Z.
Proof.
  apply (long_short_stays_invested (pandas := window_rolling)
           (LongShortSMA 1 2) sample 1 3);
    [reflexivity|lia|vm_compute; discriminate].
Defined.

(** ** The cells that a bar reads *)

Lemma indicator_column_present {pandas : Rolling} st d c name :
  name ∈ column_names st →
  ∃ w, indicator_columns st d c !! name
       = Some (rolling_mean w (loop_source st <$> d)).
Proof.
  intros Hname. apply list_elem_of_In in Hname.
  destruct st; cbn [column_names In indicator_columns loop_source] in *;
    repeat match goal with
    | H : _ ∨ _ |- _ => destruct H as [<-|H]
    | H : False |- _ => destruct H
    end;
    rewrite ?lookup_insert_eq, ?(lookup_insert_ne _ "SMA2" "SMA1"),
      ?lookup_insert_eq by done;
    eauto.
Qed.

(** The cells that the bar [b] of [st] reads, on an object that carries
    the indicator columns of its frame. *)
Lemma indicator_cells {pandas : Rolling} st c b s name :
  cols s = indicator_columns st (data s) c → b < length (data s) →
  name ∈ column_names st →
  ∃ w col v, cols s !! name = Some col ∧ col !! b = Some v ∧
             col = rolling_mean w (loop_source st <$> data s).
Proof.
  intros Hc Hb Hname.
  destruct (indicator_column_present st (data s) c name Hname) as [w Hw].
  destruct (lookup_lt_is_Some_2 (rolling_mean w (loop_source st <$> data s)) b)
    as [v Hv].
  { by rewrite rolling_mean_length, length_fmap. }
  exists w, (rolling_mean w (loop_source st <$> data s)), v.
  by rewrite Hc.
Qed.

Lemma run_after_loop {pandas : Rolling} st s bound s1 l :
  for_each (bars_of st s) (bar_step st) None (prepared st s) = Ok bound s1 l →
  run st s =
    match close_out_after bound s1 with
    | Ok b s2 l2 => Ok b s2 (l ++ l2)
    | Raise e s2 l2 => Raise e s2 (l ++ l2)
    end.
Proof.
  intros Hloop. rewrite run_phases.
  rewrite (bind_quiet _ _ _ _ _ (prepare_Ok st s)), bind_gets.
  destruct (prepared_params st s) as (_ & _ & _ & ->).
  by rewrite (bind_Ok _ _ _ _ _ _ Hloop).
Qed.

(** The comparisons of the known cells. *)
Ltac nan_cells :=
  repeat match goal with
  | H : is_nan ?v = true |- _ => apply is_nan_eq in H; subst v
  end.

Ltac signals :=
  unfold gtb, geb in *;
  rewrite ?sub_nan_l, ?add_nan_l, ?ltb_nan_l, ?ltb_nan_r, ?leb_nan_l,
    ?leb_nan_r, ?ltb_irrefl in *;
  repeat match goal with
  | H : negb _ = true |- _ => apply negb_true_iff in H
  | H : (_ && _) = true |- _ => apply andb_true_iff in H as [? ?]
  end.

(** ** A price that never moves *)

(** The reads of a bar that cannot fail. *)
Ltac absurd_read :=
  match goal with
  | H : cols _ !! _ = None ∨ _ |- _ =>
      destruct H as [H|(? & H & ?)]; congruence
  | H : data _ !! _ = None |- _ => congruence
  end.

Lemma flat_cells {pandas : Rolling} st c c0 b s name :
  flat_frame c0 (data s) →
  cols s = indicator_columns st (data s) c → b < length (data s) →
  name ∈ column_names st →
  ∃ col v, cols s !! name = Some col ∧ col !! b = Some v ∧
           (is_nan v = true ∨ v = flat_level st c0).
Proof.
  intros Hflat Hc Hb Hname.
  destruct (indicator_cells st c b s name Hc Hb Hname)
    as (w & col & v & Hcol & Hv & ->).
  exists (rolling_mean w (loop_source st <$> data s)), v.
  split; [done|]. split; [done|].
  destruct (decide (1 ≤ w ≤ S b)) as [Hw|Hw].
  - right.
    assert (rolling_mean w (loop_source st <$> data s) !! b
            = Some (flat_level st c0)) as Hlevel; [|congruence].
    apply rolling_mean_level; [done|by rewrite length_fmap|].
    intros j Hj.
    destruct (lookup_lt_is_Some_2 (data s) j) as [r Hr]; [lia|].
    rewrite list_lookup_fmap, Hr. simpl. f_equal.
    destruct (proj1 (Forall_lookup _ _) Hflat j r Hr) as [Hp Hret].
    by destruct st.
  - left. by apply (rolling_mean_warm_up w (loop_source st <$> data s) b v).
Qed.

(** The cells of the columns that [st] reads at the bar, by name. *)
Ltac known_cells Hcells :=
  try (destruct (Hcells "SMA1" ltac:(by repeat constructor))
         as (? & ? & ? & ? & [?| ->]));
  try (destruct (Hcells "SMA2" ltac:(by repeat constructor))
         as (? & ? & ? & ? & [?| ->]));
  try (destruct (Hcells "momentum" ltac:(by repeat constructor))
         as (? & ? & ? & ? & [?| ->]));
  try (destruct (Hcells "SMA" ltac:(by repeat constructor))
         as (? & ? & ? & ? & [?| ->]));
  clear Hcells.

Lemma bar_step_quiet {pandas : Rolling} st c c0 b s :
  quiet_on_flat st c0 = true → flat_frame c0 (data s) →
  cols s = indicator_columns st (data s) c → position s = 0%Z →
  b < length (data s) →
  wp (bar_step st b) (λ _ s' l, s' = s ∧ l = []) (λ _ _ _, False) s.
Proof.
  intros Hq Hflat Hc Hpos Hb.
  pose proof (λ name, flat_cells st c c0 b s name Hflat Hc Hb) as Hcells.
  destruct (lookup_lt_is_Some_2 (data s) b Hb) as [r0 Hr0].
  assert (price r0 = c0) as Hprice.
  { by destruct (proj1 (Forall_lookup _ _) Hflat b r0 Hr0). }
  clear Hflat Hc.
  destruct st; try discriminate Hq;
    cbn [bar_step column_names quiet_on_flat flat_level] in *;
    known_cells Hcells;
    unfold_bar_step; wp_exec; vc_simpl; unify_reads; nan_cells;
    rewrite ?Hprice in *; signals;
    first [by split | exfalso; lia | exfalso; congruence
          | exfalso; absurd_read].
Qed.

(** A loop whose bars all leave the object alone. *)
Lemma for_each_idle bars body bound s :
  (∀ b, b ∈ bars → wp (body b) (λ _ s' l, s' = s ∧ l = []) (λ _ _ _, False) s) →
  for_each bars body bound s =
    Ok (match last bars with Some b => Some b | None => bound end) s [].
Proof.
  revert bound. induction bars as [|b rest IH]; intros bound Hbars; [done|].
  simpl for_each.
  pose proof (Hbars b ltac:(by left)) as Hbody. unfold wp in Hbody.
  destruct (body b s) as [[] s' l|] eqn:Hstep; [|done].
  destruct Hbody as [-> ->].
  rewrite (bind_quiet _ _ _ _ _ Hstep), IH.
  - rewrite (last_cons b rest). by destruct (last rest).
  - intros b' Hb'. apply Hbars. by right.
Qed.

(** A run whose bars all leave the object alone. *)
Lemma run_idle {pandas : Rolling} st s :
  (∀ b, loop_window st ≤ b < length (data s) →
        wp (bar_step st b) (λ _ s' l, s' = prepared st s ∧ l = [])
          (λ _ _ _, False) (prepared st s)) →
  (∀ k, run_upto st k s
        = Ok (last (take k (bars_of st s))) (prepared st s) []) ∧
  (loop_window st < length (data s) →
   ∃ r, last (data s) = Some r ∧
        run st s =
          if in_double_range (units s) then
            Ok tt (closed (price r) (prepared st s))
              [ClosedOut (length (data s) - 1) (units s) (price r)]
          else Raise OverflowError (prepared st s) []) ∧
  (length (data s) ≤ loop_window st →
   run st s = Raise UnboundLocalError (prepared st s) []).
Proof.
  intros Hidle.
  destruct (prepared_params st s) as (_ & _ & _ & Hdata).
  destruct (prepared_ledger st s) as (Hpos & _ & _ & Hunits).
  assert (∀ bars, bars ⊆ bars_of st s →
            for_each bars (bar_step st) None (prepared st s) =
              Ok (last bars) (prepared st s) []) as Hloop.
  { intros bars Hbars. rewrite for_each_idle.
    - by destruct (last bars).
    - intros b Hb. apply Hidle. by apply elem_of_range, Hbars. }
  split; [|split].
  - intros k. rewrite run_upto_prepared. apply Hloop, subseteq_take.
  - intros Hlen.
    destruct (lookup_lt_is_Some_2 (data s) (length (data s) - 1)) as [r Hr];
      [lia|].
    exists r. split.
    { rewrite last_lookup. by replace (pred (length (data s)))
        with (length (data s) - 1) by lia. }
    rewrite (run_after_loop st s _ _ _ (Hloop _ (reflexivity _))).
    unfold bars_of. rewrite (last_range _ _ Hlen). cbn [close_out_after].
    destruct (in_double_range (units s)) eqn:Hu.
    + rewrite (close_out_Some (length (data s) - 1) (prepared st s) r);
        [by rewrite Hunits|by rewrite Hdata|by rewrite Hunits].
    + rewrite (close_out_too_large (length (data s) - 1) (prepared st s) r);
        [done|by rewrite Hdata|by rewrite Hunits].
  - intros Hlen.
    rewrite (run_after_loop st s _ _ _ (Hloop _ (reflexivity _))).
    unfold bars_of, range.
    by replace (length (data s) - loop_window st) with 0 by lia.
Qed.

(** X9.  On a frame whose price never moves (and whose returns are
    therefore zero), no strategy other than the long-short momentum
    strategy places an order, provided the threshold of a mean-reversion
    strategy leaves the price inside its own band (the price is neither
    below itself minus the threshold nor above itself plus the
    threshold, in doubles): every bar of the loop leaves the object as
    the preparation left it.  A run over a frame longer than the window
    therefore consists of the close-out alone, which is booked as one
    trade of the units the object held before the run (units that a
    double can count: the close-out of any other holding raises
    [OverflowError]); on a shorter frame the run raises
    [UnboundLocalError] without a record. *)
Theorem flat_price_makes_no_order {pandas : Rolling} st s c0 :
  quiet_on_flat st c0 = true → flat_frame c0 (data s) →
  (∀ k, run_upto st k s
        = Ok (last (take k (bars_of st s))) (prepared st s) []) ∧
  (loop_window st < length (data s) →
   ∃ r, last (data s) = Some r ∧
        run st s =
          if in_double_range (units s) then
            Ok tt (closed (price r) (prepared st s))
              [ClosedOut (length (data s) - 1) (units s) (price r)]
          else Raise OverflowError (prepared st s) []) ∧
  (length (data s) ≤ loop_window st →
   run st s = Raise UnboundLocalError (prepared st s) []).
Proof.
  intros Hq Hflat. apply run_idle. intros b [_ Hb].
  destruct (prepared_params st s) as (_ & _ & _ & Hdata).
  destruct (prepared_ledger st s) as (Hpos & _).
  apply (bar_step_quiet st (cols s) c0); rewrite ?Hdata; try done.
  apply prepared_cols.
Qed.

Lemma flat_price_makes_no_order_witness :
  run (pandas := window_rolling) (LongShortMeanReversion 2 1) level
  = Ok tt (closed 3 (prepared (pandas := window_rolling)
                       (LongShortMeanReversion 2 1) level))
      [ClosedOut 3 0 3].
Proof.
  destruct (flat_price_makes_no_order (pandas := window_rolling)
              (LongShortMeanReversion 2 1) level 3)
    as (_ & H & _).
  - reflexivity.
  - repeat (apply Forall_cons_2; [split; reflexivity|]). apply Forall_nil_2.
  - destruct H as (r & Hr & Hrun); [cbn; lia|].
    injection Hr as <-. exact Hrun.
Defined.

(** ** Signals that persist *)

(** An order that cannot fail. *)
Ltac absurd_order :=
  match goal with
  | H : (_ = IndexError ∧ _) ∨ _ |- _ =>
      let Ha := fresh in
      destruct H as [[_ H]|[(_ & _ & H)
                            |[(_ & ? & ? & ? & Ha & ?)|(_ & ? & Ha & ?)]]];
      [congruence | congruence | injection Ha as <-; unify_reads; congruence
      | congruence]
  end.

(** The size of a budget order whose conversion is known. *)
Ltac known_size :=
  repeat match goal with
  | H : order_size None (Some ?a) ?p = Some _,
    Hn : int_of_float (?a / ?p) = inr _ |- _ =>
      cbn [order_size] in H; rewrite Hn in H; injection H as <-
  end.

Ltac trend_tac :=
  unfold_bar_step; wp_exec; vc_simpl; vc_simpl; unify_reads; known_size;
  signals;
  first [by split | exfalso; lia | exfalso; congruence | exfalso; absurd_read
        | exfalso; absurd_order
        | solve [exfalso; eauto using ltb_ltb_excl, ltb_leb_excl] ].

Lemma momentum_bar_enters st b s col m r n :
  loop_column st = "momentum" →
  cols s !! "momentum" = Some col → col !! b = Some m →
  gtb m 0 = true →
  data s !! b = Some r → int_of_float (amount s / price r) = inr n →
  position s = 0%Z →
  wp (bar_step st b)
    (λ _ s' l,
       s' = set_position 1 (buy_fill n (price r) s) ∧
       l = [Buying b n (price r)])
    (λ _ _ _, False) s.
Proof.
  intros Hst Hcol Hm Hpos Hr Hn Hflat.
  destruct st; try discriminate Hst; cbn [bar_step]; trend_tac.
Qed.

Lemma momentum_bar_holds st b s col m :
  loop_column st = "momentum" →
  cols s !! "momentum" = Some col → col !! b = Some m →
  gtb m 0 = true → position s = 1%Z →
  wp (bar_step st b) (λ _ s' l, s' = s ∧ l = []) (λ _ _ _, False) s.
Proof.
  intros Hst Hcol Hm Hpos Hlong.
  destruct st; try discriminate Hst; cbn [bar_step]; trend_tac.
Qed.

Lemma momentum_bar_shorts b s col m r n :
  cols s !! "momentum" = Some col → col !! b = Some m →
  (m <=? 0)%float = true →
  data s !! b = Some r → int_of_float (amount s / price r) = inr n →
  position s = 0%Z →
  wp (BacktestLongShort.momentum_bar b)
    (λ _ s' l,
       s' = set_position (-1) (sell_fill n (price r) s) ∧
       l = [Selling b n (price r)])
    (λ _ _ _, False) s.
Proof. intros Hcol Hm Hneg Hr Hn Hflat. trend_tac. Qed.

Lemma momentum_bar_waits st b s col m :
  loop_column st = "momentum" →
  cols s !! "momentum" = Some col → col !! b = Some m →
  (m <=? 0)%float = true →
  position s = (if long_only st then 0 else -1)%Z →
  wp (bar_step st b) (λ _ s' l, s' = s ∧ l = []) (λ _ _ _, False) s.
Proof.
  intros Hst Hcol Hm Hneg Hpos.
  destruct st; try discriminate Hst; cbn [bar_step long_only] in *; trend_tac.
Qed.

(** A run that fills one order at its first bar and then leaves the
    object alone. *)
Lemma run_one_entry {pandas : Rolling} st s s1 e r :
  bar_step st (loop_window st) (prepared st s) = Ok tt s1 [e] →
  data s1 = data s →
  (∀ b, loop_window st < b < length (data s) →
        wp (bar_step st b) (λ _ s' l, s' = s1 ∧ l = []) (λ _ _ _, False) s1) →
  loop_window st < length (data s) → last (data s) = Some r →
  in_double_range (units s1) = true →
  run st s = Ok tt (closed (price r) s1)
               [e; ClosedOut (length (data s) - 1) (units s1) (price r)].
Proof.
  intros Hfirst Hdata Hrest Hlen Hlast Hrange.
  assert (bars_of st s
          = loop_window st :: range (S (loop_window st)) (length (data s)))
    as Hbars.
  { unfold bars_of, range.
    replace (length (data s) - loop_window st)
      with (S (length (data s) - S (loop_window st))) by lia.
    done. }
  assert (for_each (bars_of st s) (bar_step st) None (prepared st s)
          = Ok (Some (length (data s) - 1)) s1 [e]) as Hloop.
  { pose proof (last_range _ _ Hlen) as Hl. fold (bars_of st s) in Hl.
    rewrite Hbars in *. simpl for_each.
    rewrite (bind_Ok _ _ _ _ _ _ Hfirst), for_each_idle.
    - rewrite last_cons in Hl.
      by destruct (last (range (S (loop_window st)) (length (data s))));
        injection Hl as ->.
    - intros b Hb. apply Hrest. apply elem_of_range in Hb. lia. }
  rewrite (run_after_loop st s _ _ _ Hloop). cbn [close_out_after].
  rewrite (close_out_Some (length (data s) - 1) s1 r); [done| |done].
  rewrite Hdata. rewrite last_lookup in Hlast.
  by replace (length (data s) - 1) with (pred (length (data s))) by lia.
Qed.

(** The cell of the loop indicator of a prepared object. *)
Lemma prepared_loop_cell {pandas : Rolling} st s b :
  b < length (data s) →
  ∃ v, cols (prepared st s) !! loop_column st = Some (loop_indicator st s) ∧
       loop_indicator st s !! b = Some v.
Proof.
  intros Hb.
  destruct (lookup_lt_is_Some_2 (loop_indicator st s) b) as [v Hv].
  { unfold loop_indicator. by rewrite rolling_mean_length, length_fmap. }
  exists v. split; [apply prepared_loop_column|done].
Qed.

(** X10.  Momentum on a rising series: when the rolling mean of the
    returns is positive at every bar of the loop, a momentum strategy
    (long-only or long-short) buys at the first bar of its loop, for all
    its cash at that bar's price, and then only holds.  The record of
    the run, started without a holding, is that one purchase, of the
    [int(amount / price)] units that the conversion gives, and the
    close-out of these units. *)
Theorem uptrend_is_bought_once {pandas : Rolling} st s rW rN n :
  loop_column st = "momentum" → units s = 0%Z →
  (∀ b v, loop_window st ≤ b < length (data s) →
          loop_indicator st s !! b = Some v → gtb v 0 = true) →
  data s !! loop_window st = Some rW →
  int_of_float (initial_amount s / price rW) = inr n →
  last (data s) = Some rN →
  run st s =
    Ok tt
      (closed (price rN)
         (set_position 1 (buy_fill n (price rW) (prepared st s))))
      [Buying (loop_window st) n (price rW);
       ClosedOut (length (data s) - 1) n (price rN)].
Proof.
  intros Hst Hu0 Hup HrW Hn HrN.
  destruct (prepared_params st s) as (_ & _ & _ & Hdata).
  destruct (prepared_ledger st s) as (Hpos & _ & Hcash & Hunits).
  pose proof (lookup_lt_Some _ _ _ HrW) as Hlen.
  set (s1 := set_position 1 (buy_fill n (price rW) (prepared st s))).
  assert (units s1 = n) as Hu1.
  { unfold s1.
    cbn [set_position buy_fill set_trades set_units set_amount units].
    rewrite Hunits, Hu0. lia. }
  rewrite (run_one_entry st s s1 (Buying (loop_window st) n (price rW)) rN);
    try done.
  - by rewrite Hu1.
  - destruct (prepared_loop_cell st s (loop_window st) Hlen) as (m & Hcol & Hm).
    rewrite Hst in Hcol.
    pose proof (momentum_bar_enters st (loop_window st) (prepared st s) _ m rW
                  n Hst Hcol Hm (Hup (loop_window st) m ltac:(lia) Hm)) as Hwp.
    rewrite Hdata, Hcash in Hwp. specialize (Hwp HrW Hn Hpos).
    unfold wp in Hwp.
    by destruct (bar_step st (loop_window st) (prepared st s))
      as [[] s' l|]; [destruct Hwp as [-> ->]|].
  - intros b Hb.
    destruct (prepared_loop_cell st s b ltac:(lia)) as (m & Hcol & Hm).
    rewrite Hst in Hcol.
    by apply (momentum_bar_holds st b s1 _ m Hst Hcol Hm
                (Hup b m ltac:(lia) Hm)).
  - rewrite Hu1. by apply (int_of_float_in_range _ _ Hn).
Qed.

Lemma uptrend_is_bought_once_witness :
  run (pandas := window_rolling) (LongShortMomentum 1) uptrend =
    Ok tt
      (closed 5
         (set_position 1
            (buy_fill 50 2 (prepared (pandas := window_rolling)
                              (LongShortMomentum 1) uptrend))))
      [Buying 1 50 2; ClosedOut 3 50 5].
Proof.
  apply (uptrend_is_bought_once (pandas := window_rolling)
           (LongShortMomentum 1) uptrend (mkBar 2 0.125) (mkBar 5 0.125) 50).
  - reflexivity.
  - reflexivity.
  - intros b v Hb Hv. cbn in Hb.
    destruct b as [|[|[|[|b]]]]; try lia;
      vm_compute in Hv; by injection Hv as <-.
  - reflexivity.
  - reflexivity.
  - reflexivity.
Defined.

(** X11.  Momentum on a series that never rises: when the rolling mean
    of the returns is zero or negative at every bar of the loop, the
    long-only momentum strategy places no order, so that its run is the
    close-out alone, while the long-short momentum strategy sells short
    at the first bar of its loop, for all its cash at that bar's price,
    and then only holds the short position until the close-out buys it
    back.  The run is started without a holding. *)
Theorem downtrend_is_sat_out_or_sold_short {pandas : Rolling} st s rW rN n :
  loop_column st = "momentum" → units s = 0%Z →
  (∀ b v, loop_window st ≤ b < length (data s) →
          loop_indicator st s !! b = Some v → (v <=? 0)%float = true) →
  data s !! loop_window st = Some rW →
  int_of_float (initial_amount s / price rW) = inr n →
  last (data s) = Some rN →
  run st s =
    if long_only st then
      Ok tt (closed (price rN) (prepared st s))
        [ClosedOut (length (data s) - 1) 0 (price rN)]
    else
      Ok tt
        (closed (price rN)
           (set_position (-1) (sell_fill n (price rW) (prepared st s))))
        [Selling (loop_window st) n (price rW);
         ClosedOut (length (data s) - 1) (- n) (price rN)].
Proof.
  intros Hst Hu0 Hdown HrW Hn HrN.
  destruct (prepared_params st s) as (_ & _ & _ & Hdata).
  destruct (prepared_ledger st s) as (Hpos & _ & Hcash & Hunits).
  pose proof (lookup_lt_Some _ _ _ HrW) as Hlen.
  destruct (long_only st) eqn:Hlong.
  - destruct (run_idle st s) as (_ & Hrun & _).
    + intros b Hb.
      destruct (prepared_loop_cell st s b ltac:(lia)) as (m & Hcol & Hm).
      rewrite Hst in Hcol.
      apply (momentum_bar_waits st b _ _ m Hst Hcol Hm (Hdown _ _ Hb Hm)).
      by rewrite Hlong.
    + destruct (Hrun Hlen) as (r & Hr & ->). rewrite Hu0.
      change (in_double_range 0) with true. cbv iota. congruence.
  - set (s1 := set_position (-1) (sell_fill n (price rW) (prepared st s))).
    assert (units s1 = (- n)%Z) as Hu1.
    { unfold s1.
      cbn [set_position sell_fill set_trades set_units set_amount units].
      rewrite Hunits, Hu0. lia. }
    rewrite (run_one_entry st s s1
               (Selling (loop_window st) n (price rW)) rN);
      try done.
    + by rewrite Hu1.
    + destruct (prepared_loop_cell st s (loop_window st) Hlen)
        as (m & Hcol & Hm).
      rewrite Hst in Hcol.
      assert (bar_step st = BacktestLongShort.momentum_bar) as ->.
      { by destruct st. }
      pose proof (momentum_bar_shorts (loop_window st) (prepared st s) _ m rW
                    n Hcol Hm (Hdown (loop_window st) m ltac:(lia) Hm)) as Hwp.
      rewrite Hdata, Hcash in Hwp. specialize (Hwp HrW Hn Hpos).
      unfold wp in Hwp.
      by destruct (BacktestLongShort.momentum_bar (loop_window st)
                     (prepared st s))
        as [[] s' l|]; [destruct Hwp as [-> ->]|].
    + intros b Hb.
      destruct (prepared_loop_cell st s b ltac:(lia)) as (m & Hcol & Hm).
      rewrite Hst in Hcol.
      apply (momentum_bar_waits st b s1 _ m Hst Hcol Hm
               (Hdown b m ltac:(lia) Hm)).
      by rewrite Hlong.
    + rewrite Hu1, in_double_range_opp.
      by apply (int_of_float_in_range _ _ Hn).
Qed.

Lemma downtrend_is_sat_out_or_sold_short_witness :
  run (pandas := window_rolling) (LongShortMomentum 1) downtrend =
    Ok tt
      (closed 1
         (set_position (-1)
            (sell_fill 25 4 (prepared (pandas := window_rolling)
                               (LongShortMomentum 1) downtrend))))
      [Selling 1 25 4; ClosedOut 3 (-25) 1].
Proof.
  apply (downtrend_is_sat_out_or_sold_short (pandas := window_rolling)
           (LongShortMomentum 1) downtrend
           (mkBar 4 (-0.125)) (mkBar 1 (-0.125)) 25).
  - reflexivity.
  - reflexivity.
  - intros b v Hb Hv. cbn in Hb.
    destruct b as [|[|[|[|b]]]]; try lia;
      vm_compute in Hv; by injection Hv as <-.
  - reflexivity.
  - reflexivity.
  - reflexivity.
Defined.

Lemma sma_bar_enters st a b bar s col1 col2 m1 m2 r n :
  st = LongOnlySMA a b ∨ st = LongShortSMA a b →
  cols s !! "SMA1" = Some col1 → col1 !! bar = Some m1 →
  cols s !! "SMA2" = Some col2 → col2 !! bar = Some m2 →
  gtb m1 m2 = true →
  data s !! bar = Some r → int_of_float (amount s / price r) = inr n →
  position s = 0%Z →
  wp (bar_step st bar)
    (λ _ s' l,
       s' = set_position 1 (buy_fill n (price r) s) ∧
       l = [Buying bar n (price r)])
    (λ _ _ _, False) s.
Proof.
  intros [-> | ->] Hcol1 Hm1 Hcol2 Hm2 Hlt Hr Hn Hflat; cbn [bar_step];
    trend_tac.
Qed.

Lemma sma_bar_holds st a b bar s col1 col2 m1 m2 :
  st = LongOnlySMA a b ∨ st = LongShortSMA a b →
  cols s !! "SMA1" = Some col1 → col1 !! bar = Some m1 →
  cols s !! "SMA2" = Some col2 → col2 !! bar = Some m2 →
  gtb m1 m2 = true → position s = 1%Z →
  wp (bar_step st bar) (λ _ s' l, s' = s ∧ l = []) (λ _ _ _, False) s.
Proof.
  intros [-> | ->] Hcol1 Hm1 Hcol2 Hm2 Hlt Hlong; cbn [bar_step]; trend_tac.
Qed.

(** The two averages of a prepared object. *)
Lemma prepared_averages {pandas : Rolling} st a b s bar :
  st = LongOnlySMA a b ∨ st = LongShortSMA a b →
  bar < length (data s) →
  ∃ m1 m2,
    cols (prepared st s) !! "SMA1"
    = Some (rolling_mean a (price <$> data s)) ∧
    rolling_mean a (price <$> data s) !! bar = Some m1 ∧
    cols (prepared st s) !! "SMA2"
    = Some (rolling_mean b (price <$> data s)) ∧
    rolling_mean b (price <$> data s) !! bar = Some m2.
Proof.
  intros Hst Hbar.
  destruct (lookup_lt_is_Some_2 (rolling_mean a (price <$> data s)) bar)
    as [m1 Hm1]; [by rewrite rolling_mean_length, length_fmap|].
  destruct (lookup_lt_is_Some_2 (rolling_mean b (price <$> data s)) bar)
    as [m2 Hm2]; [by rewrite rolling_mean_length, length_fmap|].
  exists m1, m2. rewrite prepared_cols.
  repeat split; try done.
  - destruct Hst as [-> | ->]; cbn [indicator_columns];
      by rewrite lookup_insert_ne, lookup_insert_eq.
  - destruct Hst as [-> | ->]; cbn [indicator_columns];
      by rewrite lookup_insert_eq.
Qed.

(** X17.  A crossover that persists: when the average over the first
    window lies above the average over the second at every bar of the
    loop, an SMA strategy (long-only or long-short) buys at the first
    bar of its loop, for all its cash at that bar's price, and then only
    holds.  The record of the run, started without a holding, is that
    purchase, of the [int(amount / price)] units that the conversion
    gives, and the close-out of these units. *)
Theorem rising_prices_are_bought_once {pandas : Rolling} st a b s rW rN n :
  st = LongOnlySMA a b ∨ st = LongShortSMA a b → units s = 0%Z →
  (∀ bar m1 m2, b ≤ bar < length (data s) →
                rolling_mean a (price <$> data s) !! bar = Some m1 →
                rolling_mean b (price <$> data s) !! bar = Some m2 →
                gtb m1 m2 = true) →
  data s !! b = Some rW →
  int_of_float (initial_amount s / price rW) = inr n →
  last (data s) = Some rN →
  run st s =
    Ok tt
      (closed (price rN)
         (set_position 1 (buy_fill n (price rW) (prepared st s))))
      [Buying b n (price rW);
       ClosedOut (length (data s) - 1) n (price rN)].
Proof.
  intros Hst Hu0 Habove HrW Hn HrN.
  destruct (prepared_params st s) as (_ & Hftc & Hptc & Hdata).
  destruct (prepared_ledger st s) as (Hpos & _ & Hcash & Hunits).
  pose proof (lookup_lt_Some _ _ _ HrW) as Hlen.
  assert (loop_window st = b) as Hw by by destruct Hst as [-> | ->].
  set (s1 := set_position 1 (buy_fill n (price rW) (prepared st s))).
  assert (units s1 = n) as Hu1.
  { unfold s1.
    cbn [set_position buy_fill set_trades set_units set_amount units].
    rewrite Hunits, Hu0. lia. }
  rewrite (run_one_entry st s s1 (Buying b n (price rW)) rN);
    rewrite ?Hw; try done.
  - by rewrite Hu1.
  - destruct (prepared_averages st a b s b Hst Hlen)
      as (m1 & m2 & Hcol1 & Hm1 & Hcol2 & Hm2).
    pose proof (sma_bar_enters st a b b (prepared st s) _ _ m1 m2 rW n
                  Hst Hcol1 Hm1 Hcol2 Hm2
                  (Habove b m1 m2 ltac:(lia) Hm1 Hm2)) as Hwp.
    rewrite Hdata, Hcash in Hwp. specialize (Hwp HrW Hn Hpos).
    unfold wp in Hwp.
    by destruct (bar_step st b (prepared st s))
      as [[] s' l|]; [destruct Hwp as [-> ->]|].
  - intros bar Hbar.
    destruct (prepared_averages st a b s bar Hst ltac:(lia))
      as (m1 & m2 & Hcol1 & Hm1 & Hcol2 & Hm2).
    by apply (sma_bar_holds st a b bar s1 _ _ m1 m2 Hst Hcol1 Hm1 Hcol2 Hm2
                (Habove bar m1 m2 ltac:(lia) Hm1 Hm2)).
  - rewrite Hu1. by apply (int_of_float_in_range _ _ Hn).
Qed.

Lemma rising_prices_are_bought_once_witness :
  run (pandas := window_rolling) (LongOnlySMA 1 2) uptrend =
    Ok tt
      (closed 5
         (set_position 1
            (buy_fill 25 4 (prepared (pandas := window_rolling)
                              (LongOnlySMA 1 2) uptrend))))
      [Buying 2 25 4; ClosedOut 3 25 5].
Proof.
  apply (rising_prices_are_bought_once (pandas := window_rolling)
           (LongOnlySMA 1 2) 1 2 uptrend (mkBar 4 0.125) (mkBar 5 0.125) 25).
  - by left.
  - reflexivity.
  - intros bar m1 m2 Hbar H1 H2. cbn in Hbar.
    destruct bar as [|[|[|[|bar]]]]; try lia;
      vm_compute in H1, H2; injection H1 as <-; by injection H2 as <-.
  - reflexivity.
  - reflexivity.
  - reflexivity.
Defined.

(** ** What a run can observe *)

Section Blind.
Context (names : list string).

Lemma blind_ret {A} (a : A) : blind names (ret a).
Proof. by intros s t H. Qed.

Lemma blind_raise {A} e : blind names (raise (A := A) e).
Proof. by intros s t H. Qed.

Lemma blind_tell e : blind names (tell e).
Proof. by intros s t H. Qed.

Lemma blind_gets {A} (f : Backtest → A) :
  (∀ s t, alike names s t → f s = f t) → blind names (gets f).
Proof. intros Hf s t H. unfold gets. simpl. by rewrite (Hf s t H). Qed.

Lemma blind_modify f :
  (∀ s t, alike names s t → alike names (f s) (f t)) →
  blind names (modify f).
Proof. intros Hf s t H. simpl. auto. Qed.

Lemma blind_bind {A B} (m : M A) (k : A → M B) :
  blind names m → (∀ a, blind names (k a)) → blind names (bind m k).
Proof.
  intros Hm Hk s t H. specialize (Hm s t H). unfold bind.
  destruct (m s) as [a s1 l1|e s1 l1], (m t) as [a' t1 l1'|e' t1 l1'];
    try done.
  destruct Hm as (<- & <- & H1). specialize (Hk a s1 t1 H1).
  destruct (k a s1) as [b s2 l2|e s2 l2], (k a t1) as [b' t2 l2'|e' t2 l2'];
    try done; by destruct Hk as (<- & <- & H2).
Qed.

Lemma blind_cell name bar : name ∈ names → blind names (cell name bar).
Proof.
  intros Hname s t H. unfold cell. rewrite !bind_gets.
  destruct H as (? & ? & ? & ? & ? & ? & ? & ? & Hcols).
  rewrite <- (Hcols name Hname).
  destruct (cols s !! name) as [col|]; [|by repeat split].
  destruct (col !! bar); by repeat split.
Qed.

Lemma blind_for_each bars body bound :
  (∀ b, blind names (body b)) → blind names (for_each bars body bound).
Proof.
  intros Hbody. revert bound.
  induction bars as [|b rest IH]; intros bound; simpl.
  - apply blind_ret.
  - apply blind_bind; [apply Hbody|]. intros _. apply IH.
Qed.
End Blind.

(** Decomposition of a goal [blind names m] along the structure of [m]. *)
Ltac alike_tac :=
  let H := fresh in
  intros ? ? H; unfold alike in *; ledger_cbn;
  destruct H as (? & ? & ? & ? & ? & ? & ? & ? & ?);
  repeat split; first [assumption | congruence].

Ltac blind_step :=
  lazymatch goal with
  | |- blind _ (bind _ _) => apply blind_bind; [|intros ?]
  | |- blind _ (ret _) => apply blind_ret
  | |- blind _ (raise _) => apply blind_raise
  | |- blind _ (tell _) => apply blind_tell
  | |- blind _ (gets _) => apply blind_gets; alike_tac
  | |- blind _ (modify _) => apply blind_modify; alike_tac
  | |- blind _ (cell _ _) => apply blind_cell; by repeat constructor
  | |- blind _ (price_cell _) => unfold price_cell
  | |- blind _ (get_date_price _) => unfold get_date_price
  | |- blind _ (int_quotient _ _) => unfold int_quotient
  | |- blind _ (to_double _) => unfold to_double
  | |- blind _ (place_buy_order _ _ _) => unfold place_buy_order
  | |- blind _ (place_sell_order _ _ _) => unfold place_sell_order
  | |- blind _ (close_out _) => unfold close_out
  | |- blind _ (BacktestLongShort.go_long _ _ _) =>
      unfold BacktestLongShort.go_long
  | |- blind _ (BacktestLongShort.go_short _ _ _) =>
      unfold BacktestLongShort.go_short
  | |- blind _ (BacktestLongShort.resolve _) =>
      unfold BacktestLongShort.resolve
  | |- blind _ (if ?c then _ else _) => destruct c
  | |- blind _ (match ?x with _ => _ end) => destruct x
  end.

Ltac blind_tac := repeat blind_step.

Lemma bar_step_blind st b : blind (column_names st) (bar_step st b).
Proof.
  destruct st; cbn [bar_step column_names]; unfold_bar_step; blind_tac.
Qed.

Lemma indicator_columns_alike {pandas : Rolling} st d c c' name :
  name ∈ column_names st →
  indicator_columns st d c !! name = indicator_columns st d c' !! name.
Proof.
  intros Hname. apply list_elem_of_In in Hname.
  destruct st; cbn [column_names In indicator_columns] in *;
    repeat match goal with
    | H : _ ∨ _ |- _ => destruct H as [<-|H]
    | H : False |- _ => destruct H
    end;
    by rewrite ?lookup_insert_eq, ?(lookup_insert_ne _ "SMA2" "SMA1"),
      ?lookup_insert_eq by done.
Qed.

Lemma prepared_alike {pandas : Rolling} st s t :
  same_inputs s t → alike (column_names st) (prepared st s) (prepared st t).
Proof.
  intros (Hi & Hf & Hp & Hd & Hu).
  destruct (prepared_ledger st s) as (Hpos & Htr & Ham & Hun).
  destruct (prepared_params st s) as (Hi' & Hf' & Hp' & Hd').
  destruct (prepared_ledger st t) as (Hpos1 & Htr1 & Ham1 & Hun1).
  destruct (prepared_params st t) as (Hi1 & Hf1 & Hp1 & Hd1).
  unfold alike. repeat split; try congruence.
  intros name Hname. rewrite !prepared_cols, Hd.
  by apply indicator_columns_alike.
Qed.

Lemma close_out_after_blind names bound :
  blind names (close_out_after bound).
Proof. destruct bound; cbn [close_out_after]; blind_tac. Qed.

Lemma run_alike {pandas : Rolling} st s t :
  same_inputs s t → outcomes_alike (column_names st) (run st s) (run st t).
Proof.
  intros Hin. rewrite !run_prepared.
  assert (bars_of st t = bars_of st s) as ->.
  { unfold bars_of. by destruct Hin as (_ & _ & _ & -> & _). }
  apply blind_bind.
  - apply blind_for_each. intros b. apply bar_step_blind.
  - intros bound. apply close_out_after_blind.
  - by apply prepared_alike.
Qed.

(** X12.  A strategy run takes nothing from the object but the initial
    amount, the two cost parameters, the frame and the units held: on two
    objects that agree on these, whatever their cash, position flag,
    trade count and indicator columns (left, say, by earlier runs of
    other strategies), the run ends the same way, with the same record
    and the same ledger, or raises the same exception after the same
    record.  In particular the figures that the close-out prints are the
    same. *)
Theorem run_forgets_the_past {pandas : Rolling} st s t :
  same_inputs s t →
  outcomes_alike (column_names st) (run st s) (run st t) ∧
  log_of (run st s) = log_of (run st t) ∧
  summary (state_of (run st s)) = summary (state_of (run st t)).
Proof.
  intros Hin. pose proof (run_alike st s t Hin) as H.
  split; [done|].
  destruct (run st s) as [a s' l|e s' l], (run st t) as [a' t' l'|e' t' l'];
    try done;
    destruct H as (_ & -> & Hi & Ha & _ & _ & _ & _ & Ht & _);
    unfold summary; cbn [state_of log_of]; by rewrite Hi, Ha, Ht.
Qed.

Lemma run_forgets_the_past_witness :
  log_of (run (pandas := window_rolling) (LongShortMeanReversion 2 1) sample)
  = log_of (run (pandas := window_rolling) (LongShortMeanReversion 2 1)
              (set_position 1 (set_amount 5 (set_col "momentum" [] sample)))).
Proof.
  apply (run_forgets_the_past (pandas := window_rolling)
           (LongShortMeanReversion 2 1) sample
           (set_position 1 (set_amount 5 (set_col "momentum" [] sample)))).
  by repeat split.
Defined.

(** ** The script *)

(** A completed run leaves the parameters and the frame as they were,
    and no units. *)
Lemma run_leaves_inputs {pandas : Rolling} st s s' l :
  run st s = Ok tt s' l →
  initial_amount s' = initial_amount s ∧ ftc s' = ftc s ∧ ptc s' = ptc s ∧
  data s' = data s ∧ units s' = 0%Z.
Proof.
  intros Hrun. pose proof (run_outcome st s) as H. simpl in H.
  rewrite Hrun in H.
  destruct H as (s1 & fills & b & r & Hloop & _ & _ & -> & _).
  pose proof (loop_framed st (bars_of st s) None (prepared st s)) as Hf.
  rewrite Hloop in Hf. destruct Hf as (Hi & Hftc & Hptc & Hdata & _).
  simpl in Hi, Hftc, Hptc, Hdata.
  destruct (prepared_params st s) as (Hi0 & Hftc0 & Hptc0 & Hdata0).
  ledger_cbn. repeat split; congruence.
Qed.

(** X13.  The script of the module runs the long-short SMA strategy with
    windows 42 and 252, then the momentum strategy over 60 days, then the
    mean-reversion strategy with window 50 and threshold 5, all on one
    object.  On a frame of at most 252 rows the first run raises
    [UnboundLocalError] and the other two never start.  In general the
    script does what its three runs do on the object as [__init__] left
    it, one after the other: it records the orders and the close-outs
    that each of them records there, it stops at the first of them that
    raises, with that exception, and when all three complete it ends on
    the final figures of the third.  No run is affected by the ones
    before it. *)
Theorem script_runs_are_independent {pandas : Rolling} s :
  units s = 0%Z →
  (length (data s) ≤ 252 →
   run_strategies s
   = Raise UnboundLocalError (prepared (LongShortSMA 42 252) s) []) ∧
  match run (LongShortSMA 42 252) s with
  | Raise e s1 l1 => run_strategies s = Raise e s1 l1
  | Ok _ _ l1 =>
      match run (LongShortMomentum 60) s with
      | Raise e _ l2 => ∃ s', run_strategies s = Raise e s' (l1 ++ l2)
      | Ok _ _ l2 =>
          match run (LongShortMeanReversion 50 5) s with
          | Raise e _ l3 =>
              ∃ s', run_strategies s = Raise e s' (l1 ++ l2 ++ l3)
          | Ok _ t3 l3 =>
              ∃ s', run_strategies s = Ok tt s' (l1 ++ l2 ++ l3) ∧
                    summary s' = summary t3
          end
      end
  end.
Proof.
  intros Hu. unfold run_strategies.
  change (BacktestLongShort.run_sma_strategy 42 252)
    with (run (LongShortSMA 42 252)).
  change (BacktestLongShort.run_momentum_strategy 60)
    with (run (LongShortMomentum 60)).
  change (BacktestLongShort.run_mean_reversion_strategy 50 5)
    with (run (LongShortMeanReversion 50 5)).
  split.
  - intros Hlen. apply bind_Raise. by apply empty_loop_raises.
  - unfold bind.
    destruct (run (LongShortSMA 42 252) s) as [[] s1 l1|e s1 l1] eqn:H1;
      [|done].
    destruct (run_leaves_inputs _ _ _ _ H1) as (Hi1 & Hf1 & Hp1 & Hd1 & Hu1).
    assert (outcomes_alike (column_names (LongShortMomentum 60))
              (run (LongShortMomentum 60) s1) (run (LongShortMomentum 60) s))
      as H12.
    { apply run_alike. repeat split; congruence. }
    destruct (run (LongShortMomentum 60) s) as [[] t2 l2|e t2 l2];
      destruct (run (LongShortMomentum 60) s1) as [[] s2 l2'|e' s2 l2'] eqn:H2;
      try done; destruct H12 as (He & -> & _).
    + destruct (run_leaves_inputs _ _ _ _ H2)
        as (Hi2 & Hf2 & Hp2 & Hd2 & Hu2).
      assert (outcomes_alike (column_names (LongShortMeanReversion 50 5))
                (run (LongShortMeanReversion 50 5) s2)
                (run (LongShortMeanReversion 50 5) s)) as H23.
      { apply run_alike. repeat split; congruence. }
      destruct (run (LongShortMeanReversion 50 5) s) as [[] t3 l3|e t3 l3];
        destruct (run (LongShortMeanReversion 50 5) s2)
          as [[] s3 l3'|e' s3 l3'];
        try done; destruct H23 as (He3 & -> & Hal).
      * exists s3. split; [done|].
        destruct Hal as (Hi & Ha & _ & _ & _ & _ & Ht & _).
        unfold summary. by rewrite Hi, Ha, Ht.
      * exists s3. by subst e'.
    + exists s2. by subst e'.
Qed.

Lemma script_runs_are_independent_witness :
  run_strategies (pandas := window_rolling) sample
  = Raise UnboundLocalError
      (prepared (pandas := window_rolling) (LongShortSMA 42 252) sample) [].
Proof.
  apply (proj1 (script_runs_are_independent (pandas := window_rolling)
                  sample eq_refl)).
  cbn. lia.
Defined.

(** ** The arguments of an intent *)

Lemma go_long_keeps_flag bar u a s :
  wp (BacktestLongShort.go_long bar u a)
    (λ _ s' _, position s' = position s)
    (λ _ s' _, position s' = position s) s.
Proof. destruct u as [k|], a as [[|q]|]; wp_exec; vc_simpl; done. Qed.

Lemma go_short_keeps_flag bar u a s :
  wp (BacktestLongShort.go_short bar u a)
    (λ _ s' _, position s' = position s)
    (λ _ s' _, position s' = position s) s.
Proof. destruct u as [k|], a as [[|q]|]; wp_exec; vc_simpl; done. Qed.

(** X14.  How [go_long] and [go_short] read their arguments.  A unit
    count of zero counts as no unit count, and a non-zero unit count
    makes the budget irrelevant.  An intent that names no size (no unit
    count or zero, and no budget or a budget of zero) places no opening
    order and raises nothing: from a position that needs no closing fill
    it leaves the object untouched, even at a bar outside the frame.
    Neither method changes the position flag; only the strategies do. *)
Theorem intent_without_size_opens_nothing bar n u a s :
  BacktestLongShort.go_long bar (Some 0%Z) a s
  = BacktestLongShort.go_long bar None a s ∧
  BacktestLongShort.go_short bar (Some 0%Z) a s
  = BacktestLongShort.go_short bar None a s ∧
  (n ≠ 0%Z →
   BacktestLongShort.go_long bar (Some n) a s
   = BacktestLongShort.go_long bar (Some n) None s ∧
   BacktestLongShort.go_short bar (Some n) a s
   = BacktestLongShort.go_short bar (Some n) None s) ∧
  (sized u a = false → position s ≠ (-1)%Z →
   BacktestLongShort.go_long bar u a s = Ok tt s []) ∧
  (sized u a = false → position s ≠ 1%Z →
   BacktestLongShort.go_short bar u a s = Ok tt s []) ∧
  position (state_of (BacktestLongShort.go_long bar u a s)) = position s ∧
  position (state_of (BacktestLongShort.go_short bar u a s)) = position s.
Proof.
  split; [done|]. split; [done|]. split; [|split; [|split; [|split]]].
  - intros Hn%Z.eqb_neq.
    unfold BacktestLongShort.go_long, BacktestLongShort.go_short.
    cbn [truthy_units]. by rewrite Hn.
  - intros [Hu Ha]%orb_false_iff Hpos%Z.eqb_neq.
    unfold BacktestLongShort.go_long. rewrite bind_gets, Hpos, Hu, Ha. done.
  - intros [Hu Ha]%orb_false_iff Hpos%Z.eqb_neq.
    unfold BacktestLongShort.go_short. rewrite bind_gets, Hpos, Hu, Ha. done.
  - exact (proj1 (wp_outcome _ (λ s' _, position s' = position s) s)
             (go_long_keeps_flag bar u a s)).
  - exact (proj1 (wp_outcome _ (λ s' _, position s' = position s) s)
             (go_short_keeps_flag bar u a s)).
Qed.

Lemma intent_without_size_opens_nothing_witness :
  BacktestLongShort.go_long 9 (Some 0%Z) (Some (Cash 0)) sample
  = Ok tt sample [].
Proof.
  destruct (intent_without_size_opens_nothing 9 3 (Some 0%Z) (Some (Cash 0))
              sample) as (_ & _ & _ & H & _).
  apply H; [reflexivity|discriminate].
Defined.

(** ** Round trips *)

Lemma bar_step_trades st b s :
  (∀ w thr, st = LongShortMeanReversion w thr →
            (initial_amount s =? 0)%float = false) →
  wp (bar_step st b) (λ _ s' l, trade_step b s s' l)
    (λ _ _ l, fault_step b s l) s.
Proof.
  intros Hstake.
  destruct st; cbn [bar_step]; unfold_bar_step;
    first [specialize (Hstake _ _ eq_refl) | clear Hstake];
    wp_exec; vc_simpl; vc_simpl; unify_reads; cbn [app];
    first [ by (constructor; ledger_cbn; lia)
          | exfalso; absurd_read
          | by (exfalso; rewrite Hstake in *)
          | solve [exfalso; eauto using gtb_ltb_excl, gtb_leb_excl] ].
Qed.

Lemma settled_app l1 l2 : settled l1 → settled l2 → settled (l1 ++ l2).
Proof. induction 1; intros; [done|]. simpl. constructor; auto. Qed.

Lemma settled_round_trips l1 l2 :
  settled l1 → round_trips (l1 ++ l2) = round_trips l2.
Proof.
  induction 1 as [|e1 e2 l He1 He2 Hc _ IH]; [done|].
  cbn [app round_trips]. rewrite Hc. by destruct e2.
Qed.

Lemma settled_pair l e1 e2 :
  settled l → is_order e1 = true → is_order e2 = true →
  closes e1 e2 = true → settled ((l ++ [e1]) ++ [e2]).
Proof.
  intros Hl He1 He2 Hc. rewrite <- app_assoc. apply settled_app; [done|].
  by repeat constructor.
Qed.

Lemma holding_round_trips l s : holding l s → round_trips l = true.
Proof.
  intros [(Hl & _)|[(l0 & b & n & p & -> & Hl & _)|(l0 & b & n & p & -> & Hl & _)]].
  - by rewrite <- (app_nil_r l), settled_round_trips.
  - by rewrite settled_round_trips.
  - by rewrite settled_round_trips.
Qed.

Lemma holding_step b s s' l l' :
  holding l s → trade_step b s s' l' → holding (l ++ l') s'.
Proof.
  intros Hl Hstep. unfold holding in *.
  destruct Hstep as [Hp Hu|n p Hp Hp' Hu|n p Hp Hp' Hu|p Hp Hp' Hu|p Hp Hp' Hu
                    |n p Hp Hp' Hu|n p Hp Hp' Hu];
    destruct Hl as [(Hs & Hpos & Hun)
                   |[(l0 & b0 & n0 & p0 & -> & Hs & Hpos & Hun)
                    |(l0 & b0 & n0 & p0 & -> & Hs & Hpos & Hun)]];
    try (exfalso; lia).
  - left. rewrite app_nil_r. repeat split; [done|lia..].
  - right. left. rewrite app_nil_r. exists l0, b0, n0, p0.
    repeat split; [done|lia..].
  - right. right. rewrite app_nil_r. exists l0, b0, n0, p0.
    repeat split; [done|lia..].
  - right. left. exists l, b, n, p. repeat split; [done|lia..].
  - right. right. exists l, b, n, p. repeat split; [done|lia..].
  - left. split; [|done]. apply settled_pair; try done.
    cbn [closes]. lia.
  - left. split; [|done]. apply settled_pair; try done.
    cbn [closes]. lia.
  - right. right. exists ((l0 ++ [Buying b0 n0 p0]) ++ [Selling b (units s) p]), b, n, p.
    split; [by rewrite <- !app_assoc|]. split; [|done].
    apply settled_pair; try done. cbn [closes]. lia.
  - right. left. exists ((l0 ++ [Selling b0 n0 p0]) ++ [Buying b (- units s) p]), b, n, p.
    split; [by rewrite <- !app_assoc|]. split; [|done].
    apply settled_pair; try done. cbn [closes]. lia.
Qed.

Lemma holding_fault b s l l' :
  holding l s → fault_step b s l' → round_trips (l ++ l') = true.
Proof.
  intros Hl Hfault.
  destruct Hfault as [|p Hp|p Hp].
  - rewrite app_nil_r. by apply (holding_round_trips l s).
  - destruct Hl as [(Hs & Hpos & Hun)
                   |[(l0 & b0 & n0 & p0 & -> & Hs & Hpos & Hun)
                    |(l0 & b0 & n0 & p0 & -> & Hs & Hpos & Hun)]];
      try (exfalso; lia).
    rewrite <- (app_nil_r (_ ++ _)). apply settled_round_trips.
    apply settled_pair; try done. cbn [closes]. lia.
  - destruct Hl as [(Hs & Hpos & Hun)
                   |[(l0 & b0 & n0 & p0 & -> & Hs & Hpos & Hun)
                    |(l0 & b0 & n0 & p0 & -> & Hs & Hpos & Hun)]];
      try (exfalso; lia).
    rewrite <- (app_nil_r (_ ++ _)). apply settled_round_trips.
    apply settled_pair; try done. cbn [closes]. lia.
Qed.

Lemma loop_round_trips st bars bound s :
  (∀ w thr, st = LongShortMeanReversion w thr →
            (initial_amount s =? 0)%float = false) →
  position s = 0%Z → units s = 0%Z →
  wp (for_each bars (bar_step st) bound)
    (λ _ s' l, holding l s') (λ _ _ l, round_trips l = true) s.
Proof.
  intros Hstake Hpos Hun.
  eapply wp_mono;
    [| |apply (wp_for_each
                 (λ _ s' l, holding l s' ∧ initial_amount s' = initial_amount s)
                 (λ _ _ l, round_trips l = true))].
  - by intros _ s' l [H _].
  - done.
  - split; [|done]. left. by repeat split; [constructor|..].
  - intros pre b post s0 l _ [Hl Hi].
    destruct (bar_step_framed st b s0) as (Hf & _).
    assert (wp (bar_step st b) (λ _ s' l, trade_step b s0 s' l)
              (λ _ _ l, fault_step b s0 l) s0) as Htrade.
    { apply bar_step_trades. intros w thr Hst. rewrite Hi.
      by apply (Hstake w thr). }
    unfold wp in *.
    destruct (bar_step st b s0) as [[] s' l'|e s' l']; simpl in Hf.
    + split; [|congruence]. by apply (holding_step b s0).
    + by apply (holding_fault b s0).
Qed.

Lemma holding_closed l s b p :
  holding l s → round_trips (l ++ [ClosedOut b (units s) p]) = true.
Proof.
  intros [(Hl & _ & ->)|[(l0 & b0 & n & p0 & -> & Hl & _ & ->)
                        |(l0 & b0 & n & p0 & -> & Hl & _ & ->)]].
  - by rewrite settled_round_trips.
  - rewrite <- app_assoc, settled_round_trips by done.
    cbn [app round_trips closes]. by rewrite Z.eqb_refl.
  - rewrite <- app_assoc, settled_round_trips by done.
    cbn [app round_trips closes]. by rewrite Z.eqb_refl.
Qed.

(** X15.  The orders of a run come in round trips.  Started without a
    holding, every strategy records orders that pair up: an order that
    opens a position is followed by the order, or the close-out, that
    takes back exactly the units it put on, before any other position is
    opened; a direct flip records the closing order and then the opening
    one; a bar that raises in the middle of a flip has recorded the
    closing order only.  After every bar the units held are those of the
    open order (none when all round trips are completed) and the
    position flag is on its side.  For the long-short mean reversion the
    initial amount must not be zero: a zero stake sets the flag without
    placing an order. *)
Theorem orders_come_in_round_trips {pandas : Rolling} st s k :
  units s = 0%Z →
  (∀ w thr, st = LongShortMeanReversion w thr →
            (initial_amount s =? 0)%float = false) →
  round_trips (log_of (run_upto st k s)) = true ∧
  (∀ b s' l, run_upto st k s = Ok b s' l → holding l s') ∧
  round_trips (log_of (run st s)) = true.
Proof.
  intros Hun Hstake.
  destruct (prepared_ledger st s) as (Hpos & _ & _ & Hun').
  destruct (prepared_params st s) as (Hi & _).
  assert (∀ bars,
            wp (for_each bars (bar_step st) None)
              (λ _ s' l, holding l s') (λ _ _ l, round_trips l = true)
              (prepared st s)) as Hloop.
  { intros bars. apply loop_round_trips; [|done|congruence].
    intros w thr Hst. rewrite Hi. by apply (Hstake w thr). }
  split; [|split].
  - rewrite run_upto_prepared.
    specialize (Hloop (take k (bars_of st s))). unfold wp in Hloop.
    destruct (for_each _ _ _ _) as [b s' l|e s' l]; [|done].
    by apply (holding_round_trips l s').
  - intros b s' l Hrun. rewrite run_upto_prepared in Hrun.
    specialize (Hloop (take k (bars_of st s))). unfold wp in Hloop.
    by rewrite Hrun in Hloop.
  - rewrite run_prepared, log_of_bind.
    specialize (Hloop (bars_of st s)). unfold wp in Hloop.
    destruct (for_each _ _ _ _) as [bound s' l|e s' l]; [|done].
    destruct bound as [b|]; cbn [close_out_after].
    + destruct (close_out_outcome b s') as [(r & _ & _ & ->)|(e & -> & _)].
      * by apply holding_closed.
      * cbn [log_of]. rewrite app_nil_r.
        by apply (holding_round_trips l s').
    + cbn [raise log_of]. rewrite app_nil_r.
      by apply (holding_round_trips l s').
Qed.

Lemma orders_come_in_round_trips_witness :
  round_trips (log_of (run (pandas := window_rolling) (LongShortSMA 1 2)
                         sample)) = true.
Proof.
  destruct (orders_come_in_round_trips (pandas := window_rolling)
              (LongShortSMA 1 2) sample 3)
    as (_ & _ & H); [reflexivity|discriminate|exact H].
Defined.

(** X16.  With an initial amount of zero the long-short mean reversion
    opens positions without orders: its intents are sized by the initial
    amount, a zero amount counts as no size, so [go_long] and [go_short]
    place nothing, and the strategy sets the position flag all the same.
    The bar leaves the ledger and the record untouched and the flag long
    (price below the mean by more than the threshold) or short (price
    above it by more than the threshold). *)
Theorem zero_stake_opens_phantom_position thr b s r col m :
  (initial_amount s =? 0)%float = true → position s = 0%Z →
  data s !! b = Some r → cols s !! "SMA" = Some col →
  col !! b = Some m →
  ((price r <? m - thr)%float = true →
   BacktestLongShort.mean_reversion_bar thr b s
   = Ok tt (set_position 1 s) []) ∧
  ((price r <? m - thr)%float = false → gtb (price r) (m + thr) = true →
   BacktestLongShort.mean_reversion_bar thr b s
   = Ok tt (set_position (-1) s) []).
Proof.
  intros Hzero Hpos Hr Hcol Hm. split.
  - intros Hlow.
    assert (wp (BacktestLongShort.mean_reversion_bar thr b)
              (λ _ s' l, s' = set_position 1 s ∧ l = []) (λ _ _ _, False) s)
      as Hwp.
    { unfold_bar_step; wp_exec; vc_simpl; vc_simpl; unify_reads;
        first [by split | exfalso; lia | exfalso; congruence
              | exfalso; absurd_read
              | by (exfalso; rewrite Hzero in *)]. }
    unfold wp in Hwp.
    by destruct (BacktestLongShort.mean_reversion_bar thr b s)
      as [[] s' l|]; [destruct Hwp as [-> ->]|].
  - intros Hnot Hhigh.
    assert (wp (BacktestLongShort.mean_reversion_bar thr b)
              (λ _ s' l, s' = set_position (-1) s ∧ l = [])
              (λ _ _ _, False) s) as Hwp.
    { unfold_bar_step; wp_exec; vc_simpl; vc_simpl; unify_reads;
        first [by split | exfalso; lia | exfalso; congruence
              | exfalso; absurd_read
              | by (exfalso; rewrite Hzero in *)]. }
    unfold wp in Hwp.
    by destruct (BacktestLongShort.mean_reversion_bar thr b s)
      as [[] s' l|]; [destruct Hwp as [-> ->]|].
Qed.

Lemma zero_stake_opens_phantom_position_witness :
  BacktestLongShort.mean_reversion_bar 1 3
    (penniless (pandas := window_rolling))
  = Ok tt (set_position 1 (penniless (pandas := window_rolling))) [].
Proof.
  destruct (zero_stake_opens_phantom_position 1 3
              (penniless (pandas := window_rolling))
              (mkBar 0.5 0)
              (rolling_mean (Rolling := window_rolling) 2
                 (price <$> sample_rows))
              5.25) as [H _].
  - reflexivity.
  - reflexivity.
  - reflexivity.
  - apply lookup_insert_eq.
  - reflexivity.
  - apply H. reflexivity.
Defined.
